(** * olap-viz: the OLAP engine of [src/lib/olap-utils.ts]

    A shallow embedding of schema inference ([detectDimensions],
    [detectMeasures]), the cube builder ([createOLAPCube]), the aggregation
    engine ([aggregateData]) and the operators ([sliceCube], [diceCube],
    [drillDown], [drillUp], [pivotCube]), followed by the properties of the
    engine.

    Modelling conventions.
    - A JavaScript string is a [string]; [toLowerCase] is the ASCII one.
    - A JavaScript number is a rational [Qc], and there are no infinities.
      Addition is the addition of the host, which rounds ([Number_add]);
      division and comparison are the exact ones.  A field or a coordinate
      may hold [NaN], a constructor of [value]; an operation that may answer
      [NaN] on numbers ([Number], lodash [meanBy]) returns an [option],
      [None] standing for [NaN].
    - [undefined] is the [None] of an [option].
    - An object used as a dictionary is a finite map, or a list of entries in
      property enumeration order where the code enumerates it
      ([Object.keys], [Object.values]).  What a plain object inherits from
      [Object.prototype] is modelled where the operators read or write a
      dictionary by a name taken from the data: the lookup of the children
      in [drillDown] ([children_of]) and the assignment of a parent in the
      product hierarchy ([assign]).
    - What the host provides and the repository does not define (string to
      number and number to string conversion, [Date], the addition of
      numbers) is a [JsHost]. *)

From Stdlib Require Import Ascii String QArith Qcanon Qround.
From stdpp Require Import base option list sorting numbers strings pretty gmap fin_maps.

Local Open Scope string_scope.
Local Open Scope list_scope.

(** ** Strings *)

Module Str.

Definition lower (a : ascii) : ascii :=
  let n := nat_of_ascii a in
  if bool_decide (65 ≤ n ∧ n ≤ 90)%nat then ascii_of_nat (n + 32) else a.

(** [s.toLowerCase()] *)
Fixpoint toLowerCase (s : string) : string :=
  match s with
  | EmptyString => EmptyString
  | String a s' => String (lower a) (toLowerCase s')
  end.

Fixpoint startsWith (s p : string) : bool :=
  match p, s with
  | EmptyString, _ => true
  | String _ _, EmptyString => false
  | String b p', String a s' => bool_decide (a = b) && startsWith s' p'
  end.

(** [s.includes(sub)] *)
Fixpoint includes (s sub : string) : bool :=
  startsWith s sub ||
  match s with
  | EmptyString => false
  | String _ s' => includes s' sub
  end.

(** [s.split(sep)] for a separator of one character: never empty. *)
Fixpoint split (sep : ascii) (s : string) : list string :=
  match s with
  | EmptyString => [EmptyString]
  | String a s' =>
      if bool_decide (a = sep) then EmptyString :: split sep s'
      else match split sep s' with
           | [] => [String a EmptyString]
           | w :: ws => String a w :: ws
           end
  end.

(** [parts.join(sep)] on strings. *)
Fixpoint join (sep : string) (parts : list string) : string :=
  match parts with
  | [] => EmptyString
  | [p] => p
  | p :: ps => p +:+ sep +:+ join sep ps
  end.

Definition is_digit (a : ascii) : bool :=
  let n := nat_of_ascii a in bool_decide (48 ≤ n ∧ n ≤ 57)%nat.

Definition digit_val (a : ascii) : N := N.of_nat (nat_of_ascii a - 48).

Fixpoint chars (s : string) : list ascii :=
  match s with
  | EmptyString => []
  | String a s' => a :: chars s'
  end.

(** [s.padStart(n, "0")] *)
Definition padStart0 (n : nat) (s : string) : string :=
  Nat.iter (n - String.length s) (String "0"%char) s.

(** The regular expressions of [drillUp]: [/^\d{4}-\d{2}-\d{2}$/],
    [/^\d{4}-\d{2}$/] and [/^\d{4}$/]. *)
Definition digits (n : nat) (s : string) : bool :=
  bool_decide (String.length s = n) && forallb is_digit (chars s).

Definition is_year (s : string) : bool := digits 4 s.

Definition is_year_month (s : string) : bool :=
  match split "-"%char s with
  | [y; m] => digits 4 y && digits 2 m
  | _ => false
  end.

Definition is_year_month_day (s : string) : bool :=
  match split "-"%char s with
  | [y; m; d] => digits 4 y && digits 2 m && digits 2 d
  | _ => false
  end.

End Str.

(** ** Values and the host *)

(** [string | number], the type of a record field and of a coordinate; the
    number that is not a number has a constructor of its own. *)
Inductive value :=
| Str (s : string)
| Num (q : Qc)
| NaN.

#[global] Instance value_eq_dec : EqDecision value.
Proof. solve_decision. Defined.

(** What the JavaScript host provides: [Number(s)] on a string ([None] is
    [NaN]), [String(n)] on a number, [Date.parse] in milliseconds ([None] is
    [NaN]; [new Date(s)] holds the same time value), the local-time
    getters of a valid [Date], and [a + b] on numbers.  The sum of two
    doubles is rounded to a double, so that [Number_add] is not
    associative; what holds of it is that adding 0 changes nothing and that
    integers are added exactly as long as the operands and the result stay
    within 2^53. *)
Class JsHost := {
  StringToNumber : string → option Qc;
  NumberToString : Qc → string;
  Date_parse : string → option Z;
  Date_getFullYear : Z → Z;
  Date_getMonth : Z → Z;
  Number_add : Qc → Qc → Qc;
  Number_add_0_l : ∀ a, Number_add 0%Qc a = a;
  Number_add_0_r : ∀ a, Number_add a 0%Qc = a;
  Number_add_integers : ∀ a b : Z,
    (Z.abs a ≤ 2 ^ 53)%Z → (Z.abs b ≤ 2 ^ 53)%Z → (Z.abs (a + b) ≤ 2 ^ 53)%Z →
    Number_add (Qc_of_Z a) (Qc_of_Z b) = Qc_of_Z (a + b)
}.

(** [DataPoint]: the own properties of a record, in enumeration order. *)
Abbreviation DataPoint := (list (string * value)).

(** [row[key]] *)
Fixpoint row_get (row : DataPoint) (key : string) : option value :=
  match row with
  | [] => None
  | (k, v) :: row' => if decide (k = key) then Some v else row_get row' key
  end.

(** [Object.keys(row)] *)
Definition Object_keys (row : DataPoint) : list string := map fst row.

(** [typeof v === 'number'] *)
Definition typeof_number (v : option value) : bool :=
  match v with Some (Num _) | Some NaN => true | _ => false end.

(** [Number(v)]; [None] is [NaN]. *)
Definition ToNumber `{JsHost} (v : option value) : option Qc :=
  match v with
  | None => None
  | Some (Num q) => Some q
  | Some NaN => None
  | Some (Str s) => StringToNumber s
  end.

(** [String(v)], also the conversion of a property key and of a template
    literal hole. *)
Definition ToString `{JsHost} (v : option value) : string :=
  match v with
  | None => "undefined"
  | Some (Str s) => s
  | Some (Num q) => NumberToString q
  | Some NaN => "NaN"
  end.

(** The condition [v] of an [if] or the left side of [&&] and [||]. *)
Definition truthy (v : option value) : bool :=
  match v with
  | None => false
  | Some (Str s) => negb (bool_decide (s = ""))
  | Some (Num q) => negb (bool_decide (q = 0%Qc))
  | Some NaN => false
  end.

(** [n || 0] on a number that may be [undefined] or [NaN]. *)
Definition or_zero (n : option Qc) : Qc :=
  match n with
  | Some q => if decide (q = 0%Qc) then 0%Qc else q
  | None => 0%Qc
  end.

(** [a === b] on values that may be [undefined]: [NaN] is not equal to
    itself. *)
Definition strict_eq (a b : option value) : bool :=
  match a with
  | Some NaN => false
  | _ => bool_decide (a = b)
  end.

(** [typeof v === 'number' || !isNaN(Number(v))] *)
Definition is_numeric `{JsHost} (v : option value) : bool :=
  typeof_number v || bool_decide (is_Some (ToNumber v)).

(** [[...new Set(l)]]: the distinct elements in order of first occurrence.
    A [Set] compares with SameValueZero, under which [NaN] is equal to
    itself: the equality of the model. *)
Definition Set_add {A} `{EqDecision A} (s : list A) (x : A) : list A :=
  if decide (x ∈ s) then s else s ++ [x].

Definition new_Set {A} `{EqDecision A} (l : list A) : list A :=
  foldl Set_add [] l.

(** ** Objects built by insertion and enumerated *)

Module Obj.

(** An array index: the canonical decimal form of an integer below
    [2^32 - 1].  Such keys are enumerated first, in ascending order. *)
Definition array_index (k : string) : option N :=
  let cs := Str.chars k in
  let n := foldl (λ acc c, (10 * acc + Str.digit_val c)%N) 0%N cs in
  match cs with
  | [] => None
  | c :: cs' =>
      if forallb Str.is_digit cs
         && (negb (bool_decide (c = "0"%char)) || bool_decide (cs' = []))
         && bool_decide (n < 4294967295)%N
      then Some n else None
  end.

Section obj.
Context {V : Type}.

(** [o[k]] on own properties. *)
Fixpoint get (o : list (string * V)) (k : string) : option V :=
  match o with
  | [] => None
  | (k', v) :: o' => if decide (k' = k) then Some v else get o' k
  end.

(** [o[k] = v] for a key already present: the property keeps its place. *)
Fixpoint replace (o : list (string * V)) (k : string) (v : V) : list (string * V) :=
  match o with
  | [] => []
  | (k', v') :: o' =>
      if decide (k' = k) then (k, v) :: o' else (k', v') :: replace o' k v
  end.

(** A new array-index key goes before the first larger index and before
    every other key. *)
Fixpoint insert_index (o : list (string * V)) (n : N) (k : string) (v : V)
  : list (string * V) :=
  match o with
  | [] => [(k, v)]
  | (k', v') :: o' =>
      match array_index k' with
      | Some n' =>
          if decide (n' < n)%N then (k', v') :: insert_index o' n k v
          else (k, v) :: o
      | None => (k, v) :: o
      end
  end.

(** [o[k] = v] *)
Definition set (o : list (string * V)) (k : string) (v : V) : list (string * V) :=
  match get o k with
  | Some _ => replace o k v
  | None =>
      match array_index k with
      | Some n => insert_index o n k v
      | None => o ++ [(k, v)]
      end
  end.

(** [Object.values(o)] *)
Definition values (o : list (string * V)) : list V := map snd o.

End obj.

End Obj.

(** ** lodash *)

Module lodash.

(** [sumBy(values, v => v)]: [0] on the empty array, otherwise the running
    total started from the first element. *)
Definition sumBy `{JsHost} (values : list Qc) : Qc :=
  match values with
  | [] => 0%Qc
  | v :: vs => foldl Number_add v vs
  end.

(** [meanBy(values, v => v)]: [NaN] on the empty array. *)
Definition meanBy `{JsHost} (values : list Qc) : option Qc :=
  match values with
  | [] => None
  | _ => Some (sumBy values / Qc_of_Z (Z.of_nat (length values)))%Qc
  end.

(** [baseExtremum]: the first element that no other beats. *)
Definition baseExtremum (better : Qc → Qc → bool) (values : list Qc) : option Qc :=
  foldl (λ computed current,
           match computed with
           | None => Some current
           | Some c => if better current c then Some current else Some c
           end) None values.

(** [minBy(values, v => v)] and [maxBy(values, v => v)]; [None] is
    [undefined]. *)
Definition minBy : list Qc → option Qc :=
  baseExtremum (λ a b, bool_decide (a < b)%Qc).
Definition maxBy : list Qc → option Qc :=
  baseExtremum (λ a b, bool_decide (b < a)%Qc).

(** [groupBy(collection, iteratee)]: an object from key to the elements
    with that key, in order. *)
Definition groupBy {A} (collection : list A) (iteratee : A → string)
  : list (string * list A) :=
  foldl (λ result x,
           let key := iteratee x in
           match Obj.get result key with
           | Some group => Obj.set result key (group ++ [x])
           | None => Obj.set result key [x]
           end) [] collection.

End lodash.

(** ** The data model of [src/lib/types.ts] *)

Inductive DimensionType := categorical | numerical | temporal.

Inductive AggregationType := sum | average | count | min | max.

#[global] Instance DimensionType_eq_dec : EqDecision DimensionType.
Proof. solve_decision. Defined.

(** [parentMap] and [childMap] are dictionaries that the code never
    enumerates.  The arrays of [childMap] are declared [string[]]; at run
    time the product hierarchy pushes the raw product value. *)
Record Hierarchy := {
  levels : list string;
  parentMap : gmap string string;
  childMap : gmap string (list (option value))
}.

Module Dimension.
Record t := {
  name : string;
  type : DimensionType;
  values : list (option value);
  uniqueValues : list (option value);
  hierarchy : option Hierarchy
}.
End Dimension.

Module Measure.
Record t := {
  name : string;
  type : AggregationType;
  value : Qc
}.
End Measure.

(** A property that holds [undefined] reads like an absent one, and the
    code only reads [coordinates] and [measures] by name: both are finite
    maps, and storing [undefined] removes the key. *)
Record CubeCell := {
  coordinates : gmap string value;
  measures : gmap string Qc;
  color : option string
}.

Record Metadata := {
  totalRecords : nat;
  lastUpdated : Z
}.

Module OLAPCube.
Record t := {
  dimensions : list Dimension.t;
  measures : list Measure.t;
  data : list CubeCell;
  metadata : Metadata
}.
End OLAPCube.

Record AxisAssignment := {
  x : option string;
  y : option string;
  z : option string;
  measure : option string
}.

(** [coordinates[k] = v] where [v] may be [undefined]. *)
Definition put (k : string) (v : option value) (coords : gmap string value)
  : gmap string value :=
  match v with
  | Some w => <[k := w]> coords
  | None => delete k coords
  end.

(** ** Schema inference *)

Section engine.
Context `{JsHost}.

(** The test that skips a column in [detectDimensions]; [&&] binds
    tighter than [||]. *)
Definition skipped_as_measure (data : list DataPoint) (key : string) : bool :=
  let k := Str.toLowerCase key in
  Str.includes k "sales" || Str.includes k "revenue" ||
  Str.includes k "profit" || Str.includes k "amount" ||
  (Str.includes k "quantity" &&
   forallb (λ row, typeof_number (row_get row key)) data).

(** [if (!hierarchy.childMap[k]) hierarchy.childMap[k] = []]: an array is
    truthy, so the test asks whether the key is absent. *)
Definition ensure (k : string) (cm : gmap string (list (option value)))
  : gmap string (list (option value)) :=
  match cm !! k with
  | Some _ => cm
  | None => <[k := []]> cm
  end.

(** [hierarchy.childMap[k].push(v)] *)
Definition push (k : string) (v : option value)
    (cm : gmap string (list (option value)))
  : gmap string (list (option value)) :=
  alter (λ l, l ++ [v]) k cm.

(** One round of [dates.forEach] in the [Date] branch. *)
Definition date_step (h : Hierarchy) (date : string) : Hierarchy :=
  let parts := Str.split "-"%char date in
  let year := default "" (parts !! 0%nat) in
  let month := parts !! 1%nat in
  let monthKey := year +:+ "-" +:+ default "undefined" month in
  let pm := <[monthKey := year]> (<[date := monthKey]> (parentMap h)) in
  let cm := ensure monthKey (ensure year (childMap h)) in
  let cm := push monthKey (Some (Str date)) (push year (Some (Str monthKey)) cm) in
  {| levels := levels h; parentMap := pm; childMap := cm |}.

Definition date_hierarchy (values : list (option value)) : Hierarchy :=
  let dates := map ToString values in
  foldl date_step
    {| levels := ["Year"; "Month"; "Day"]; parentMap := ∅; childMap := ∅ |}
    dates.

(** [hierarchy.parentMap[k] = v] with a string [v].  On a plain object the
    key [__proto__] is the accessor of [Object.prototype], whose setter
    ignores a string: no property is stored. *)
Definition assign (k v : string) (pm : gmap string string) : gmap string string :=
  if decide (k = "__proto__") then pm else <[k := v]> pm.

(** One round of [products.forEach] in the [Product] branch. *)
Definition product_step (data : list DataPoint) (h : Hierarchy)
    (product : option value) : Hierarchy :=
  let category :=
    match List.find (λ row, strict_eq (row_get row "Product") product) data with
    | Some row => row_get row "Category"
    | None => None
    end in
  if truthy category then
    let pm := assign (ToString product) (ToString category) (parentMap h) in
    let cm := push (ToString category) product
                (ensure (ToString category) (childMap h)) in
    {| levels := levels h; parentMap := pm; childMap := cm |}
  else h.

Definition product_hierarchy (data : list DataPoint)
    (uniqueValues : list (option value)) : Hierarchy :=
  foldl (product_step data)
    {| levels := ["Category"; "Product"]; parentMap := ∅; childMap := ∅ |}
    uniqueValues.

(** [numericValues.length > values.length * 0.8].  The double nearest to
    0.8 is [0.8 * (1 + 2^-54)], so the product rounds to [0.8 * n] when
    that is an integer and stays at least 0.2 minus a rounding error away
    from every integer otherwise: for array lengths the comparison is the
    exact one. *)
Definition mostly_numeric (numericValues values : list (option value)) : bool :=
  bool_decide (4 * length values < 5 * length numericValues).

Definition dimension_of (data : list DataPoint) (key : string) : Dimension.t :=
  let values := map (λ row, row_get row key) data in
  let uniqueValues := new_Set values in
  let numericValues := List.filter is_numeric values in
  let k := Str.toLowerCase key in
  let type :=
    if mostly_numeric numericValues values then numerical
    else if Str.includes k "date" || Str.includes k "time" then temporal
    else categorical in
  let hierarchy :=
    if decide (key = "Date") then Some (date_hierarchy values)
    else if decide (key = "Product") then Some (product_hierarchy data uniqueValues)
    else None in
  {| Dimension.name := key; Dimension.type := type;
     Dimension.values := values; Dimension.uniqueValues := uniqueValues;
     Dimension.hierarchy := hierarchy |}.

Definition detectDimensions (data : list DataPoint) : list Dimension.t :=
  match data with
  | [] => []
  | sampleRecord :: _ =>
      foldl (λ dimensions key,
               if skipped_as_measure data key then dimensions
               else dimensions ++ [dimension_of data key])
        [] (Object_keys sampleRecord)
  end.

Definition isExplicitMeasure (key : string) : bool :=
  let k := Str.toLowerCase key in
  Str.includes k "sales" || Str.includes k "revenue" ||
  Str.includes k "profit" || Str.includes k "amount" ||
  Str.includes k "quantity".

Definition detectMeasures (data : list DataPoint) (dimensions : list Dimension.t)
  : list Measure.t :=
  let dimensionNames := map Dimension.name dimensions in
  foldl (λ measures key,
           let isNumericColumn :=
             forallb (λ row, is_numeric (row_get row key)) data in
           if negb (bool_decide (key ∈ dimensionNames))
              && (isExplicitMeasure key || isNumericColumn)
           then
             (* [data.map(row => Number(row[key])).filter(v => !isNaN(v))] *)
             let values := omap (λ row, ToNumber (row_get row key)) data in
             if bool_decide (0 < length values) then
               measures ++ [{| Measure.name := key; Measure.type := sum;
                               Measure.value := lodash.sumBy values |}]
             else measures
           else measures)
    [] (Object_keys (default [] (head data))).

(** ** Cube builder *)

(** [now] is the value of [new Date()]. *)
Definition createOLAPCube (now : Z) (data : list DataPoint) : OLAPCube.t :=
  let dimensions := detectDimensions data in
  let measures := detectMeasures data dimensions in
  let cubeData :=
    map (λ row,
           let coordinates :=
             foldl (λ coords dim,
                      put (Dimension.name dim) (row_get row (Dimension.name dim)) coords)
               ∅ dimensions in
           let cellMeasures :=
             foldl (λ ms m,
                      <[Measure.name m := or_zero (ToNumber (row_get row (Measure.name m)))]> ms)
               ∅ measures in
           {| coordinates := coordinates; measures := cellMeasures; color := None |})
      data in
  {| OLAPCube.dimensions := dimensions;
     OLAPCube.measures := measures;
     OLAPCube.data := cubeData;
     OLAPCube.metadata := {| totalRecords := length data; lastUpdated := now |} |}.

(** ** Aggregation engine *)

(** An element of the array given to [join]: [undefined] prints as the
    empty string. *)
Definition join_element (v : option value) : string :=
  match v with
  | None => ""
  | Some _ => ToString v
  end.

(** [groupByDimensions.map(dim => cell.coordinates[dim]).join('|')] *)
Definition group_key (groupByDimensions : list string) (cell : CubeCell) : string :=
  Str.join "|" (map (λ dim, join_element (coordinates cell !! dim)) groupByDimensions).

(** The callback of [Object.values(grouped).map].  [None] says that the
    call leaves the model: [group[0].coordinates] on an empty group is a
    [TypeError], and the average of no value is [NaN]. *)
Definition aggregate_group (groupByDimensions : list string) (measureName : string)
    (aggregationType : AggregationType) (group : list CubeCell) : option CubeCell :=
  coordinates ←
    foldl (λ acc dim,
             coords ← acc;
             first ← head group;
             Some (put dim (coordinates first !! dim) coords))
      (Some ∅) groupByDimensions;
  let values := map (λ cell, or_zero (measures cell !! measureName)) group in
  aggregatedValue ←
    match aggregationType with
    | sum => Some (lodash.sumBy values)
    | average => lodash.meanBy values
    | count => Some (Qc_of_Z (Z.of_nat (length values)))
    | min => Some (or_zero (lodash.minBy values))
    | max => Some (or_zero (lodash.maxBy values))
    end;
  Some {| coordinates := coordinates;
          measures := {[ measureName := aggregatedValue ]};
          color := None |}.

Definition aggregateData (data : list CubeCell) (groupByDimensions : list string)
    (measureName : string) (aggregationType : AggregationType)
  : option (list CubeCell) :=
  let grouped := lodash.groupBy data (group_key groupByDimensions) in
  mapM (aggregate_group groupByDimensions measureName aggregationType)
    (Obj.values grouped).

(** ** Operators *)

Definition with_data (cube : OLAPCube.t) (data : list CubeCell) : OLAPCube.t :=
  {| OLAPCube.dimensions := OLAPCube.dimensions cube;
     OLAPCube.measures := OLAPCube.measures cube;
     OLAPCube.data := data;
     OLAPCube.metadata :=
       {| totalRecords := length data;
          lastUpdated := lastUpdated (OLAPCube.metadata cube) |} |}.

Definition sliceCube (cube : OLAPCube.t) (dimension : string) (value : value)
  : OLAPCube.t :=
  let filteredData :=
    List.filter (λ cell, strict_eq (coordinates cell !! dimension) (Some value))
      (OLAPCube.data cube) in
  with_data cube filteredData.

(** [values.includes(v)]: SameValueZero, which finds [NaN]. *)
Definition Array_includes (values : list value) (v : option value) : bool :=
  match v with
  | Some w => bool_decide (w ∈ values)
  | None => false
  end.

(** [conditions] is given by its entries. *)
Definition diceCube (cube : OLAPCube.t) (conditions : list (string * list value))
  : OLAPCube.t :=
  let filteredData :=
    List.filter (λ cell,
                   forallb (λ '(dimension, values),
                              Array_includes values (coordinates cell !! dimension))
                     conditions)
      (OLAPCube.data cube) in
  with_data cube filteredData.

(** [cube.measures[0]?.name], with the falsy empty name as [None]. *)
Definition first_measure_name (cube : OLAPCube.t) : option string :=
  match head (OLAPCube.measures cube) with
  | Some m => if decide (Measure.name m = "") then None else Some (Measure.name m)
  | None => None
  end.

Definition find_dimension (cube : OLAPCube.t) (dimension : string)
  : option Dimension.t :=
  List.find (λ d, bool_decide (Dimension.name d = dimension))
    (OLAPCube.dimensions cube).

(** The names that every plain object inherits from [Object.prototype]. *)
Definition Object_prototype_names : list string :=
  [ "constructor"; "hasOwnProperty"; "isPrototypeOf"; "propertyIsEnumerable";
    "toLocaleString"; "toString"; "valueOf"; "__proto__";
    "__defineGetter__"; "__defineSetter__"; "__lookupGetter__"; "__lookupSetter__" ].

(** [dim.hierarchy?.childMap?.[valueStr] || []], as [children.forEach]
    needs it.  [childMap] is a plain object: an own property is an array,
    and the empty array is truthy; a name inherited from [Object.prototype]
    reads as a function, or for [__proto__] as the prototype itself, which
    is truthy and has no [forEach], so that the call is a [TypeError],
    [None]; any other name reads as [undefined] and gives the empty array. *)
Definition children_of (cm : gmap string (list (option value))) (valueStr : string)
  : option (list (option value)) :=
  match cm !! valueStr with
  | Some children => Some children
  | None => if decide (valueStr ∈ Object_prototype_names) then None else Some []
  end.

(** [None] is the [TypeError] of [children.forEach]. *)
Definition drillDown (cube : OLAPCube.t) (dimension targetLevel : string)
  : option OLAPCube.t :=
  if decide (length (OLAPCube.data cube) = 0) then Some cube else
  match find_dimension cube dimension with
  | None => Some cube
  | Some dim =>
      match Dimension.hierarchy dim with
      | None => Some cube
      | Some h =>
          match first_measure_name cube with
          | None => Some cube
          | Some measureName =>
              let currentValues :=
                new_Set (map (λ cell, coordinates cell !! dimension)
                           (OLAPCube.data cube)) in
              nextLevelValues ←
                foldl (λ acc value,
                         next ← acc;
                         children ← children_of (childMap h) (ToString value);
                         Some (foldl Set_add next children))
                  (Some []) currentValues;
              if decide (length nextLevelValues = 0) then Some cube else
              let drilledData :=
                List.filter
                  (λ cell,
                     bool_decide
                       (Some (Str (ToString (coordinates cell !! dimension)))
                          ∈ nextLevelValues))
                  (OLAPCube.data cube) in
              Some (with_data cube drilledData)
          end
      end
  end.

Inductive Granularity := g_year | g_month | g_day.

(** A [Date] object is its time value, [None] for an invalid date; the
    outer [None] is [null]. *)
Definition parseToDate (val : option value) : option (option Z) :=
  match val with
  | None => None
  | Some _ =>
      let s := ToString val in
      if Str.is_year_month_day s then Some (Date_parse s)
      else if Str.is_year_month s then Some (Date_parse (s +:+ "-01"))
      else if Str.is_year s then Some (Date_parse (s +:+ "-01-01"))
      else match Date_parse s with
           | None => None
           | Some parsed => Some (Some parsed)
           end
  end.

Fixpoint detectGranularity (values : list (option value)) : Granularity :=
  match values with
  | [] => g_day
  | v :: values' =>
      let s := ToString v in
      if Str.is_year_month_day s then g_day
      else if Str.is_year_month s then g_month
      else if Str.is_year s then g_year
      else detectGranularity values'
  end.

(** [`${d.getFullYear()}`] and [String(d.getMonth() + 1).padStart(2, '0')]. *)
Definition year_text (d : option Z) : string :=
  match d with
  | Some t => NumberToString (Qc_of_Z (Date_getFullYear t))
  | None => "NaN"
  end.

Definition month_text (d : option Z) : string :=
  match d with
  | Some t => Str.padStart0 2 (NumberToString (Qc_of_Z (Date_getMonth t + 1)))
  | None => "NaN"
  end.

Definition coarsen (coarser : Granularity) (dimension : string) (cell : CubeCell)
  : CubeCell :=
  let original := coordinates cell !! dimension in
  let newCoord :=
    match parseToDate original with
    | Some d =>
        match coarser with
        | g_month => Some (Str (year_text d +:+ "-" +:+ month_text d))
        | g_year => Some (Str (year_text d))
        | g_day => original
        end
    | None => original
    end in
  {| coordinates := put dimension newCoord (coordinates cell);
     measures := measures cell;
     color := color cell |}.

Definition total_of (measureName : string) (cells : list CubeCell) : Qc :=
  lodash.sumBy (map (λ c, or_zero (measures c !! measureName)) cells).

Definition drillUp (now : Z) (cube : OLAPCube.t) (dimension sourceLevel : string)
  : option OLAPCube.t :=
  if decide (length (OLAPCube.data cube) = 0) then Some cube else
  match first_measure_name cube with
  | None => Some cube
  | Some measureName =>
      let dimValues :=
        map (λ cell, coordinates cell !! dimension) (OLAPCube.data cube) in
      let currentGran := detectGranularity dimValues in
      let coarser :=
        match currentGran with
        | g_day => g_month
        | g_month => g_year
        | g_year => g_year
        end in
      let transformed := map (coarsen coarser dimension) (OLAPCube.data cube) in
      let groupByDims := map Dimension.name (OLAPCube.dimensions cube) in
      aggregated ← aggregateData transformed groupByDims measureName sum;
      let existingDim := find_dimension cube dimension in
      let uniqueValues :=
        new_Set (map (λ a, coordinates a !! dimension) aggregated) in
      let newDim :=
        match existingDim with
        | Some e =>
            {| Dimension.name := Dimension.name e;
               Dimension.type := Dimension.type e;
               Dimension.values := uniqueValues;
               Dimension.uniqueValues := uniqueValues;
               Dimension.hierarchy := Dimension.hierarchy e |}
        | None =>
            {| Dimension.name := dimension;
               Dimension.type := temporal;
               Dimension.values := uniqueValues;
               Dimension.uniqueValues := uniqueValues;
               Dimension.hierarchy := None |}
        end in
      let newDimensions :=
        map (λ d, if decide (Dimension.name d = dimension) then newDim else d)
          (OLAPCube.dimensions cube) in
      let total := total_of measureName aggregated in
      let newMeasures :=
        [{| Measure.name := measureName; Measure.type := sum;
            Measure.value := total |}] in
      Some {| OLAPCube.dimensions := newDimensions;
              OLAPCube.measures := newMeasures;
              OLAPCube.data := aggregated;
              OLAPCube.metadata :=
                {| totalRecords := length aggregated; lastUpdated := now |} |}
  end.

(** [newAxisAssignment.measure || cube.measures[0]?.name || null] *)
Definition pivot_measure (cube : OLAPCube.t) (a : AxisAssignment) : option string :=
  match measure a with
  | Some m => if decide (m = "") then first_measure_name cube else Some m
  | None => first_measure_name cube
  end.

Definition pivotCube (now : Z) (cube : OLAPCube.t) (newAxisAssignment : AxisAssignment)
  : option OLAPCube.t :=
  let axes :=
    omap id [x newAxisAssignment; y newAxisAssignment; z newAxisAssignment] in
  if decide (length axes = 0) then Some cube else
  match pivot_measure cube newAxisAssignment with
  | None => Some cube
  | Some measureName =>
      aggregated ← aggregateData (OLAPCube.data cube) axes measureName sum;
      let newDimensions :=
        map (λ axisName,
               let existing := find_dimension cube axisName in
               let uniqueValues :=
                 new_Set (map (λ a, coordinates a !! axisName) aggregated) in
               match existing with
               | Some e =>
                   {| Dimension.name := Dimension.name e;
                      Dimension.type := Dimension.type e;
                      Dimension.values := Dimension.values e;
                      Dimension.uniqueValues := uniqueValues;
                      Dimension.hierarchy := Dimension.hierarchy e |}
               | None =>
                   {| Dimension.name := axisName;
                      Dimension.type := categorical;
                      Dimension.values := uniqueValues;
                      Dimension.uniqueValues := uniqueValues;
                      Dimension.hierarchy := None |}
               end)
          axes in
      let total := total_of measureName aggregated in
      let newMeasures :=
        [{| Measure.name := measureName; Measure.type := sum;
            Measure.value := total |}] in
      Some {| OLAPCube.dimensions := newDimensions;
              OLAPCube.measures := newMeasures;
              OLAPCube.data := aggregated;
              OLAPCube.metadata :=
                {| totalRecords := length aggregated; lastUpdated := now |} |}
  end.

End engine.

(** ** A host to run the model

    Decimal notation for numbers, read as the nearest double, ISO dates
    read in UTC and the addition of doubles.  It agrees with a JavaScript
    engine whose time zone is UTC on plain decimal literals, on integers,
    on [YYYY-MM-DD] dates and on sums that stay finite. *)

Module UtcHost.

(** The double nearest to [q], ties to even, subnormal numbers included.
    Beyond the largest double the answer of the host is [Infinity], a
    number the model does not have: there the rounded value stands in. *)
Definition round_to_double (q : Q) : Q :=
  let n := Z.abs (Qnum q) in
  let d := Z.pos (Qden q) in
  if decide (n = 0)%Z then 0%Q else
  let k := (Z.log2 n - Z.log2 d)%Z in
  let below :=
    if decide (0 ≤ k)%Z then bool_decide (n < d * 2 ^ k)%Z
    else bool_decide (n * 2 ^ (- k) < d)%Z in
  let e := (if below then k - 1 else k)%Z in
  let p := Z.max (e - 52) (-1074) in
  let num := (if decide (0 ≤ p)%Z then n else n * 2 ^ (- p))%Z in
  let den := (if decide (0 ≤ p)%Z then d * 2 ^ p else d)%Z in
  let quot := (num / den)%Z in
  let rest := (num mod den)%Z in
  let r :=
    (if decide (2 * rest < den)%Z then quot
     else if decide (den < 2 * rest)%Z then quot + 1
     else if Z.even quot then quot else quot + 1)%Z in
  let magnitude :=
    if decide (0 ≤ p)%Z then inject_Z (r * 2 ^ p)
    else Qmake r (Z.to_pos (2 ^ (- p))) in
  if decide (Qnum q < 0)%Z then Qopp magnitude else magnitude.

Definition double (q : Qc) : Qc := Q2Qc (round_to_double q).

Fixpoint digits_value (cs : list ascii) (acc : N) : option N :=
  match cs with
  | [] => Some acc
  | c :: cs' =>
      if Str.is_digit c then digits_value cs' (10 * acc + Str.digit_val c)%N
      else None
  end.

Definition natural (s : string) : option N :=
  match Str.chars s with
  | [] => None
  | cs => digits_value cs 0%N
  end.

(** [digits] or [digits.digits], without sign. *)
Definition unsigned_decimal (s : string) : option Qc :=
  match Str.split "."%char s with
  | [i] => n ← natural i; Some (Qc_of_Z (Z.of_N n))
  | [i; f] =>
      n ← natural i;
      m ← natural f;
      Some (double (Qc_of_Z (Z.of_N n)
                    + Q2Qc (Z.of_N m # Pos.pow 10 (Pos.of_nat (String.length f)))))%Qc
  | _ => None
  end.

Definition StringToNumber (s : string) : option Qc :=
  match s with
  | EmptyString => Some 0%Qc
  | String "-"%char s' => q ← unsigned_decimal s'; Some (- q)%Qc
  | String "+"%char s' => unsigned_decimal s'
  | _ => unsigned_decimal s
  end.

(** The digits after the decimal point of [r / d], at most [fuel] of them. *)
Fixpoint fraction (fuel : nat) (r d : Z) : string :=
  match fuel with
  | O => ""
  | S fuel' =>
      if decide (r = 0)%Z then ""
      else pretty (r * 10 / d)%Z +:+ fraction fuel' (r * 10 mod d)%Z d
  end.

Definition NumberToString (q : Qc) : string :=
  let n := Qnum q in
  let d := Z.pos (Qden q) in
  let whole := (Z.abs n / d)%Z in
  let rest := (Z.abs n mod d)%Z in
  (if decide (n < 0)%Z then "-" else "") +:+ pretty whole
  +:+ (if decide (rest = 0)%Z then "" else "." +:+ fraction 17 rest d).

(** Days since 1970-01-01 of a civil date, and back. *)
Definition days_from_civil (y m d : Z) : Z :=
  let y' := (if decide (m ≤ 2) then y - 1 else y)%Z in
  let era := (y' / 400)%Z in
  let yoe := (y' - era * 400)%Z in
  let mp := ((m + 9) mod 12)%Z in
  let doy := ((153 * mp + 2) / 5 + d - 1)%Z in
  let doe := (yoe * 365 + yoe / 4 - yoe / 100 + doy)%Z in
  (era * 146097 + doe - 719468)%Z.

Definition civil_from_days (days : Z) : Z * Z * Z :=
  let z := (days + 719468)%Z in
  let era := (z / 146097)%Z in
  let doe := (z - era * 146097)%Z in
  let yoe := ((doe - doe / 1460 + doe / 36524 - doe / 146096) / 365)%Z in
  let doy := (doe - (365 * yoe + yoe / 4 - yoe / 100))%Z in
  let mp := ((5 * doy + 2) / 153)%Z in
  let d := (doy - (153 * mp + 2) / 5 + 1)%Z in
  let m := (if decide (mp < 10) then mp + 3 else mp - 9)%Z in
  let y := (yoe + era * 400 + (if decide (m ≤ 2) then 1 else 0))%Z in
  (y, m, d).

Definition Date_parse (s : string) : option Z :=
  if Str.is_year_month_day s then
    match Str.split "-"%char s with
    | [ys; ms; ds] =>
        y ← natural ys; m ← natural ms; d ← natural ds;
        let days := days_from_civil (Z.of_N y) (Z.of_N m) (Z.of_N d) in
        if decide (civil_from_days days = (Z.of_N y, Z.of_N m, Z.of_N d))
        then Some (days * 86400000)%Z else None
    | _ => None
    end
  else None.

Definition Date_getFullYear (t : Z) : Z :=
  (civil_from_days (t / 86400000)).1.1.

Definition Date_getMonth (t : Z) : Z :=
  ((civil_from_days (t / 86400000)).1.2 - 1)%Z.

Definition is_double (q : Qc) : bool := bool_decide (double q = q).

Definition is_safe_integer (q : Qc) : bool :=
  bool_decide (Qc_of_Z (Qfloor q) = q) && bool_decide (Z.abs (Qfloor q) ≤ 2 ^ 53)%Z.

(** The sum of two doubles, rounded.  Integers within 2^53 whose sum stays
    within 2^53 are added exactly, which the first test settles without
    rounding; on a number that is not a double, which no computation of the
    host produces, the sum is left as it is. *)
Definition Number_add (a b : Qc) : Qc :=
  let s := (a + b)%Qc in
  if is_safe_integer a && is_safe_integer b && is_safe_integer s then s
  else if is_double a && is_double b then double s
  else s.

#[global] Instance host : JsHost.
Proof.
  refine (Build_JsHost StringToNumber NumberToString Date_parse Date_getFullYear
            Date_getMonth Number_add _ _ _).
  - intros a. unfold Number_add. cbv zeta. rewrite Qcplus_0_l.
    destruct (_ && _ && _); [done|].
    destruct (is_double a) eqn:Ha; [|by rewrite andb_false_r].
    apply bool_decide_eq_true in Ha. by destruct (is_double 0%Qc).
  - intros a. unfold Number_add. cbv zeta. rewrite Qcplus_0_r.
    destruct (_ && _ && _); [done|].
    destruct (is_double a) eqn:Ha; [|done].
    apply bool_decide_eq_true in Ha. by destruct (is_double 0%Qc).
  - intros a b Ha Hb Hab. unfold Number_add. cbv zeta.
    assert (∀ z, (Z.abs z ≤ 2 ^ 53)%Z → is_safe_integer (Qc_of_Z z) = true) as Hsafe.
    { intros z Hz. unfold is_safe_integer.
      assert (Qfloor (Qc_of_Z z) = z) as ->.
        by exact (Qfloor_Z z).
      by rewrite !bool_decide_eq_true_2. }
    rewrite <- Z2Qc_inj_add. by rewrite !Hsafe.
Defined.

End UtcHost.

(** ** Vocabulary of the properties *)

(** The total of a list of numbers, added from left to right as the code
    adds them. *)
Definition total `{JsHost} (l : list Qc) : Qc := foldl Number_add 0%Qc l.


(** The value of a measure on a cell, a missing one counted as 0. *)
Definition cell_value (measureName : string) (c : CubeCell) : Qc :=
  default 0%Qc (measures c !! measureName).

(** The cells of [data] whose group key is [k], in order. *)
Definition group_of `{JsHost} (groupByDimensions : list string) (data : list CubeCell)
    (k : string) : list CubeCell :=
  List.filter (λ c, bool_decide (group_key groupByDimensions c = k)) data.

(** The groups that [aggregateData] reduces, in output order. *)
Definition groups_of `{JsHost} (groupByDimensions : list string) (data : list CubeCell)
  : list (list CubeCell) :=
  Obj.values (lodash.groupBy data (group_key groupByDimensions)).

(** Two cells of [data] are placed in the same group. *)
Definition same_group `{JsHost} (groupByDimensions : list string) (data : list CubeCell)
    (c1 c2 : CubeCell) : Prop :=
  ∃ g, g ∈ groups_of groupByDimensions data ∧ c1 ∈ g ∧ c2 ∈ g.

(** What each aggregation kind promises about the value [v] emitted for a
    group whose measure values are [values]. *)
Definition aggregate_of `{JsHost} (kind : AggregationType) (values : list Qc) (v : Qc)
  : Prop :=
  match kind with
  | sum => v = total values
  | average => (v * Qc_of_Z (Z.of_nat (length values)) = total values)%Qc
  | count => v = Qc_of_Z (Z.of_nat (length values))
  | min => v ∈ values ∧ ∀ w, w ∈ values → (v ≤ w)%Qc
  | max => v ∈ values ∧ ∀ w, w ∈ values → (w ≤ v)%Qc
  end.

(** A group as stored in the object of [groupBy]: present when not empty. *)
Definition nonempty {A} (g : list A) : option (list A) :=
  match g with
  | [] => None
  | _ => Some g
  end.

(** The records of the worked example. *)
Definition int (n : Z) : value := Num (Q2Qc (inject_Z n)).

Definition sales_records : list DataPoint :=
  [ [("Region", Str "East"); ("Product", Str "A"); ("Sales", int 100)];
    [("Region", Str "East"); ("Product", Str "B"); ("Sales", int 50)];
    [("Region", Str "West"); ("Product", Str "A"); ("Sales", int 30)] ].

Definition cell (coords : list (string * value)) (ms : list (string * Z)) : CubeCell :=
  {| coordinates := list_to_map coords;
     measures := list_to_map (map (λ e, (e.1, Q2Qc (inject_Z e.2))) ms);
     color := None |}.

(** Two cells whose coordinates differ and whose group keys coincide, and
    a small cube of daily sales. *)
Definition bar_cell_1 : CubeCell := cell [("a", Str "x|y"); ("b", Str "z")] [("n", 1%Z)].
Definition bar_cell_2 : CubeCell := cell [("a", Str "x"); ("b", Str "y|z")] [("n", 2%Z)].
Definition bar_cells : list CubeCell := [bar_cell_1; bar_cell_2].

Definition daily_records : list DataPoint :=
  [ [("Date", Str "2024-01-15"); ("Region", Str "East"); ("Sales", int 100)];
    [("Date", Str "2024-01-17"); ("Region", Str "East"); ("Sales", int 50)];
    [("Date", Str "2024-02-01"); ("Region", Str "West"); ("Sales", int 30)] ].

Definition daily_cube : OLAPCube.t :=
  createOLAPCube (H := UtcHost.host) 0 daily_records.







(** A column whose values are numeric for exactly four records in five, and
    a [Date] column that holds months. *)
Definition tie_records : list DataPoint :=
  [ [("Code", int 1)]; [("Code", int 2)]; [("Code", int 3)]; [("Code", int 4)];
    [("Code", Str "x")] ].

Definition month_records : list DataPoint := [ [("Date", Str "2024-01")] ].

(** Records with a Region that is not a number, and their cube. *)
Definition nan_records : list DataPoint :=
  [ [("Region", NaN); ("Sales", int 1)]; [("Region", Str "West"); ("Sales", int 2)] ].

Definition nan_cube : OLAPCube.t := createOLAPCube (H := UtcHost.host) 0 nan_records.

(** The cell of the second of these records. *)
Definition west_cell : CubeCell := cell [("Region", Str "West")] [("Sales", 2%Z)].

(** A record whose product is named like a method of every object. *)
Definition toString_records : list DataPoint :=
  [ [("Product", Str "toString"); ("Category", Str "X"); ("Sales", int 1)] ].

(** ** Vocabulary of the further properties *)

(** The axes that [pivotCube] groups by: the strings among x, y and z. *)
Definition axes_of (a : AxisAssignment) : list string := omap id [x a; y a; z a].

(** The record count of the metadata is the number of cells. *)
Definition counted (cube : OLAPCube.t) : Prop :=
  totalRecords (OLAPCube.metadata cube) = length (OLAPCube.data cube).

(** The children listed for [p], none when [p] is not a key of the map. *)
Definition kids (cm : gmap string (list (option value))) (p : string)
  : list (option value) :=
  default [] (cm !! p).

(** Every entry of [parentMap] is listed: the parent of a key lists a child
    whose string form is the key. *)
Definition parents_listed `{JsHost} (h : Hierarchy) : Prop :=
  ∀ k p, parentMap h !! k = Some p →
         ∃ child, child ∈ kids (childMap h) p ∧ ToString child = k.

(** Moreover no array of children is empty. *)
Definition well_listed `{JsHost} (h : Hierarchy) : Prop :=
  parents_listed h ∧ ∀ p l, childMap h !! p = Some l → l ≠ [].

(** Every listed child has the listing value as its parent. *)
Definition children_have_parent `{JsHost} (h : Hierarchy) : Prop :=
  ∀ p child, child ∈ kids (childMap h) p →
             parentMap h !! ToString child = Some p.

(** The year and the month key that [date_step] derives from a date. *)
Definition first_part (date : string) : string :=
  default "" (Str.split "-"%char date !! 0%nat).

Definition month_key (date : string) : string :=
  first_part date +:+ "-" +:+ default "undefined" (Str.split "-"%char date !! 1%nat).

(** Records with products and categories. *)
Definition catalog_records : list DataPoint :=
  [ [("Product", Str "Saw"); ("Category", Str "Tools"); ("Sales", int 10)];
    [("Product", Str "Kite"); ("Category", Str "Toys"); ("Sales", int 20)];
    [("Product", Str "Axe"); ("Category", Str "Tools"); ("Sales", int 30)];
    [("Product", Str "Saw"); ("Category", Str "Toys"); ("Sales", int 40)] ].

(** A string without the separator of dates. *)
Definition dash_free (s : string) : Prop := "-"%char ∉ Str.chars s.

(** Records whose dates are days. *)
Definition iso_records : list DataPoint :=
  [ [("Date", Str "2024-01-15"); ("Sales", int 10)];
    [("Date", Str "2024-01-16"); ("Sales", int 20)];
    [("Date", Str "2024-02-01"); ("Sales", int 30)];
    [("Date", Str "2024-01-15"); ("Sales", int 40)] ].

(** ** The colour scale of [generateColorScale] *)

(** [Math.min] and [Math.max] of two numbers. *)
Definition Math_min (a b : Qc) : Qc := if decide (b < a)%Qc then b else a.
Definition Math_max (a b : Qc) : Qc := if decide (a < b)%Qc then b else a.

(** The hue that the callback of [values.map] computes. *)
Definition scale_hue (min range value : Qc) : Qc :=
  let normalized :=
    if decide (range = 0%Qc) then Q2Qc (1 # 2) else ((value - min) / range)%Qc in
  ((1 - normalized) * Qc_of_Z 240)%Qc.

Definition hsl `{JsHost} (hue : Qc) : string :=
  "hsl(" +:+ NumberToString hue +:+ ", 70%, 50%)".

(** [Math.min()] of no argument is [Infinity], a number the model does not
    have; on the empty array the map runs over no value. *)
Definition generateColorScale `{JsHost} (values : list Qc) : list string :=
  match values with
  | [] => []
  | v :: vs =>
      let min := foldl Math_min v vs in
      let max := foldl Math_max v vs in
      let range := (max - min)%Qc in
      map (λ value, hsl (scale_hue min range value)) values
  end.

(** The enumeration order of two distinct property keys: array indices in
    ascending order, then the other keys. *)
Definition before (k1 k2 : string) : Prop :=
  match Obj.array_index k1, Obj.array_index k2 with
  | Some n1, Some n2 => (n1 < n2)%N
  | Some _, None => True
  | None, Some _ => False
  | None, None => True
  end.

#[global] Instance AggregationType_eq_dec : EqDecision AggregationType.
Proof. solve_decision. Defined.

(** ** The Pivot button of [src/components/olap-operations.tsx] *)

(** [cube.dimensions[i]?.name || null] *)
Definition dimension_name_at (cube : OLAPCube.t) (i : nat) : option string :=
  match OLAPCube.dimensions cube !! i with
  | Some d => if decide (Dimension.name d = "") then None else Some (Dimension.name d)
  | None => None
  end.

(** The assignment that [handlePivot] passes on: the first three
    dimensions and the first measure. *)
Definition default_assignment (cube : OLAPCube.t) : AxisAssignment :=
  {| x := dimension_name_at cube 0;
     y := dimension_name_at cube 1;
     z := dimension_name_at cube 2;
     measure := first_measure_name cube |}.

(** The cube that [handlePivot] hands to [onOperation]. *)
Definition handlePivot `{JsHost} (now : Z) (cube : OLAPCube.t) : option OLAPCube.t :=
  pivotCube now cube (default_assignment cube).

(** [cube] with another time stamp. *)
Definition stamped (now : Z) (cube : OLAPCube.t) : OLAPCube.t :=
  {| OLAPCube.dimensions := OLAPCube.dimensions cube;
     OLAPCube.measures := OLAPCube.measures cube;
     OLAPCube.data := OLAPCube.data cube;
     OLAPCube.metadata :=
       {| totalRecords := totalRecords (OLAPCube.metadata cube);
          lastUpdated := now |} |}.

(** ** The scene of [CubeVisualization] in the page, [src/unnamed/part_000] *)

(** [l.indexOf(v)] *)
Fixpoint indexOf_from (i : Z) (l : list (option value)) (v : option value) : Z :=
  match l with
  | [] => (-1)%Z
  | w :: l' => if strict_eq w v then i else indexOf_from (i + 1) l' v
  end.

Definition indexOf : list (option value) → option value → Z := indexOf_from 0.

Module Cell3D.
Record t := {
  cell : CubeCell;
  position : Qc * Qc * Qc;
  size : Qc * Qc * Qc;
  color : option string;
  value : Qc
}.
End Cell3D.

(** [index - values.length / 2] *)
Definition centred (index : Z) (values : list (option value)) : Qc :=
  (Qc_of_Z index - Qc_of_Z (Z.of_nat (length values)) / Qc_of_Z 2)%Qc.

(** The memoised [cells3D]: one box for each cell of the cube, or none
    while the cube is empty or an axis or the measure is not chosen. *)
Definition cells3D `{JsHost} (cube : OLAPCube.t) (axisAssignment : AxisAssignment)
  : list Cell3D.t :=
  let data := OLAPCube.data cube in
  if decide (length data = 0) then [] else
  match x axisAssignment, y axisAssignment, z axisAssignment,
        measure axisAssignment with
  | Some xDim, Some yDim, Some zDim, Some measureName =>
      if decide (xDim = "" ∨ yDim = "" ∨ zDim = "" ∨ measureName = "") then [] else
      let xValues := new_Set (map (λ cell, coordinates cell !! xDim) data) in
      let yValues := new_Set (map (λ cell, coordinates cell !! yDim) data) in
      let zValues := new_Set (map (λ cell, coordinates cell !! zDim) data) in
      let values := map (λ cell, or_zero (measures cell !! measureName)) data in
      let colors := generateColorScale values in
      imap (λ index cell,
              let xIndex := indexOf xValues (coordinates cell !! xDim) in
              let yIndex := indexOf yValues (coordinates cell !! yDim) in
              let zIndex := indexOf zValues (coordinates cell !! zDim) in
              {| Cell3D.cell := cell;
                 Cell3D.position :=
                   (centred xIndex xValues, centred yIndex yValues,
                    centred zIndex zValues);
                 Cell3D.size := (Q2Qc (8 # 10), Q2Qc (8 # 10), Q2Qc (8 # 10));
                 Cell3D.color := colors !! index;
                 Cell3D.value := or_zero (measures cell !! measureName) |})
        data
  | _, _, _, _ => []
  end.

(** * Properties *)

(** ** Sums *)

Lemma or_zero_default (n : option Qc) : or_zero n = default 0%Qc n.
Proof. destruct n as [q|]; simpl; [|done]. by destruct (decide (q = 0%Qc)). Qed.

Lemma sumBy_total `{JsHost} (l : list Qc) : lodash.sumBy l = total l.
Proof.
  destruct l as [|a l]; [done|]. unfold total. simpl. by rewrite Number_add_0_l.
Qed.

(** ** Objects *)

Section obj_facts.
Context {V : Type}.
Implicit Types (o : list (string * V)) (k : string) (v : V).

Lemma get_None o k : Obj.get o k = None ↔ k ∉ map fst o.
Proof.
  induction o as [|[k' v'] o IH]; simpl.
  - split; [intros _; apply not_elem_of_nil|done].
  - rewrite not_elem_of_cons. destruct (decide (k' = k)) as [->|Hne].
    + split; [done|]. intros [[] _]. done.
    + rewrite IH. split; [intros ?; split; [congruence|done]|by intros [_ ?]].
Qed.

Lemma get_replace o k v k' :
  Obj.get (Obj.replace o k v) k' =
    if decide (k = k') then (λ _, v) <$> Obj.get o k else Obj.get o k'.
Proof.
  induction o as [|[k1 v1] o IH]; simpl.
  - by destruct (decide (k = k')).
  - destruct (decide (k1 = k)) as [->|Hne]; simpl.
    + by destruct (decide (k = k')).
    + rewrite IH. destruct (decide (k = k')) as [<-|]; [|done].
      by rewrite decide_False by done.
Qed.

Lemma get_insert_index o n k v k' :
  Obj.get o k = None →
  Obj.get (Obj.insert_index o n k v) k' =
    if decide (k = k') then Some v else Obj.get o k'.
Proof.
  induction o as [|[k1 v1] o IH]; simpl; [done|].
  destruct (decide (k1 = k)) as [->|Hne]; [done|]. intros Hk.
  destruct (Obj.array_index k1) as [n1|]; [destruct (decide (n1 < n)%N)|]; simpl.
  - rewrite IH by done. destruct (decide (k1 = k')) as [<-|]; [|done].
    by rewrite decide_False by done.
  - destruct (decide (k = k')); [done|]. done.
  - destruct (decide (k = k')); [done|]. done.
Qed.

Lemma get_app o1 o2 k :
  Obj.get (o1 ++ o2) k =
    match Obj.get o1 k with Some v => Some v | None => Obj.get o2 k end.
Proof.
  induction o1 as [|[k1 v1] o1 IH]; simpl; [done|].
  by destruct (decide (k1 = k)).
Qed.

Lemma get_set o k v k' :
  Obj.get (Obj.set o k v) k' = if decide (k = k') then Some v else Obj.get o k'.
Proof.
  unfold Obj.set. destruct (Obj.get o k) as [v0|] eqn:Hk.
  - rewrite get_replace, Hk. done.
  - destruct (Obj.array_index k) as [n|].
    + by apply get_insert_index.
    + rewrite get_app. simpl. destruct (decide (k = k')) as [<-|].
      * by rewrite Hk.
      * by destruct (Obj.get o k').
Qed.

Lemma keys_replace o k v : map fst (Obj.replace o k v) = map fst o.
Proof.
  induction o as [|[k1 v1] o IH]; simpl; [done|].
  destruct (decide (k1 = k)) as [->|]; simpl; [done|]. by rewrite IH.
Qed.

Lemma keys_insert_index o n k v :
  map fst (Obj.insert_index o n k v) ≡ₚ k :: map fst o.
Proof.
  induction o as [|[k1 v1] o IH]; simpl; [done|].
  destruct (Obj.array_index k1) as [n1|]; [destruct (decide (n1 < n)%N)|];
    simpl; [|done..].
  rewrite IH. apply Permutation_swap.
Qed.

Lemma NoDup_set o k v : NoDup (map fst o) → NoDup (map fst (Obj.set o k v)).
Proof.
  intros Hnd. unfold Obj.set. destruct (Obj.get o k) as [v0|] eqn:Hk.
  - by rewrite keys_replace.
  - apply get_None in Hk. destruct (Obj.array_index k) as [n|].
    + rewrite keys_insert_index. by constructor.
    + rewrite map_app. simpl. apply NoDup_app. split_and!; [done| |].
      * intros k' Hin ->%list_elem_of_singleton. done.
      * apply NoDup_singleton.
Qed.

Lemma elem_of_get o k v :
  NoDup (map fst o) → (k, v) ∈ o ↔ Obj.get o k = Some v.
Proof.
  induction o as [|[k1 v1] o IH]; simpl; intros Hnd.
  - split; [by intros ?%elem_of_nil|done].
  - apply NoDup_cons in Hnd as [Hk1 Hnd]. rewrite elem_of_cons, IH by done.
    destruct (decide (k1 = k)) as [->|Hne].
    + split; [|intros [= ->]; by left]. intros [[=]|Hget]; [by subst|].
      destruct Hk1. apply dec_stable. intros Hnot%get_None. congruence.
    + split; [intros [[=]|?]; [congruence|done]|by right].
Qed.

Lemma elem_of_values o v :
  NoDup (map fst o) → v ∈ Obj.values o ↔ ∃ k, Obj.get o k = Some v.
Proof.
  intros Hnd. unfold Obj.values. rewrite list_elem_of_fmap. split.
  - intros [[k v'] [-> Hin]]. exists k. by apply elem_of_get.
  - intros [k Hk]. exists (k, v). split; [done|]. by apply elem_of_get.
Qed.

End obj_facts.

(** ** [groupBy] *)

Section groupBy_facts.
Context {A : Type} (iteratee : A → string).
Implicit Types (l : list A) (k : string).

Local Abbreviation with_key k l :=
  (List.filter (λ x, bool_decide (iteratee x = k)) l).

Lemma groupBy_snoc l a :
  lodash.groupBy (l ++ [a]) iteratee =
    let result := lodash.groupBy l iteratee in
    match Obj.get result (iteratee a) with
    | Some group => Obj.set result (iteratee a) (group ++ [a])
    | None => Obj.set result (iteratee a) [a]
    end.
Proof. unfold lodash.groupBy. by rewrite foldl_snoc. Qed.

Lemma groupBy_NoDup l : NoDup (map fst (lodash.groupBy l iteratee)).
Proof.
  induction l as [|a l IH] using rev_ind; [constructor|].
  rewrite groupBy_snoc. simpl.
  destruct (Obj.get _ _); by apply NoDup_set.
Qed.

(** The group stored under a key holds the elements with that key. *)
Lemma groupBy_get l k :
  Obj.get (lodash.groupBy l iteratee) k = nonempty (with_key k l).
Proof.
  revert k. induction l as [|a l IH] using rev_ind; intros k; [done|].
  rewrite groupBy_snoc, List.filter_app. simpl.
  pose proof (IH (iteratee a)) as IHa. specialize (IH k).
  destruct (decide (iteratee a = k)) as [<-|Hne].
  - rewrite bool_decide_eq_true_2 by done.
    destruct (Obj.get _ _) as [g|] eqn:Hg; rewrite get_set, decide_True by done.
    + destruct (with_key _ l); simplify_eq/=. done.
    + destruct (with_key _ l); simplify_eq/=. done.
  - rewrite bool_decide_eq_false_2, app_nil_r by done.
    destruct (Obj.get _ (iteratee a)); by rewrite get_set, decide_False.
Qed.

Lemma groupBy_values l g :
  g ∈ Obj.values (lodash.groupBy l iteratee) ↔
  g ≠ [] ∧ ∃ k, g = with_key k l.
Proof.
  rewrite elem_of_values by apply groupBy_NoDup. split.
  - intros [k Hk]. rewrite groupBy_get in Hk.
    destruct (with_key k l) as [|a g'] eqn:Hf; simplify_eq/=.
    split; [done|]. by exists k.
  - intros [Hne [k ->]]. exists k. rewrite groupBy_get.
    by destruct (with_key k l).
Qed.

End groupBy_facts.

(** ** Groups as a partition *)

Section obj_order.
Context {V : Type}.
Implicit Types (o : list (string * V)) (k : string) (v : V).

Lemma insert_index_perm o n k v : Obj.insert_index o n k v ≡ₚ (k, v) :: o.
Proof.
  induction o as [|[k1 v1] o IH]; simpl; [done|].
  destruct (Obj.array_index k1) as [n1|]; [destruct (decide (n1 < n)%N)|]; [|done..].
  rewrite IH. apply Permutation_swap.
Qed.

Lemma set_new_perm o k v : Obj.get o k = None → Obj.set o k v ≡ₚ (k, v) :: o.
Proof.
  intros Hk. unfold Obj.set. rewrite Hk.
  destruct (Obj.array_index k) as [n|]; [apply insert_index_perm|].
  symmetry. apply Permutation_cons_append.
Qed.

Lemma replace_split o k v v0 :
  Obj.get o k = Some v0 →
  ∃ o1 o2, o = o1 ++ (k, v0) :: o2 ∧ Obj.replace o k v = o1 ++ (k, v) :: o2.
Proof.
  induction o as [|[k1 v1] o IH]; simpl; [done|].
  destruct (decide (k1 = k)) as [->|Hne].
  - intros [= ->]. by exists [], o.
  - intros (o1 & o2 & -> & ->)%IH. by exists ((k1, v1) :: o1), o2.
Qed.

End obj_order.

Section partition_facts.
Context {A : Type} (iteratee : A → string).
Implicit Types (l : list A) (k : string).

(** The groups of [groupBy], put end to end, are a rearrangement of the
    collection. *)
Lemma groupBy_concat l :
  concat (Obj.values (lodash.groupBy l iteratee)) ≡ₚ l.
Proof.
  induction l as [|a l IH] using rev_ind; [done|].
  rewrite groupBy_snoc. cbv zeta.
  destruct (Obj.get _ _) as [g|] eqn:Hg.
  - unfold Obj.set. rewrite Hg.
    destruct (replace_split _ _ (g ++ [a]) _ Hg) as (o1 & o2 & Ho & ->).
    rewrite Ho in IH. unfold Obj.values in *.
    rewrite map_app, concat_app in *. cbn [map concat snd] in *.
    rewrite <- IH, <- !(assoc_L (++)).
    do 2 f_equiv. apply Permutation_app_comm.
  - unfold Obj.values. rewrite (set_new_perm _ _ _ Hg). cbn [map concat snd].
    fold (Obj.values (lodash.groupBy l iteratee)). rewrite IH.
    apply Permutation_cons_append.
Qed.

Lemma groupBy_entries l k g :
  (k, g) ∈ lodash.groupBy l iteratee →
  g ≠ [] ∧ g = List.filter (λ a, bool_decide (iteratee a = k)) l.
Proof.
  intros Hin%elem_of_get; [|apply groupBy_NoDup].
  rewrite groupBy_get in Hin.
  destruct (List.filter _ l) as [|a g'] eqn:Hf; simplify_eq/=. done.
Qed.

Lemma groupBy_length l :
  (length (Obj.values (lodash.groupBy l iteratee)) ≤ length l)%nat.
Proof.
  rewrite <- (Permutation_length (groupBy_concat l)).
  assert (Forall (λ g, g ≠ []) (Obj.values (lodash.groupBy l iteratee))) as Hne.
  { apply Forall_forall. intros g Hg. by apply groupBy_values in Hg as [? _]. }
  induction Hne as [|g gs Hg _ IH]; [done|].
  cbn [concat]. rewrite length_app. destruct g; [done|]. simpl. lia.
Qed.


End partition_facts.

(** ** Extrema *)

Section extremum.
Context (R : Qc → Qc → Prop) (better : Qc → Qc → bool).
Hypothesis better_true : ∀ a b, better a b = true → R a b.
Hypothesis better_false : ∀ a b, better a b = false → R b a.
Hypothesis R_refl : ∀ a, R a a.
Hypothesis R_trans : ∀ a b c, R a b → R b c → R a c.

Local Abbreviation step :=
  (λ (computed : option Qc) (current : Qc),
     match computed with
     | None => Some current
     | Some c => if better current c then Some current else Some c
     end).

Lemma extremum_from seen l c :
  c ∈ seen → (∀ w, w ∈ seen → R c w) →
  ∃ v, foldl step (Some c) l = Some v ∧ v ∈ seen ++ l ∧
       ∀ w, w ∈ seen ++ l → R v w.
Proof.
  revert seen c. induction l as [|a l IH]; intros seen c Hc Hmin; simpl.
  - exists c. rewrite app_nil_r. done.
  - destruct (better a c) eqn:Hb.
    + apply better_true in Hb.
      destruct (IH (seen ++ [a]) a) as (v & Hv & Hin & Hle).
      * apply elem_of_app. right. apply list_elem_of_singleton. done.
      * intros w [Hw| ->%list_elem_of_singleton]%elem_of_app; [|done].
        eapply R_trans; [exact Hb|]. by apply Hmin.
      * exists v. rewrite <- app_assoc in Hin, Hle. done.
    + destruct (IH (seen ++ [a]) c) as (v & Hv & Hin & Hle).
      * apply elem_of_app. by left.
      * intros w [Hw| ->%list_elem_of_singleton]%elem_of_app; [by apply Hmin|].
        by apply better_false.
      * exists v. rewrite <- app_assoc in Hin, Hle. done.
Qed.
End extremum.

Lemma minBy_cons (c : Qc) (l : list Qc) :
  ∃ v, lodash.minBy (c :: l) = Some v ∧ v ∈ c :: l ∧ ∀ w, w ∈ c :: l → (v ≤ w)%Qc.
Proof.
  unfold lodash.minBy, lodash.baseExtremum. simpl.
  apply (extremum_from Qcle (λ a b, bool_decide (a < b)%Qc)) with (seen := [c]).
  - intros a b Hlt%bool_decide_eq_true. by apply Qclt_le_weak.
  - intros a b Hlt%bool_decide_eq_false. by apply Qcnot_lt_le.
  - apply Qcle_refl.
  - intros a b d. apply Qcle_trans.
  - apply list_elem_of_singleton. done.
  - intros w ->%list_elem_of_singleton. apply Qcle_refl.
Qed.

Lemma maxBy_cons (c : Qc) (l : list Qc) :
  ∃ v, lodash.maxBy (c :: l) = Some v ∧ v ∈ c :: l ∧ ∀ w, w ∈ c :: l → (w ≤ v)%Qc.
Proof.
  unfold lodash.maxBy, lodash.baseExtremum. simpl.
  apply (extremum_from (λ a b, b ≤ a)%Qc (λ a b, bool_decide (b < a)%Qc))
    with (seen := [c]).
  - intros a b Hlt%bool_decide_eq_true. by apply Qclt_le_weak.
  - intros a b Hlt%bool_decide_eq_false. by apply Qcnot_lt_le.
  - apply Qcle_refl.
  - intros a b d Hab Hbd. by apply Qcle_trans with b.
  - apply list_elem_of_singleton. done.
  - intros w ->%list_elem_of_singleton. apply Qcle_refl.
Qed.

Lemma meanBy_cons `{JsHost} (c : Qc) (l : list Qc) :
  ∃ v, lodash.meanBy (c :: l) = Some v ∧
       (v * Qc_of_Z (Z.of_nat (length (c :: l))) = total (c :: l))%Qc.
Proof.
  eexists. split; [done|]. rewrite sumBy_total, Qcmult_comm.
  apply Qcmult_div_r. rewrite <- Z2Qc_inj_0. intros Heq%Z2Qc_inj.
  simpl in Heq. lia.
Qed.

(** ** The aggregation engine *)

Lemma mapM_Forall2 {A B} (f : A → option B) (P : A → B → Prop) (l : list A) :
  (∀ a, a ∈ l → ∃ b, f a = Some b ∧ P a b) →
  ∃ out, mapM f l = Some out ∧ Forall2 P l out.
Proof.
  induction l as [|a l IH]; intros Hl.
  - exists []. split; [done|constructor].
  - destruct (Hl a) as (b & Hb & HP); [by left|].
    destruct IH as (out & Hout & HF); [intros a' Ha'; apply Hl; by right|].
    exists (b :: out). split; [|by constructor].
    simpl. rewrite Hb. simpl. rewrite Hout. done.
Qed.


Lemma lookup_put (k : string) (v : option value) (m : gmap string value) (k' : string) :
  put k v m !! k' = if decide (k = k') then v else m !! k'.
Proof.
  unfold put. destruct v as [w|], (decide (k = k')) as [->|Hne].
  - apply lookup_insert_eq.
  - by apply lookup_insert_ne.
  - apply lookup_delete_eq.
  - by apply lookup_delete_ne.
Qed.

Lemma lookup_put_fold (src init : gmap string value) (dims : list string) (d : string) :
  foldl (λ coords dim, put dim (src !! dim) coords) init dims !! d =
    if decide (d ∈ dims) then src !! d else init !! d.
Proof.
  revert init. induction dims as [|a dims IH]; intros init; cbn [foldl].
  - rewrite decide_False by apply not_elem_of_nil. done.
  - rewrite IH. destruct (decide (d ∈ dims)) as [Hin|Hnin].
    + rewrite decide_True by (by right). done.
    + rewrite lookup_put. destruct (decide (a = d)) as [->|Hne].
      * rewrite decide_True by (by left). done.
      * rewrite decide_False; [done|].
        intros [?|?]%elem_of_cons; congruence.
Qed.

Section aggregate_facts.
Context `{JsHost}.
Implicit Types (dims : list string) (m : string) (c : CubeCell).

Lemma coords_fold c0 rest dims init :
  foldl (λ acc dim,
           coords ← acc;
           first ← head (c0 :: rest);
           Some (put dim (coordinates first !! dim) coords))
    (Some init) dims
  = Some (foldl (λ coords dim, put dim (coordinates c0 !! dim) coords) init dims).
Proof. revert init. induction dims as [|a dims IH]; intros init; simpl; [done|]. apply IH. Qed.

Lemma values_cell_value m (group : list CubeCell) :
  map (λ cell, or_zero (measures cell !! m)) group = map (cell_value m) group.
Proof. apply map_ext. intros c. apply or_zero_default. Qed.

(** A group that is not empty is reduced to one cell: its coordinates
    are those of the first cell at the grouping dimensions, and its only
    measure is the aggregate of the group. *)
Lemma aggregate_group_cons dims m kind c0 rest :
  ∃ o v,
    aggregate_group dims m kind (c0 :: rest) = Some o ∧
    (∀ d, coordinates o !! d =
            if decide (d ∈ dims) then coordinates c0 !! d else None) ∧
    measures o = {[ m := v ]} ∧
    color o = None ∧
    aggregate_of kind (map (cell_value m) (c0 :: rest)) v.
Proof.
  unfold aggregate_group. rewrite coords_fold, values_cell_value.
  cbn [mbind option_bind].
  assert (Hcoords : ∀ d,
    foldl (λ coords dim, put dim (coordinates c0 !! dim) coords) ∅ dims !! d =
      if decide (d ∈ dims) then coordinates c0 !! d else None).
  { intros d. rewrite lookup_put_fold. by rewrite lookup_empty. }
  destruct kind.
  - eexists _, _. split_and!; [done|done|done|done|]. apply sumBy_total.
  - destruct (meanBy_cons (cell_value m c0) (map (cell_value m) rest))
      as (v & Hv & Hmean).
    change (cell_value m c0 :: map (cell_value m) rest)
      with (map (cell_value m) (c0 :: rest)) in Hv, Hmean.
    rewrite Hv. eexists _, v. split_and!; done.
  - eexists _, _. split_and!; done.
  - destruct (minBy_cons (cell_value m c0) (map (cell_value m) rest))
      as (v & Hv & Hin & Hle).
    change (cell_value m c0 :: map (cell_value m) rest)
      with (map (cell_value m) (c0 :: rest)) in Hv, Hin, Hle.
    rewrite Hv, or_zero_default. eexists _, v. split_and!; done.
  - destruct (maxBy_cons (cell_value m c0) (map (cell_value m) rest))
      as (v & Hv & Hin & Hle).
    change (cell_value m c0 :: map (cell_value m) rest)
      with (map (cell_value m) (c0 :: rest)) in Hv, Hin, Hle.
    rewrite Hv, or_zero_default. eexists _, v. split_and!; done.
Qed.

(** [aggregateData] returns, with one cell for each group. *)
Lemma aggregateData_groups data dims m kind :
  ∃ out,
    aggregateData data dims m kind = Some out ∧
    Forall2 (λ g o,
               ∃ c0 rest v,
                 g = c0 :: rest ∧
                 (∀ d, coordinates o !! d =
                         if decide (d ∈ dims) then coordinates c0 !! d else None) ∧
                 measures o = {[ m := v ]} ∧
                 color o = None ∧
                 aggregate_of kind (map (cell_value m) g) v)
      (groups_of dims data) out.
Proof.
  unfold aggregateData. apply mapM_Forall2. intros g Hg.
  apply groupBy_values in Hg as [Hne _].
  destruct g as [|c0 rest]; [done|].
  destruct (aggregate_group_cons dims m kind c0 rest) as (o & v & Ho & Hrest).
  exists o. split; [done|]. by exists c0, rest, v.
Qed.

Lemma elem_of_group_of dims data k c :
  c ∈ group_of dims data k ↔ c ∈ data ∧ group_key dims c = k.
Proof.
  unfold group_of. rewrite !list_elem_of_In, filter_In, bool_decide_eq_true. done.
Qed.

Lemma elem_of_groups_of dims data g :
  g ∈ groups_of dims data ↔ g ≠ [] ∧ ∃ k, g = group_of dims data k.
Proof. apply groupBy_values. Qed.

Lemma same_group_key dims data c1 c2 :
  c1 ∈ data → c2 ∈ data →
  same_group dims data c1 c2 ↔ group_key dims c1 = group_key dims c2.
Proof.
  intros Hc1 Hc2. split.
  - intros (g & [_ [k ->]]%elem_of_groups_of & [_ <-]%elem_of_group_of
              & [_ ?]%elem_of_group_of). done.
  - intros Hkey. exists (group_of dims data (group_key dims c1)).
    assert (c1 ∈ group_of dims data (group_key dims c1)) as Hin
      by by apply elem_of_group_of.
    split_and!; [|done|by apply elem_of_group_of].
    apply elem_of_groups_of. split; [|by eexists].
    intros Hnil. rewrite Hnil in Hin. by apply elem_of_nil in Hin.
Qed.

Lemma group_key_ext dims c1 c2 :
  (∀ d, d ∈ dims → coordinates c1 !! d = coordinates c2 !! d) →
  group_key dims c1 = group_key dims c2.
Proof.
  intros Heq. unfold group_key. f_equal. apply map_ext_in.
  intros d Hd%list_elem_of_In. by rewrite Heq.
Qed.


End aggregate_facts.

(** ** Sums that do not round *)

Section safe_sums.
Context `{JsHost}.

Local Abbreviation Zsum zs := (foldr Z.add 0%Z zs).














End safe_sums.


(** ** Properties of the aggregation engine *)


(** C3, as amended.  Two cells of the input are placed in the same group
    exactly when their group keys are equal, the key being the string
    forms of the coordinates at the grouping dimensions joined by a bar;
    cells with equal coordinates at every grouping dimension have equal
    keys; and the coordinates of each output cell are those of the first
    cell of its group at the grouping dimensions, and nothing else. *)
Theorem grouping_by_key_C3 `{JsHost} (data : list CubeCell) (dims : list string)
    (m : string) (kind : AggregationType) (c1 c2 : CubeCell) :
  c1 ∈ data → c2 ∈ data →
  (same_group dims data c1 c2 ↔ group_key dims c1 = group_key dims c2) ∧
  ((∀ d, d ∈ dims → coordinates c1 !! d = coordinates c2 !! d) →
   same_group dims data c1 c2) ∧
  ∃ out,
    aggregateData data dims m kind = Some out ∧
    Forall2 (λ g o,
               ∃ c0 rest,
                 g = c0 :: rest ∧
                 ∀ d, coordinates o !! d =
                        if decide (d ∈ dims) then coordinates c0 !! d else None)
      (groups_of dims data) out.
Proof.
  intros Hc1 Hc2. split_and!.
  - by apply same_group_key.
  - intros Heq. apply same_group_key; [done..|]. by apply group_key_ext.
  - destruct (aggregateData_groups data dims m kind) as (out & Hout & HF).
    exists out. split; [done|].
    eapply Forall2_impl; [exact HF|].
    intros g o (c0 & rest & v & -> & Hc & _). by exists c0, rest.
Qed.

Lemma grouping_by_key_C3_witness :
  bar_cell_1 ∈ bar_cells ∧ bar_cell_2 ∈ bar_cells ∧
  (same_group (H := UtcHost.host) ["a"; "b"] bar_cells bar_cell_1 bar_cell_2 ↔
   group_key (H := UtcHost.host) ["a"; "b"] bar_cell_1 =
   group_key (H := UtcHost.host) ["a"; "b"] bar_cell_2).
Proof.
  assert (bar_cell_1 ∈ bar_cells) as H1 by (vm_compute; left).
  assert (bar_cell_2 ∈ bar_cells) as H2 by (vm_compute; right; left).
  split_and!; [done|done|].
  apply (grouping_by_key_C3 (H := UtcHost.host) bar_cells ["a"; "b"] "n" sum
           bar_cell_1 bar_cell_2 H1 H2).
Defined.

(** C3, as stated, fails: the two cells of [bar_cells] differ at dimension
    [a], yet grouping by [a] and [b] puts them in one group, since both
    keys read [x|y|z]. *)
Lemma strict_equality_grouping_C3_counterexample :
  ¬ (same_group (H := UtcHost.host) ["a"; "b"] bar_cells bar_cell_1 bar_cell_2 ↔
     ∀ d, d ∈ ["a"; "b"] →
          strict_eq (coordinates bar_cell_1 !! d) (coordinates bar_cell_2 !! d) = true).
Proof.
  intros [Hsame _].
  assert (same_group (H := UtcHost.host) ["a"; "b"] bar_cells bar_cell_1 bar_cell_2)
    as Hgroup.
  { exists bar_cells. split_and!.
    - change (bar_cells ∈ [bar_cells]). by left.
    - by left.
    - right. by left. }
  specialize (Hsame Hgroup "a"). discriminate Hsame. by left.
Qed.

(** ** Drill-up and pivot *)

Section rollup_facts.
Context `{JsHost}.

Lemma total_of_total m cells : total_of m cells = total (map (cell_value m) cells).
Proof. unfold total_of. by rewrite values_cell_value, sumBy_total. Qed.




End rollup_facts.




(** ** Slice, dice and the guards of the operators *)

Lemma elem_of_Set_add {A} `{EqDecision A} (s : list A) (a b : A) :
  b ∈ Set_add s a ↔ b ∈ s ∨ b = a.
Proof.
  unfold Set_add. destruct (decide (a ∈ s)) as [Hin|Hnin].
  - split; [by left|]. intros [?| ->]; done.
  - rewrite elem_of_app, list_elem_of_singleton. done.
Qed.

Lemma elem_of_foldl_Set_add {A} `{EqDecision A} (s l : list A) (b : A) :
  b ∈ foldl Set_add s l ↔ b ∈ s ∨ b ∈ l.
Proof.
  revert s. induction l as [|a l IH]; intros s; simpl.
  - split; [by left|]. intros [?|?%elem_of_nil]; done.
  - rewrite IH, elem_of_Set_add, elem_of_cons. tauto.
Qed.

Lemma elem_of_new_Set {A} `{EqDecision A} (l : list A) (b : A) :
  b ∈ new_Set l ↔ b ∈ l.
Proof.
  unfold new_Set. rewrite elem_of_foldl_Set_add.
  split; [|by right]. intros [?%elem_of_nil|?]; done.
Qed.

Lemma elem_of_filter_bool {A} (f : A → bool) (l : list A) (a : A) :
  a ∈ List.filter f l ↔ a ∈ l ∧ f a = true.
Proof. by rewrite !list_elem_of_In, filter_In. Qed.

Lemma strict_eq_true (a b : option value) :
  strict_eq a b = true ↔ a = b ∧ a ≠ Some NaN.
Proof.
  unfold strict_eq. destruct a as [[s|q|]|]; rewrite ?bool_decide_eq_true;
    split; try done; try (by intros [-> _]); try (by intros [_ ?]);
    by intros ->.
Qed.

(** C5.  [sliceCube] keeps, in order, exactly the cells whose coordinate at
    the dimension is the value, without coercion between numbers and
    strings, and none when the value is [NaN], which equals nothing;
    [totalRecords] is the number of cells kept; the dimensions, the
    measures and [lastUpdated] are those of the input. *)
Theorem sliceCube_frame_C5 (cube : OLAPCube.t) (d : string) (v : value) :
  let sliced := sliceCube cube d v in
  OLAPCube.data sliced
    = filter (λ c, coordinates c !! d = Some v ∧ v ≠ NaN) (OLAPCube.data cube) ∧
  (∀ s q, v = Str s → ∀ c, coordinates c !! d = Some (Num q) → c ∉ OLAPCube.data sliced) ∧
  (∀ s q, v = Num q → ∀ c, coordinates c !! d = Some (Str s) → c ∉ OLAPCube.data sliced) ∧
  totalRecords (OLAPCube.metadata sliced) = length (OLAPCube.data sliced) ∧
  OLAPCube.dimensions sliced = OLAPCube.dimensions cube ∧
  OLAPCube.measures sliced = OLAPCube.measures cube ∧
  lastUpdated (OLAPCube.metadata sliced) = lastUpdated (OLAPCube.metadata cube).
Proof.
  assert (OLAPCube.data (sliceCube cube d v)
          = filter (λ c, coordinates c !! d = Some v ∧ v ≠ NaN) (OLAPCube.data cube))
    as Hdata.
  { simpl. induction (OLAPCube.data cube) as [|c l IH]; [done|].
    rewrite filter_cons. simpl.
    destruct (strict_eq (coordinates c !! d) (Some v)) eqn:Heq.
    - apply strict_eq_true in Heq as [Heq Hnan].
      rewrite decide_True; [by rewrite IH|]. split; [done|]. congruence.
    - rewrite decide_False; [done|]. intros [Hc Hv].
      assert (strict_eq (coordinates c !! d) (Some v) = true) as Htrue; [|congruence].
      apply strict_eq_true. split; [done|]. congruence. }
  simpl. split_and!; [exact Hdata| | |done..].
  - intros s q -> c Hc. simpl in Hdata. rewrite Hdata, list_elem_of_filter.
    intros [[Heq _] _]. congruence.
  - intros s q -> c Hc. simpl in Hdata. rewrite Hdata, list_elem_of_filter.
    intros [[Heq _] _]. congruence.
Qed.

(** C9.  When neither value is [NaN], the cells of a dice on one dimension
    with two values are those of the slice on the first value together with
    those of the slice on the second. *)
Theorem dice_is_union_of_slices_C9 (cube : OLAPCube.t) (d : string) (v1 v2 : value)
    (c : CubeCell) :
  v1 ≠ NaN → v2 ≠ NaN →
  c ∈ OLAPCube.data (diceCube cube [(d, [v1; v2])]) ↔
  c ∈ OLAPCube.data (sliceCube cube d v1) ∨ c ∈ OLAPCube.data (sliceCube cube d v2).
Proof.
  intros Hv1 Hv2. simpl. rewrite !elem_of_filter_bool, !strict_eq_true.
  unfold Array_includes. rewrite andb_true_r.
  destruct (coordinates c !! d) as [w|].
  - rewrite bool_decide_eq_true, !elem_of_cons, elem_of_nil.
    split.
    + intros [Hc [->|[->|[]]]]; [left|right]; (split_and!; [done|done|congruence]).
    + intros [(Hc & [= ->] & _)|(Hc & [= ->] & _)]; split; auto.
  - split; [by intros [_ ?]|]. by intros [(_ & ? & _)|(_ & ? & _)].
Qed.

Lemma dice_is_union_of_slices_C9_witness :
  Str "East" ≠ NaN ∧ Str "West" ≠ NaN ∧
  (west_cell ∈ OLAPCube.data (diceCube nan_cube [("Region", [Str "East"; Str "West"])]) ↔
   west_cell ∈ OLAPCube.data (sliceCube nan_cube "Region" (Str "East")) ∨
   west_cell ∈ OLAPCube.data (sliceCube nan_cube "Region" (Str "West"))).
Proof.
  split_and!; [discriminate|discriminate|].
  apply (dice_is_union_of_slices_C9 nan_cube "Region" (Str "East") (Str "West") west_cell);
    discriminate.
Defined.

(** C9, as stated, fails when a value is [NaN]: [includes] finds the
    [NaN] of a coordinate and [===] does not.  On the cube of
    [nan_records], the dice on Region with [NaN] and West keeps the cell
    whose Region is [NaN], which neither slice keeps. *)
Lemma dice_keeps_NaN_C9_counterexample :
  ¬ (∀ c, c ∈ OLAPCube.data (diceCube nan_cube [("Region", [NaN; Str "West"])]) ↔
          c ∈ OLAPCube.data (sliceCube nan_cube "Region" NaN) ∨
          c ∈ OLAPCube.data (sliceCube nan_cube "Region" (Str "West"))).
Proof.
  intros Hall.
  set (c := cell [("Region", NaN)] [("Sales", 1%Z)]).
  assert (OLAPCube.data nan_cube = [c; cell [("Region", Str "West")] [("Sales", 2%Z)]])
    as Hcells by (vm_compute; reflexivity).
  destruct (Hall c) as [Hdice _].
  unfold diceCube, sliceCube, with_data in Hdice. cbn [OLAPCube.data] in Hdice.
  rewrite !elem_of_filter_bool in Hdice.
  destruct Hdice as [[_ Hin]|[_ Hin]].
  - split; [rewrite Hcells; by left|]. vm_compute. reflexivity.
  - vm_compute in Hin. discriminate Hin.
  - vm_compute in Hin. discriminate Hin.
Qed.

(** The guards of [drillDown]: what it returns and when it raises. *)
Lemma fold_children `{JsHost} (cm : gmap string (list (option value)))
    (values : list (option value)) (acc : option (list (option value))) :
  foldl (λ acc value,
           next ← acc;
           children ← children_of cm (ToString value);
           Some (foldl Set_add next children))
    acc values = None ↔
  acc = None ∨ ∃ value, value ∈ values ∧ children_of cm (ToString value) = None.
Proof.
  revert acc. induction values as [|v values IH]; intros acc; cbn [foldl].
  - split; [by left|]. intros [?|(? & ?%elem_of_nil & _)]; done.
  - rewrite IH. split.
    + intros [Hnone|(value & Hin & Hvalue)].
      * destruct acc as [next|]; [|by left]. right. exists v. split; [by left|].
        cbn [mbind option_bind] in Hnone.
        by destruct (children_of cm (ToString v)).
      * right. exists value. split; [by right|done].
    + intros [->|(value & Hin & Hvalue)]; [by left|].
      apply elem_of_cons in Hin as [->|Hin].
      * left. rewrite Hvalue. by destruct acc.
      * right. by exists value.
Qed.

Lemma fold_no_children `{JsHost} (cm : gmap string (list (option value)))
    (values : list (option value)) (next : list (option value)) :
  Forall (λ value, children_of cm (ToString value) = Some []) values →
  foldl (λ acc value,
           next ← acc;
           children ← children_of cm (ToString value);
           Some (foldl Set_add next children))
    (Some next) values = Some next.
Proof.
  induction 1 as [|value values Hvalue _ IH]; [done|].
  cbn [foldl mbind option_bind]. rewrite Hvalue. exact IH.
Qed.

(** C6 fails for [drillDown].  On the cube built from the one record with
    product toString, category X and sales 1, the children of toString
    are looked up in a [childMap] whose only own key is X: the lookup finds
    the method that every object inherits, and [children.forEach] on it is
    a [TypeError], where the claim has the operator return its input.
    [drillDown] raises exactly when, past its guards, the string form of a
    value present is such an inherited name and not a key of [childMap].
    The rest of the claim holds: [drillUp] and [pivotCube] always return;
    [drillDown] returns its input when the dimension is unknown or has no
    hierarchy, and when no value present has a child or reads an inherited
    name; [pivotCube] returns its input when no axis is set and when no
    measure can be resolved. *)
Theorem drillDown_raises_C6 `{JsHost} (now : Z) (cube : OLAPCube.t) :
  (∀ targetLevel,
     drillDown (createOLAPCube now toString_records) "Product" targetLevel = None) ∧
  (∀ dimension targetLevel,
     drillDown cube dimension targetLevel = None ↔
     OLAPCube.data cube ≠ [] ∧
     ∃ dim h c,
       find_dimension cube dimension = Some dim ∧ Dimension.hierarchy dim = Some h ∧
       is_Some (first_measure_name cube) ∧ c ∈ OLAPCube.data cube ∧
       children_of (childMap h) (ToString (coordinates c !! dimension)) = None) ∧
  (∀ dimension sourceLevel, is_Some (drillUp now cube dimension sourceLevel)) ∧
  (∀ a, is_Some (pivotCube now cube a)) ∧
  (∀ dimension targetLevel,
     find_dimension cube dimension = None ∨
     (∃ dim, find_dimension cube dimension = Some dim ∧ Dimension.hierarchy dim = None) →
     drillDown cube dimension targetLevel = Some cube) ∧
  (∀ dimension targetLevel dim h,
     find_dimension cube dimension = Some dim → Dimension.hierarchy dim = Some h →
     (∀ c, c ∈ OLAPCube.data cube →
           children_of (childMap h) (ToString (coordinates c !! dimension)) = Some []) →
     drillDown cube dimension targetLevel = Some cube) ∧
  (∀ a, x a = None → y a = None → z a = None → pivotCube now cube a = Some cube) ∧
  (∀ a, pivot_measure cube a = None → pivotCube now cube a = Some cube).
Proof.
  split_and!.
  - intros targetLevel. vm_compute. reflexivity.
  - intros dimension targetLevel. unfold drillDown.
    destruct (decide (length (OLAPCube.data cube) = 0)) as [Hlen|Hlen].
    { split; [done|]. intros [Hne _]. by destruct (OLAPCube.data cube). }
    assert (OLAPCube.data cube ≠ []) as Hdata by (intros Hnil; by rewrite Hnil in Hlen).
    destruct (find_dimension cube dimension) as [dim|] eqn:Hdim;
      [|split; [done|]; by intros (_ & ? & ? & ? & ? & _)].
    destruct (Dimension.hierarchy dim) as [h|] eqn:Hh;
      [|split; [done|]; intros (_ & ? & ? & ? & [= <-] & ? & _); congruence].
    destruct (first_measure_name cube) as [m|] eqn:Hm;
      [|split; [done|]; by intros (_ & ? & ? & ? & _ & _ & [? ?] & _)].
    match goal with
    | |- context [foldl ?f (Some []) ?vs] =>
        destruct (foldl f (Some []) vs) as [next|] eqn:Hfold
    end.
    + cbn [mbind option_bind]. split; [by destruct (decide _)|].
      intros (_ & dim' & h' & c & [= <-] & Hh' & _ & Hc & Hraise).
      rewrite Hh in Hh'. injection Hh' as <-.
      assert (Some next = None) as Habs; [|done].
      rewrite <- Hfold. apply fold_children. right.
      exists (coordinates c !! dimension). split; [|done].
      apply elem_of_new_Set, list_elem_of_fmap. by exists c.
    + cbn [mbind option_bind]. split; [intros _|done]. split; [done|].
      apply fold_children in Hfold as [?|(value & Hin & Hraise)]; [done|].
      apply (proj1 (elem_of_new_Set _ _)) in Hin.
      apply list_elem_of_fmap in Hin as (c & -> & Hc).
      exists dim, h, c. split_and!; [done|done|by eexists|done|done].
  - intros dimension sourceLevel. unfold drillUp.
    destruct (decide _); [by eexists|].
    destruct (first_measure_name cube) as [m|]; [|by eexists].
    match goal with
    | |- context [aggregateData ?cells ?dims m sum] =>
        destruct (aggregateData_groups cells dims m sum) as (out & -> & _)
    end.
    by eexists.
  - intros a. unfold pivotCube.
    destruct (decide _); [by eexists|].
    destruct (pivot_measure cube a) as [m|]; [|by eexists].
    match goal with
    | |- context [aggregateData ?cells ?dims m sum] =>
        destruct (aggregateData_groups cells dims m sum) as (out & -> & _)
    end.
    by eexists.
  - intros dimension targetLevel Hdim. unfold drillDown.
    destruct (decide _); [done|].
    destruct Hdim as [->|(dim & -> & ->)]; done.
  - intros dimension targetLevel dim h Hdim Hh Hchildren. unfold drillDown.
    destruct (decide _); [done|]. rewrite Hdim, Hh.
    destruct (first_measure_name cube); [|done].
    rewrite fold_no_children; [done|].
    apply Forall_forall. intros value Hvalue.
    apply (proj1 (elem_of_new_Set _ _)) in Hvalue.
    apply list_elem_of_fmap in Hvalue as (c & -> & Hc). by apply Hchildren.
  - intros a Hx Hy Hz. unfold pivotCube. rewrite Hx, Hy, Hz. done.
  - intros a Hm. unfold pivotCube. rewrite Hm. by destruct (decide _).
Qed.

(** ** Schema inference *)

Section schema_facts.
Context `{JsHost}.

Lemma detectDimensions_elem data d :
  d ∈ detectDimensions data →
  ∃ key, d = dimension_of data key ∧ skipped_as_measure data key = false.
Proof.
  unfold detectDimensions. destruct data as [|sampleRecord data']; [by intros ?%elem_of_nil|].
  set (data := sampleRecord :: data').
  assert (∀ keys acc,
    d ∈ foldl (λ dimensions key,
                 if skipped_as_measure data key then dimensions
                 else dimensions ++ [dimension_of data key]) acc keys →
    d ∈ acc ∨ ∃ key, d = dimension_of data key ∧ skipped_as_measure data key = false)
    as Hfold.
  { induction keys as [|key keys IH]; intros acc; simpl; [by left|].
    intros [Hin|Hkey]%IH; [|by right].
    destruct (skipped_as_measure data key) eqn:Hskip; [by left|].
    apply elem_of_app in Hin as [?| ->%list_elem_of_singleton]; [by left|].
    right. by exists key. }
  intros [?%elem_of_nil|?]%Hfold; done.
Qed.

Lemma detectMeasures_elem data dimensions m :
  m ∈ detectMeasures data dimensions →
  ∃ key, m = {| Measure.name := key; Measure.type := sum;
               Measure.value :=
                 lodash.sumBy (omap (λ row, ToNumber (row_get row key)) data) |}.
Proof.
  unfold detectMeasures.
  generalize (Object_keys (default [] (head data))). intros keys.
  assert (∀ acc,
    m ∈ foldl (λ measures key,
                 let isNumericColumn :=
                   forallb (λ row, is_numeric (row_get row key)) data in
                 if negb (bool_decide (key ∈ map Dimension.name dimensions))
                    && (isExplicitMeasure key || isNumericColumn)
                 then
                   let values := omap (λ row, ToNumber (row_get row key)) data in
                   if bool_decide (0 < length values) then
                     measures ++ [{| Measure.name := key; Measure.type := sum;
                                     Measure.value := lodash.sumBy values |}]
                   else measures
                 else measures) acc keys →
    m ∈ acc ∨
    ∃ key, m = {| Measure.name := key; Measure.type := sum;
                 Measure.value :=
                   lodash.sumBy (omap (λ row, ToNumber (row_get row key)) data) |})
    as Hfold.
  { induction keys as [|key keys IH]; intros acc; simpl; [by left|].
    intros [Hin|Hkey]%IH; [|by right].
    destruct (_ && _); [|by left]. destruct (bool_decide _); [|by left].
    apply elem_of_app in Hin as [?| ->%list_elem_of_singleton]; [by left|].
    right. by exists key. }
  intros [?%elem_of_nil|?]%Hfold; done.
Qed.

Lemma lookup_cell_measures (row : DataPoint) (ms : list Measure.t)
    (init : gmap string Qc) (k : string) :
  foldl (λ acc m,
           <[Measure.name m := or_zero (ToNumber (row_get row (Measure.name m)))]> acc)
    init ms !! k
  = if decide (k ∈ map Measure.name ms)
    then Some (or_zero (ToNumber (row_get row k))) else init !! k.
Proof.
  revert init. induction ms as [|m ms IH]; intros init; cbn [foldl map].
  - rewrite decide_False by apply not_elem_of_nil. done.
  - rewrite IH. destruct (decide (k ∈ map Measure.name ms)) as [Hin|Hnin].
    + rewrite decide_True by (by right). done.
    + destruct (decide (Measure.name m = k)) as [<-|Hne].
      * rewrite decide_True by (by left). apply lookup_insert_eq.
      * rewrite lookup_insert_ne by done. rewrite decide_False; [done|].
        intros [?|?]%elem_of_cons; congruence.
Qed.

(** Adding the 0 of a value that does not convert changes nothing. *)
Lemma total_coerced (key : string) (data : list DataPoint) :
  total (map (λ row, or_zero (ToNumber (row_get row key))) data)
  = total (omap (λ row, ToNumber (row_get row key)) data).
Proof.
  unfold total. generalize 0%Qc as acc.
  induction data as [|row data IH]; intros acc; [done|].
  simpl. rewrite or_zero_default.
  destruct (ToNumber (row_get row key)) as [q|]; simpl; [apply IH|].
  rewrite Number_add_0_r. apply IH.
Qed.

End schema_facts.

(** C8.  A column kept as a dimension is [numerical] exactly when strictly
    more than 80% of its values are numeric; otherwise [temporal] exactly
    when its lowercased name contains "date" or "time"; otherwise
    [categorical].  A column that is numeric for exactly 80% of its values
    is not [numerical]. *)
Theorem dimension_kind_C8 `{JsHost} (data : list DataPoint) (d : Dimension.t) :
  d ∈ detectDimensions data →
  let column := map (λ row, row_get row (Dimension.name d)) data in
  let numeric := length (List.filter is_numeric column) in
  let lowered := Str.toLowerCase (Dimension.name d) in
  let named_temporal := Str.includes lowered "date" || Str.includes lowered "time" in
  Dimension.values d = column ∧
  (Dimension.type d = numerical ↔ 80 * length column < 100 * numeric) ∧
  (Dimension.type d = temporal ↔
     ¬ 80 * length column < 100 * numeric ∧ named_temporal = true) ∧
  (Dimension.type d = categorical ↔
     ¬ 80 * length column < 100 * numeric ∧ named_temporal = false) ∧
  (100 * numeric = 80 * length column → Dimension.type d ≠ numerical).
Proof.
  intros (key & -> & _)%detectDimensions_elem. simpl.
  unfold mostly_numeric.
  set (column := map (λ row, row_get row key) data).
  set (numeric := length (List.filter is_numeric column)).
  destruct (decide (4 * length column < 5 * numeric)) as [Hmost|Hmost].
  - rewrite bool_decide_eq_true_2 by done.
    split_and!; [done|split; [lia|done]|split; [done|lia]|split; [done|lia]|lia].
  - rewrite bool_decide_eq_false_2 by done.
    destruct (Str.includes _ "date" || Str.includes _ "time").
    + split_and!; [done|split; [done|lia]|split; [intros _; split; [lia|done]|done]
                   |split; [done|intros [_ ?]; done]|done].
    + split_and!; [done|split; [done|lia]|split; [done|intros [_ ?]; done]
                   |split; [intros _; split; [lia|done]|done]|done].
Qed.

Lemma dimension_kind_C8_witness :
  let d := dimension_of (H := UtcHost.host) tie_records "Code" in
  d ∈ detectDimensions (H := UtcHost.host) tie_records ∧
  (100 * 4 = 80 * 5 → Dimension.type d ≠ numerical).
Proof.
  assert (dimension_of (H := UtcHost.host) tie_records "Code"
          ∈ detectDimensions (H := UtcHost.host) tie_records) as Hin
    by (vm_compute; left).
  split; [exact Hin|].
  apply (dimension_kind_C8 (H := UtcHost.host) tie_records _ Hin).
Defined.

(** C10.  Every measure of the cube built by [createOLAPCube] is present on
    every cell, and its cached total is the sum of its values over the
    cells of the cube. *)
Theorem measure_total_C10 `{JsHost} (now : Z) (data : list DataPoint) (m : Measure.t) :
  m ∈ OLAPCube.measures (createOLAPCube now data) →
  Forall (λ c, is_Some (measures c !! Measure.name m))
    (OLAPCube.data (createOLAPCube now data)) ∧
  Measure.value m
  = total (map (λ c, default 0%Qc (measures c !! Measure.name m))
             (OLAPCube.data (createOLAPCube now data))).
Proof.
  simpl. intros Hm.
  pose proof (detectMeasures_elem _ _ _ Hm) as (key & Heq).
  assert (Measure.name m = key) as Hname by by rewrite Heq.
  assert (Measure.value m
          = lodash.sumBy (omap (λ row, ToNumber (row_get row key)) data)) as Hvalue
    by by rewrite Heq.
  rewrite Hname, Hvalue. clear Heq Hvalue.
  assert (key ∈ map Measure.name (detectMeasures data (detectDimensions data)))
    as Hkey.
  { rewrite <- Hname. apply list_elem_of_fmap. by exists m. }
  split.
  - apply Forall_forall. intros c (row & -> & _)%list_elem_of_fmap. simpl.
    rewrite lookup_cell_measures, decide_True by done. by eexists.
  - rewrite sumBy_total, <- total_coerced, map_map. f_equal.
    apply map_ext. intros row. simpl.
    rewrite lookup_cell_measures, decide_True by done. done.
Qed.

Lemma measure_total_C10_witness :
  let cube := createOLAPCube (H := UtcHost.host) 0 sales_records in
  ∃ m, m ∈ OLAPCube.measures cube ∧ Measure.name m = "Sales" ∧
       Measure.value m
       = total (map (λ c, default 0%Qc (measures c !! "Sales")) (OLAPCube.data cube)).
Proof.
  eexists {| Measure.name := "Sales"; Measure.type := sum; Measure.value := _ |}.
  assert ({| Measure.name := "Sales"; Measure.type := sum;
             Measure.value := Q2Qc (inject_Z 180) |}
          ∈ OLAPCube.measures (createOLAPCube (H := UtcHost.host) 0 sales_records))
    as Hin by (vm_compute; left).
  split_and!; [exact Hin|done|].
  apply (measure_total_C10 (H := UtcHost.host) 0 sales_records _ Hin).
Defined.

(** ** The worked example and the date hierarchy *)

Lemma Q2Qc_inject_Z (n : Z) : Q2Qc (inject_Z n) = Qc_of_Z n.
Proof. apply Qc_is_canon. simpl. apply Qred_correct. Qed.

(** C1.  On the three sales records, given that the host reads none of
    "East", "West", "A" and "B" as a number: the cube has the two
    dimensions [Region] and [Product], both categorical, with unique values
    East, West and A, B, and the one measure [Sales], a sum of value 180;
    slicing on Region = East leaves 2 cells and [totalRecords] 2; and
    aggregating the cells by [Region] on [Sales] with [sum] yields the two
    cells East, 150 and West, 30. *)
Theorem sales_scenario_C1 `{JsHost} (now : Z) :
  StringToNumber "East" = None → StringToNumber "West" = None →
  StringToNumber "A" = None → StringToNumber "B" = None →
  let cube := createOLAPCube now sales_records in
  map (λ d, (Dimension.name d, Dimension.type d, Dimension.uniqueValues d))
    (OLAPCube.dimensions cube)
  = [ ("Region", categorical, [Some (Str "East"); Some (Str "West")]);
      ("Product", categorical, [Some (Str "A"); Some (Str "B")]) ] ∧
  OLAPCube.measures cube
  = [ {| Measure.name := "Sales"; Measure.type := sum;
         Measure.value := Q2Qc (inject_Z 180) |} ] ∧
  length (OLAPCube.data (sliceCube cube "Region" (Str "East"))) = 2 ∧
  totalRecords (OLAPCube.metadata (sliceCube cube "Region" (Str "East"))) = 2 ∧
  aggregateData (OLAPCube.data cube) ["Region"] "Sales" sum
  = Some [ cell [("Region", Str "East")] [("Sales", 150%Z)];
           cell [("Region", Str "West")] [("Sales", 30%Z)] ].
Proof.
  intros HEast HWest HA HB cube.
  assert (∀ column,
            Forall (λ v, ∃ s, v = Some (Str s) ∧ StringToNumber s = None) column →
            List.filter is_numeric column = []) as Hnone.
  { induction 1 as [|v column (s & -> & Hs) _ IH]; [done|].
    simpl. unfold is_numeric at 1. simpl. rewrite Hs.
    rewrite bool_decide_eq_false_2 by (by intros [? ?]). done. }
  assert (OLAPCube.dimensions cube
          = [dimension_of sales_records "Region"; dimension_of sales_records "Product"])
    as Hdims by reflexivity.
  assert (Dimension.type (dimension_of sales_records "Region") = categorical) as HRegion.
  { unfold dimension_of. cbv zeta. cbn [Dimension.type].
    rewrite Hnone; [reflexivity|]. repeat constructor; eauto. }
  assert (Dimension.type (dimension_of sales_records "Product") = categorical) as HProduct.
  { unfold dimension_of. cbv zeta. cbn [Dimension.type].
    rewrite Hnone; [reflexivity|]. repeat constructor; eauto. }
  assert (OLAPCube.data cube
          = [ cell [("Region", Str "East"); ("Product", Str "A")] [("Sales", 100%Z)];
              cell [("Region", Str "East"); ("Product", Str "B")] [("Sales", 50%Z)];
              cell [("Region", Str "West"); ("Product", Str "A")] [("Sales", 30%Z)] ])
    as Hdata by reflexivity.
  assert (∀ a b : Z,
            (Z.abs a ≤ 2 ^ 53)%Z → (Z.abs b ≤ 2 ^ 53)%Z → (Z.abs (a + b) ≤ 2 ^ 53)%Z →
            Number_add (Q2Qc (inject_Z a)) (Q2Qc (inject_Z b)) = Q2Qc (inject_Z (a + b)))
    as Hadd.
  { intros a b Ha Hb Hab. rewrite !Q2Qc_inject_Z. by apply Number_add_integers. }
  split_and!.
  - rewrite Hdims. cbn [map]. rewrite HRegion, HProduct. reflexivity.
  - assert (OLAPCube.measures cube
            = [ {| Measure.name := "Sales"; Measure.type := sum;
                   Measure.value :=
                     Number_add (Number_add (Q2Qc (inject_Z 100)) (Q2Qc (inject_Z 50)))
                       (Q2Qc (inject_Z 30)) |} ]) as -> by reflexivity.
    rewrite !Hadd by (by vm_compute). reflexivity.
  - cbn [sliceCube with_data OLAPCube.data]. rewrite Hdata. reflexivity.
  - cbn [sliceCube with_data OLAPCube.data OLAPCube.metadata totalRecords].
    rewrite Hdata. reflexivity.
  - rewrite Hdata.
    assert (aggregateData
              [ cell [("Region", Str "East"); ("Product", Str "A")] [("Sales", 100%Z)];
                cell [("Region", Str "East"); ("Product", Str "B")] [("Sales", 50%Z)];
                cell [("Region", Str "West"); ("Product", Str "A")] [("Sales", 30%Z)] ]
              ["Region"] "Sales" sum
            = Some [ {| coordinates := list_to_map [("Region", Str "East")];
                        measures :=
                          {[ "Sales" :=
                               Number_add (Q2Qc (inject_Z 100)) (Q2Qc (inject_Z 50)) ]};
                        color := None |};
                     cell [("Region", Str "West")] [("Sales", 30%Z)] ]) as ->
      by (vm_compute; reflexivity).
    rewrite Hadd by (by vm_compute). reflexivity.
Qed.

Lemma sales_scenario_C1_witness :
  OLAPCube.measures (createOLAPCube (H := UtcHost.host) 0 sales_records)
  = [ {| Measure.name := "Sales"; Measure.type := sum;
         Measure.value := Q2Qc (inject_Z 180) |} ] ∧
  aggregateData (H := UtcHost.host)
    (OLAPCube.data (createOLAPCube (H := UtcHost.host) 0 sales_records))
    ["Region"] "Sales" sum
  = Some [ cell [("Region", Str "East")] [("Sales", 150%Z)];
           cell [("Region", Str "West")] [("Sales", 30%Z)] ].
Proof.
  pose proof (sales_scenario_C1 (H := UtcHost.host) 0
                ltac:(vm_compute; reflexivity) ltac:(vm_compute; reflexivity)
                ltac:(vm_compute; reflexivity) ltac:(vm_compute; reflexivity))
    as (_ & Hmeasures & _ & _ & Haggregate).
  split; [exact Hmeasures|exact Haggregate].
Defined.

(** C7 fails on a [Date] column that holds months.  For the one record
    whose [Date] is 2024-01, the month key built from the date is the date
    itself: [childMap] lists 2024-01 among the children of 2024-01, while
    [parentMap] gives 2024-01 the parent 2024, so a value listed in
    [childMap[p]] has a [parentMap] entry other than [p]. *)
Theorem date_hierarchy_not_dual_C7 `{JsHost} :
  ∃ d h,
    detectDimensions month_records = [d] ∧
    Dimension.hierarchy d = Some h ∧
    childMap h !! "2024-01" = Some [Some (Str "2024-01")] ∧
    childMap h !! "2024" = Some [Some (Str "2024-01")] ∧
    parentMap h !! "2024-01" = Some "2024" ∧
    ∃ p child,
      Some (Str child) ∈ default [] (childMap h !! p) ∧ parentMap h !! child ≠ Some p.
Proof.
  exists (dimension_of month_records "Date"),
         (date_hierarchy [Some (Str "2024-01")]).
  split_and!; [reflexivity|reflexivity|vm_compute; reflexivity..|].
  exists "2024-01", "2024-01". split.
  - vm_compute. by left.
  - vm_compute. discriminate.
Qed.

(** On daily dates the arrays of [childMap] repeat a child once for each
    record under it. *)
Example date_hierarchy_repeats_children `{JsHost} :
  childMap (date_hierarchy [Some (Str "2024-01-15"); Some (Str "2024-01-16")]) !! "2024"
  = Some [Some (Str "2024-01"); Some (Str "2024-01")].
Proof. vm_compute. reflexivity. Qed.

(** * Further properties of the engine *)

(** ** Filters *)

Lemma filter_filter_bool {A} (f g : A → bool) (l : list A) :
  List.filter f (List.filter g l) = List.filter (λ a, g a && f a) l.
Proof.
  induction l as [|a l IH]; [done|]. simpl.
  destruct (g a); simpl; [|done]. destruct (f a); by rewrite IH.
Qed.

Lemma slice_as_filter (cube : OLAPCube.t) (d : string) (v : value) :
  sliceCube cube d v
  = with_data cube
      (List.filter (λ c, strict_eq (coordinates c !! d) (Some v)) (OLAPCube.data cube)).
Proof. done. Qed.

Lemma includes_singleton (v : value) (o : option value) :
  v ≠ NaN → Array_includes [v] o = strict_eq o (Some v).
Proof.
  intros Hv. unfold Array_includes. destruct o as [w|]; [|done].
  destruct (strict_eq (Some w) (Some v)) eqn:Heq.
  - apply strict_eq_true in Heq as [[= ->] _].
    apply bool_decide_eq_true. by left.
  - apply bool_decide_eq_false. intros ->%list_elem_of_singleton.
    assert (strict_eq (Some v) (Some v) = true) as Htrue; [|congruence].
    apply strict_eq_true. split; congruence.
Qed.

Lemma slice_NaN (cube : OLAPCube.t) (d : string) :
  OLAPCube.data (sliceCube cube d NaN) = [].
Proof.
  rewrite slice_as_filter. cbn [with_data OLAPCube.data].
  induction (OLAPCube.data cube) as [|c l IH]; [done|]. simpl.
  destruct (strict_eq (coordinates c !! d) (Some NaN)) eqn:Heq; [|done].
  apply strict_eq_true in Heq as [? ?]. congruence.
Qed.

(** X1.  Slicing twice on the same dimension and value is slicing once. *)
Theorem slice_idempotent_X1 (cube : OLAPCube.t) (d : string) (v : value) :
  sliceCube (sliceCube cube d v) d v = sliceCube cube d v.
Proof.
  rewrite !slice_as_filter. unfold with_data. cbn [OLAPCube.data
    OLAPCube.dimensions OLAPCube.measures OLAPCube.metadata lastUpdated].
  rewrite filter_filter_bool.
  rewrite (List.filter_ext _ (λ c, strict_eq (coordinates c !! d) (Some v))); [done|].
  intros c. by destruct (strict_eq _ _).
Qed.

(** X2.  A slice on a value other than [NaN] is a dice on one dimension
    with that one value allowed, and two such slices in a row are a dice
    with both conditions; the order of two slices does not matter; a slice
    on [NaN] is empty, where the dice keeps the cells that have it. *)
Theorem slices_are_dices_X2 (cube : OLAPCube.t) (d1 d2 : string) (v1 v2 : value) :
  (v1 ≠ NaN → sliceCube cube d1 v1 = diceCube cube [(d1, [v1])]) ∧
  (v1 ≠ NaN → v2 ≠ NaN →
   sliceCube (sliceCube cube d1 v1) d2 v2 = diceCube cube [(d1, [v1]); (d2, [v2])]) ∧
  sliceCube (sliceCube cube d1 v1) d2 v2 = sliceCube (sliceCube cube d2 v2) d1 v1 ∧
  OLAPCube.data (sliceCube cube d1 NaN) = [] ∧
  OLAPCube.data (diceCube cube [(d1, [NaN])])
    = filter (λ c, coordinates c !! d1 = Some NaN) (OLAPCube.data cube).
Proof.
  split_and!; [| | |apply slice_NaN|].
  - intros Hv1. rewrite !slice_as_filter. unfold diceCube, with_data.
    cbn [OLAPCube.data OLAPCube.dimensions OLAPCube.measures OLAPCube.metadata
         lastUpdated].
    rewrite (List.filter_ext
               (λ c, forallb (λ '(dimension, values),
                                Array_includes values (coordinates c !! dimension))
                       [(d1, [v1])])
               (λ c, strict_eq (coordinates c !! d1) (Some v1))); [done|].
    intros c. cbn [forallb]. by rewrite includes_singleton, andb_true_r.
  - intros Hv1 Hv2. rewrite !slice_as_filter. unfold diceCube, with_data.
    cbn [OLAPCube.data OLAPCube.dimensions OLAPCube.measures OLAPCube.metadata
         lastUpdated].
    rewrite !filter_filter_bool.
    rewrite (List.filter_ext
               (λ c, forallb (λ '(dimension, values),
                                Array_includes values (coordinates c !! dimension))
                       [(d1, [v1]); (d2, [v2])])
               (λ c, strict_eq (coordinates c !! d1) (Some v1)
                     && strict_eq (coordinates c !! d2) (Some v2))); [done|].
    intros c. cbn [forallb]. by rewrite !includes_singleton, andb_true_r.
  - rewrite !slice_as_filter. unfold with_data.
    cbn [OLAPCube.data OLAPCube.dimensions OLAPCube.measures OLAPCube.metadata
         lastUpdated].
    rewrite !filter_filter_bool.
    rewrite (List.filter_ext
               (λ c, strict_eq (coordinates c !! d2) (Some v2)
                     && strict_eq (coordinates c !! d1) (Some v1))
               (λ c, strict_eq (coordinates c !! d1) (Some v1)
                     && strict_eq (coordinates c !! d2) (Some v2))); [done|].
    intros c. apply andb_comm.
  - unfold diceCube, with_data. cbn [OLAPCube.data].
    induction (OLAPCube.data cube) as [|c l IH]; [done|].
    rewrite filter_cons. simpl. rewrite andb_true_r. unfold Array_includes.
    destruct (coordinates c !! d1) as [w|].
    + destruct (decide (w = NaN)) as [->|Hw].
      * rewrite bool_decide_eq_true_2 by (by left).
        rewrite decide_True by done. f_equal. exact IH.
      * rewrite bool_decide_eq_false_2 by (by intros ->%list_elem_of_singleton).
        rewrite decide_False by congruence. exact IH.
    + rewrite decide_False by done. exact IH.
Qed.

(** X3.  Dicing the result of a dice is dicing once with the conditions of
    both; with no condition every cell is kept, and a condition that allows
    no value leaves no cell. *)
Theorem dice_composes_X3 (cube : OLAPCube.t)
    (conditions1 conditions2 : list (string * list value)) :
  diceCube (diceCube cube conditions1) conditions2
    = diceCube cube (conditions1 ++ conditions2) ∧
  OLAPCube.data (diceCube cube []) = OLAPCube.data cube ∧
  (∀ d, (d, []) ∈ conditions1 → OLAPCube.data (diceCube cube conditions1) = []).
Proof.
  unfold diceCube, with_data. cbn [OLAPCube.data
    OLAPCube.dimensions OLAPCube.measures OLAPCube.metadata lastUpdated].
  split_and!.
  - rewrite filter_filter_bool.
    rewrite (List.filter_ext _
               (λ c, forallb (λ '(dimension, values),
                                Array_includes values (coordinates c !! dimension))
                       (conditions1 ++ conditions2))); [done|].
    intros c. by rewrite forallb_app.
  - induction (OLAPCube.data cube) as [|c l IH]; [done|]. simpl in *. by rewrite IH.
  - intros d Hd. induction (OLAPCube.data cube) as [|c l IH]; [done|]. simpl.
    rewrite IH.
    assert (forallb (λ '(dimension, values),
                       Array_includes values (coordinates c !! dimension))
              conditions1 = false) as ->; [|done].
    apply not_true_is_false. intros Hall.
    rewrite forallb_forall in Hall. apply list_elem_of_In in Hd.
    specialize (Hall _ Hd). simpl in Hall. unfold Array_includes in Hall.
    destruct (coordinates c !! d); [|done].
    apply bool_decide_eq_true in Hall. by apply elem_of_nil in Hall.
Qed.

(** ** More on groups *)

Section aggregate_more.
Context `{JsHost}.
Implicit Types (dims : list string) (m : string) (data out : list CubeCell).

Lemma group_key_of_output dims (o c0 : CubeCell) :
  (∀ d, coordinates o !! d = if decide (d ∈ dims) then coordinates c0 !! d else None) →
  group_key dims o = group_key dims c0.
Proof.
  intros Ho. apply group_key_ext. intros d Hd. by rewrite Ho, decide_True.
Qed.

(** The keys of the output cells are the keys of the object of [groupBy],
    in the same order. *)
Lemma aggregateData_keys data dims m kind out :
  aggregateData data dims m kind = Some out →
  map (group_key dims) out = map fst (lodash.groupBy data (group_key dims)).
Proof.
  destruct (aggregateData_groups data dims m kind) as (out' & -> & HF).
  intros [= <-]. unfold groups_of, Obj.values in HF.
  assert (Forall (λ e, e ∈ lodash.groupBy data (group_key dims))
            (lodash.groupBy data (group_key dims))) as Hall
    by (apply Forall_forall; auto).
  revert HF Hall. generalize (lodash.groupBy data (group_key dims)) at 1 3 4.
  intros entries HF. revert out' HF.
  induction entries as [|[k g] entries IH]; intros out' HF Hall.
  - by apply Forall2_nil_inv_l in HF as ->.
  - apply Forall2_cons_inv_l in HF as (o & os & Ho & HF & ->).
    apply Forall_cons in Hall as [Hkg Hall]. simpl. f_equal; [|by apply IH].
    destruct Ho as (c0 & rest & v & Hg & Hcoords & _). simpl in Hg. subst g.
    rewrite (group_key_of_output _ _ _ Hcoords).
    apply groupBy_entries in Hkg as [_ Hfilter].
    assert (c0 ∈ List.filter (λ a, bool_decide (group_key dims a = k)) data) as Hc0
      by (rewrite <- Hfilter; by left).
    apply elem_of_filter_bool in Hc0 as [_ Hk]. by apply bool_decide_eq_true in Hk.
Qed.

Lemma aggregateData_length data dims m kind out :
  aggregateData data dims m kind = Some out → (length out ≤ length data)%nat.
Proof.
  destruct (aggregateData_groups data dims m kind) as (out' & -> & HF).
  intros [= <-]. rewrite <- (Forall2_length _ _ _ HF).
  apply groupBy_length.
Qed.

End aggregate_more.

(** ** More on the aggregation engine *)

(** X4.  The groups that [aggregateData] reduces partition the input
    cells: none is empty, together they hold every cell as often as the
    input does, the cells of a group share one key, and a cell lies in one
    group only. *)
Theorem groups_partition_X4 `{JsHost} (data : list CubeCell) (dims : list string) :
  concat (groups_of dims data) ≡ₚ data ∧
  Forall (λ g, g ≠ []) (groups_of dims data) ∧
  (∀ g c1 c2, g ∈ groups_of dims data → c1 ∈ g → c2 ∈ g →
              group_key dims c1 = group_key dims c2) ∧
  (∀ g1 g2 c, g1 ∈ groups_of dims data → g2 ∈ groups_of dims data →
              c ∈ g1 → c ∈ g2 → g1 = g2).
Proof.
  split_and!.
  - apply groupBy_concat.
  - apply Forall_forall. intros g Hg. by apply elem_of_groups_of in Hg as [? _].
  - intros g c1 c2 [_ [k ->]]%elem_of_groups_of [_ ->]%elem_of_group_of
           [_ ?]%elem_of_group_of. done.
  - intros g1 g2 c [_ [k1 ->]]%elem_of_groups_of [_ [k2 ->]]%elem_of_groups_of
           [_ <-]%elem_of_group_of [_ <-]%elem_of_group_of. done.
Qed.

(** X5.  [aggregateData] emits one cell for each distinct group key of the
    input: the keys of the output cells are pairwise distinct, every input
    cell has the key of an output cell and conversely, and there are at
    most as many output cells as input cells. *)
Theorem one_cell_per_key_X5 `{JsHost} (data : list CubeCell) (dims : list string)
    (m : string) (kind : AggregationType) :
  ∃ out,
    aggregateData data dims m kind = Some out ∧
    NoDup (map (group_key dims) out) ∧
    (∀ c, c ∈ data → ∃ o, o ∈ out ∧ group_key dims o = group_key dims c) ∧
    (∀ o, o ∈ out → ∃ c, c ∈ data ∧ group_key dims c = group_key dims o) ∧
    (length out ≤ length data)%nat.
Proof.
  destruct (aggregateData_groups data dims m kind) as (out & Hout & _).
  exists out. pose proof (aggregateData_keys _ _ _ _ _ Hout) as Hkeys.
  split_and!; [done| | | |by eapply aggregateData_length].
  - rewrite Hkeys. apply groupBy_NoDup.
  - intros c Hc.
    assert (group_key dims c ∈ map (group_key dims) out) as Hin.
    { rewrite Hkeys. apply dec_stable. intros Hnot%get_None.
      rewrite groupBy_get in Hnot.
      assert (c ∈ List.filter (λ a, bool_decide (group_key dims a = group_key dims c)) data)
        as Hcf by (apply elem_of_filter_bool; split; [done|by apply bool_decide_eq_true]).
      destruct (List.filter _ data); [by apply elem_of_nil in Hcf|done]. }
    apply list_elem_of_fmap in Hin as (o & Ho & Hin). by exists o.
  - intros o Ho.
    assert (group_key dims o ∈ map fst (lodash.groupBy data (group_key dims))) as Hin
      by (rewrite <- Hkeys; apply list_elem_of_fmap; by exists o).
    apply list_elem_of_fmap in Hin as ([k g] & Hk & Hin). simpl in Hk. subst k.
    apply groupBy_entries in Hin as [Hne Hg].
    destruct g as [|c g]; [done|]. exists c.
    assert (c ∈ List.filter (λ a, bool_decide (group_key dims a = group_key dims o)) data)
      as Hc by (rewrite <- Hg; by left).
    apply elem_of_filter_bool in Hc as [Hc Hk]. by apply bool_decide_eq_true in Hk.
Qed.



(** ** More on schema inference and the cube builder *)

Lemma NoDup_Set_add {A} `{EqDecision A} (s : list A) (a : A) :
  NoDup s → NoDup (Set_add s a).
Proof.
  intros Hs. unfold Set_add. destruct (decide (a ∈ s)); [done|].
  apply NoDup_app. split_and!; [done| |apply NoDup_singleton].
  intros b Hb ->%list_elem_of_singleton. done.
Qed.

Lemma NoDup_new_Set {A} `{EqDecision A} (l : list A) : NoDup (new_Set l).
Proof.
  unfold new_Set. generalize (NoDup_nil_2 (A := A)). generalize (@nil A).
  induction l as [|a l IH]; intros s Hs; simpl; [done|].
  apply IH. by apply NoDup_Set_add.
Qed.

Section schema_more.
Context `{JsHost}.

Lemma detectDimensions_names (sampleRecord : DataPoint) (rest : list DataPoint) :
  map Dimension.name (detectDimensions (sampleRecord :: rest))
  = List.filter (λ key, negb (skipped_as_measure (sampleRecord :: rest) key))
      (Object_keys sampleRecord).
Proof.
  unfold detectDimensions. set (data := sampleRecord :: rest).
  assert (∀ keys acc,
            map Dimension.name
              (foldl (λ dimensions key,
                        if skipped_as_measure data key then dimensions
                        else dimensions ++ [dimension_of data key])
                 acc keys)
            = map Dimension.name acc
              ++ List.filter (λ key, negb (skipped_as_measure data key)) keys)
    as Hfold.
  { induction keys as [|key keys IH]; intros acc; simpl.
    - by rewrite app_nil_r.
    - rewrite IH. destruct (skipped_as_measure data key); simpl; [done|].
      by rewrite map_app, <- app_assoc. }
  apply Hfold.
Qed.

Lemma detectDimensions_keys (data : list DataPoint) (k : string) :
  k ∈ map Dimension.name (detectDimensions data) ↔
  k ∈ Object_keys (default [] (head data)) ∧ skipped_as_measure data k = false.
Proof.
  destruct data as [|sampleRecord rest].
  - simpl. split; [by intros ?%elem_of_nil|by intros [?%elem_of_nil _]].
  - rewrite detectDimensions_names, elem_of_filter_bool. simpl.
    by rewrite negb_true_iff.
Qed.

Lemma detectMeasures_names (data : list DataPoint) (dimensions : list Dimension.t) :
  map Measure.name (detectMeasures data dimensions)
  = List.filter
      (λ key,
         negb (bool_decide (key ∈ map Dimension.name dimensions))
         && (isExplicitMeasure key
             || forallb (λ row, is_numeric (row_get row key)) data)
         && bool_decide (0 < length (omap (λ row, ToNumber (row_get row key)) data)))
      (Object_keys (default [] (head data))).
Proof.
  unfold detectMeasures.
  generalize (Object_keys (default [] (head data))). intros keys.
  assert (∀ acc,
    map Measure.name
      (foldl (λ measures key,
                let isNumericColumn :=
                  forallb (λ row, is_numeric (row_get row key)) data in
                if negb (bool_decide (key ∈ map Dimension.name dimensions))
                   && (isExplicitMeasure key || isNumericColumn)
                then
                  let values := omap (λ row, ToNumber (row_get row key)) data in
                  if bool_decide (0 < length values) then
                    measures ++ [{| Measure.name := key; Measure.type := sum;
                                    Measure.value := lodash.sumBy values |}]
                  else measures
                else measures) acc keys)
    = map Measure.name acc
      ++ List.filter
           (λ key,
              negb (bool_decide (key ∈ map Dimension.name dimensions))
              && (isExplicitMeasure key
                  || forallb (λ row, is_numeric (row_get row key)) data)
              && bool_decide
                   (0 < length (omap (λ row, ToNumber (row_get row key)) data)))
           keys) as Hfold.
  { induction keys as [|key keys IH]; intros acc; simpl.
    - by rewrite app_nil_r.
    - rewrite IH. destruct (_ && _); simpl; [|done].
      destruct (bool_decide _); simpl; [|done].
      by rewrite map_app, <- app_assoc. }
  apply Hfold.
Qed.

Lemma skipped_is_explicit (data : list DataPoint) (key : string) :
  skipped_as_measure data key = true → isExplicitMeasure key = true.
Proof.
  unfold skipped_as_measure, isExplicitMeasure. cbv zeta.
  repeat (destruct (Str.includes _ _); simpl; try done).
Qed.

Lemma omap_nonempty (key : string) (data : list DataPoint) :
  0 < length (omap (λ row, ToNumber (row_get row key)) data) ↔
  ∃ row, row ∈ data ∧ is_Some (ToNumber (row_get row key)).
Proof.
  split.
  - destruct (omap _ data) as [|q qs] eqn:Hq; simpl; [lia|]. intros _.
    assert (q ∈ omap (λ row, ToNumber (row_get row key)) data) as Hin
      by (rewrite Hq; by left).
    apply list_elem_of_omap in Hin as (row & Hrow & Hsome). by exists row.
  - intros (row & Hrow & [q Hq]).
    assert (q ∈ omap (λ row, ToNumber (row_get row key)) data) as Hin
      by (apply list_elem_of_omap; by exists row).
    destruct (omap _ data); [by apply elem_of_nil in Hin|simpl; lia].
Qed.

Lemma lookup_cell_coordinates (row : DataPoint) (dims : list Dimension.t)
    (init : gmap string value) (k : string) :
  foldl (λ coords dim,
           put (Dimension.name dim) (row_get row (Dimension.name dim)) coords)
    init dims !! k
  = if decide (k ∈ map Dimension.name dims) then row_get row k else init !! k.
Proof.
  revert init. induction dims as [|d dims IH]; intros init; cbn [foldl map].
  - rewrite decide_False by apply not_elem_of_nil. done.
  - rewrite IH. destruct (decide (k ∈ map Dimension.name dims)) as [Hin|Hnin].
    + rewrite decide_True by (by right). done.
    + rewrite lookup_put. destruct (decide (Dimension.name d = k)) as [<-|Hne].
      * rewrite decide_True by (by left). done.
      * rewrite decide_False; [done|].
        intros [?|?]%elem_of_cons; congruence.
Qed.

End schema_more.

(** X8.  Schema inference splits the columns of the first record: the
    dimensions are, in column order, the columns that the measure test does
    not skip; no column is both a dimension and a measure; every measure is
    a sum; and a column that is not a dimension is a measure exactly when
    at least one of its values converts to a number, so that a
    measure-named column without any numeric value is dropped. *)
Theorem schema_partition_X8 `{JsHost} (data : list DataPoint) :
  let keys := Object_keys (default [] (head data)) in
  let dimensions := detectDimensions data in
  let measures := detectMeasures data dimensions in
  map Dimension.name dimensions
    = List.filter (λ key, negb (skipped_as_measure data key)) keys ∧
  (∀ k, k ∈ map Dimension.name dimensions → k ∉ map Measure.name measures) ∧
  (∀ k, k ∈ map Measure.name measures → k ∈ keys) ∧
  Forall (λ m, Measure.type m = sum) measures ∧
  (∀ k, k ∈ keys → k ∉ map Dimension.name dimensions →
        (k ∈ map Measure.name measures ↔
         ∃ row, row ∈ data ∧ is_Some (ToNumber (row_get row k)))).
Proof.
  intros keys dimensions measures. split_and!.
  - destruct data as [|sampleRecord rest]; [done|]. apply detectDimensions_names.
  - intros k Hdim. unfold measures. rewrite detectMeasures_names, elem_of_filter_bool.
    intros [_ Hcond]. rewrite (bool_decide_eq_true_2 _ Hdim) in Hcond. done.
  - intros k. unfold measures. rewrite detectMeasures_names, elem_of_filter_bool.
    by intros [? _].
  - apply Forall_forall. intros m (key & ->)%detectMeasures_elem. done.
  - intros k Hk Hnot. unfold measures.
    rewrite detectMeasures_names, elem_of_filter_bool, <- omap_nonempty.
    assert (skipped_as_measure data k = true) as Hskip.
    { apply not_false_is_true. intros Hfalse. apply Hnot.
      apply detectDimensions_keys. done. }
    apply skipped_is_explicit in Hskip. rewrite Hskip.
    rewrite (bool_decide_eq_false_2 _ Hnot). simpl.
    rewrite bool_decide_eq_true. fold keys. tauto.
Qed.

(** X9.  Every detected dimension carries its whole column: one value for
    each record, [uniqueValues] without repetition and with exactly the
    values of the column, a name that is a column of the first record, and
    a hierarchy exactly when it is named [Date] or [Product]. *)
Theorem dimension_columns_X9 `{JsHost} (data : list DataPoint) (d : Dimension.t) :
  d ∈ detectDimensions data →
  length (Dimension.values d) = length data ∧
  NoDup (Dimension.uniqueValues d) ∧
  (∀ v, v ∈ Dimension.uniqueValues d ↔ v ∈ Dimension.values d) ∧
  Dimension.name d ∈ Object_keys (default [] (head data)) ∧
  (is_Some (Dimension.hierarchy d) ↔
   Dimension.name d = "Date" ∨ Dimension.name d = "Product").
Proof.
  intros Hd.
  assert (Dimension.name d ∈ map Dimension.name (detectDimensions data)) as Hname
    by (apply list_elem_of_fmap; by exists d).
  apply detectDimensions_keys in Hname as [Hkey _].
  apply detectDimensions_elem in Hd as (key & -> & _). simpl in *.
  split_and!; [by rewrite length_map|apply NoDup_new_Set|apply elem_of_new_Set|done|].
  destruct (decide (key = "Date")) as [->|HDate].
  - split; [by left|by eexists].
  - destruct (decide (key = "Product")) as [->|HProduct].
    + split; [by right|by eexists].
    + split; [by intros [? ?]|by intros [?|?]].
Qed.

Lemma dimension_columns_X9_witness :
  let d := dimension_of (H := UtcHost.host) sales_records "Product" in
  d ∈ detectDimensions (H := UtcHost.host) sales_records ∧
  NoDup (Dimension.uniqueValues d) ∧ is_Some (Dimension.hierarchy d).
Proof.
  assert (dimension_of (H := UtcHost.host) sales_records "Product"
          ∈ detectDimensions (H := UtcHost.host) sales_records) as Hin
    by (vm_compute; right; left).
  destruct (dimension_columns_X9 (H := UtcHost.host) sales_records _ Hin)
    as (_ & Hnodup & _ & _ & Hh).
  split_and!; [exact Hin|exact Hnodup|]. apply Hh. by right.
Defined.

(** X10.  The cube builder makes one cell for each record, in order: the
    coordinates of the cell are the record's values at the dimensions and
    nothing else, its measures are the record's values at the measures
    converted to numbers, 0 where the conversion fails, and nothing else;
    the record count is the number of records. *)
Theorem cube_cells_X10 `{JsHost} (now : Z) (data : list DataPoint) :
  let cube := createOLAPCube now data in
  Forall2 (λ row c,
             (∀ k, coordinates c !! k =
                     if decide (k ∈ map Dimension.name (OLAPCube.dimensions cube))
                     then row_get row k else None) ∧
             (∀ k, measures c !! k =
                     if decide (k ∈ map Measure.name (OLAPCube.measures cube))
                     then Some (or_zero (ToNumber (row_get row k))) else None) ∧
             color c = None)
    data (OLAPCube.data cube) ∧
  totalRecords (OLAPCube.metadata cube) = length data ∧
  lastUpdated (OLAPCube.metadata cube) = now.
Proof.
  simpl. split_and!; [|done..].
  apply Forall2_fmap_r, Forall_Forall2_diag, Forall_forall. intros row _. simpl.
  split_and!; [| |done].
  - intros k. by rewrite lookup_cell_coordinates, lookup_empty.
  - intros k. by rewrite lookup_cell_measures, lookup_empty.
Qed.

(** ** More on the operators *)

Lemma find_dimension_name (cube : OLAPCube.t) (dimension : string) (dim : Dimension.t) :
  find_dimension cube dimension = Some dim →
  Dimension.name dim = dimension ∧ dim ∈ OLAPCube.dimensions cube.
Proof.
  unfold find_dimension. intros Hfind. apply find_some in Hfind as [Hin Hname].
  split; [by apply bool_decide_eq_true in Hname|by apply list_elem_of_In].
Qed.

Lemma find_dimension_None (cube : OLAPCube.t) (dimension : string) :
  find_dimension cube dimension = None →
  ∀ dim, dim ∈ OLAPCube.dimensions cube → Dimension.name dim ≠ dimension.
Proof.
  unfold find_dimension. intros Hfind dim Hin%list_elem_of_In Hname.
  pose proof (find_none _ _ Hfind _ Hin) as Hfalse. simpl in Hfalse.
  by rewrite bool_decide_eq_true_2 in Hfalse.
Qed.

Lemma filter_sublist {A} (f : A → bool) (l : list A) : List.filter f l `sublist_of` l.
Proof.
  induction l as [|a l IH]; simpl; [done|].
  destruct (f a); [by apply sublist_skip|by apply sublist_cons].
Qed.

Lemma drillDown_cases `{JsHost} (cube drilled : OLAPCube.t)
    (dimension targetLevel : string) :
  drillDown cube dimension targetLevel = Some drilled →
  drilled = cube ∨
  ∃ kept, kept `sublist_of` OLAPCube.data cube ∧ drilled = with_data cube kept.
Proof.
  unfold drillDown. destruct (decide _); [intros [= <-]; by left|].
  destruct (find_dimension cube dimension) as [dim|]; [|intros [= <-]; by left].
  destruct (Dimension.hierarchy dim) as [h|]; [|intros [= <-]; by left].
  destruct (first_measure_name cube); [|intros [= <-]; by left].
  match goal with
  | |- context [foldl ?f (Some []) ?vs] => destruct (foldl f (Some []) vs) as [next|]
  end; [|done].
  cbn [mbind option_bind]. destruct (decide _); intros [= <-]; [by left|]. right.
  eexists. split; [|done]. apply filter_sublist.
Qed.





Section outcome_facts.
Context `{JsHost}.

Lemma drillUp_outcome now cube dimension sourceLevel cube' :
  drillUp now cube dimension sourceLevel = Some cube' →
  cube' = cube ∨
  (counted cube' ∧
   (length (OLAPCube.data cube') ≤ length (OLAPCube.data cube))%nat ∧
   lastUpdated (OLAPCube.metadata cube') = now).
Proof.
  unfold drillUp. destruct (decide _); [intros [= <-]; by left|].
  destruct (first_measure_name cube) as [m|]; [|intros [= <-]; by left].
  match goal with
  | |- context [aggregateData ?cells ?dims m sum] =>
      destruct (aggregateData cells dims m sum) as [aggregated|] eqn:Hagg
  end; [|done].
  cbn [mbind option_bind]. intros [= <-]. right.
  apply aggregateData_length in Hagg. rewrite length_map in Hagg. done.
Qed.

Lemma pivotCube_outcome now cube a cube' :
  pivotCube now cube a = Some cube' →
  cube' = cube ∨
  (counted cube' ∧
   (length (OLAPCube.data cube') ≤ length (OLAPCube.data cube))%nat ∧
   lastUpdated (OLAPCube.metadata cube') = now).
Proof.
  unfold pivotCube. destruct (decide _); [intros [= <-]; by left|].
  destruct (pivot_measure cube a) as [m|]; [|intros [= <-]; by left].
  destruct (aggregateData _ _ m sum) as [aggregated|] eqn:Hagg; [|done].
  cbn [mbind option_bind]. intros [= <-]. right.
  apply aggregateData_length in Hagg. done.
Qed.

End outcome_facts.

(** X13.  The record count stays in step with the cells: it is the number
    of cells in the cube that [createOLAPCube] builds and in every slice
    and dice, and [drillDown], [drillUp] and [pivotCube] return a cube
    where it is the number of cells whenever it was so in their input. *)
Theorem record_count_X13 `{JsHost} (now : Z) :
  (∀ data, counted (createOLAPCube now data)) ∧
  (∀ cube d v, counted (sliceCube cube d v)) ∧
  (∀ cube conditions, counted (diceCube cube conditions)) ∧
  (∀ cube d targetLevel cube',
     counted cube → drillDown cube d targetLevel = Some cube' → counted cube') ∧
  (∀ cube d sourceLevel cube',
     counted cube → drillUp now cube d sourceLevel = Some cube' → counted cube') ∧
  (∀ cube a cube', counted cube → pivotCube now cube a = Some cube' → counted cube').
Proof.
  split_and!.
  - intros data. unfold counted. simpl. by rewrite length_map.
  - done.
  - done.
  - intros cube d targetLevel cube' Hcube [->|(kept & _ & ->)]%drillDown_cases; done.
  - intros cube d sourceLevel cube' Hcube [->|[? _]]%drillUp_outcome; done.
  - intros cube a cube' Hcube [->|[? _]]%pivotCube_outcome; done.
Qed.

(** X14.  No operator adds cells.  A slice, a dice and a drill-down that
    returns keep a subsequence of the input cells and leave the dimensions,
    the measures and the time stamp as they are; a drill-up and a pivot
    return at most as many cells as they are given. *)
Theorem no_operator_adds_cells_X14 `{JsHost} (now : Z) (cube : OLAPCube.t) :
  (∀ d v,
     let sliced := sliceCube cube d v in
     OLAPCube.data sliced `sublist_of` OLAPCube.data cube ∧
     OLAPCube.dimensions sliced = OLAPCube.dimensions cube ∧
     OLAPCube.measures sliced = OLAPCube.measures cube ∧
     lastUpdated (OLAPCube.metadata sliced) = lastUpdated (OLAPCube.metadata cube)) ∧
  (∀ conditions,
     let diced := diceCube cube conditions in
     OLAPCube.data diced `sublist_of` OLAPCube.data cube ∧
     OLAPCube.dimensions diced = OLAPCube.dimensions cube ∧
     OLAPCube.measures diced = OLAPCube.measures cube ∧
     lastUpdated (OLAPCube.metadata diced) = lastUpdated (OLAPCube.metadata cube)) ∧
  (∀ d targetLevel drilled,
     drillDown cube d targetLevel = Some drilled →
     OLAPCube.data drilled `sublist_of` OLAPCube.data cube ∧
     OLAPCube.dimensions drilled = OLAPCube.dimensions cube ∧
     OLAPCube.measures drilled = OLAPCube.measures cube ∧
     lastUpdated (OLAPCube.metadata drilled) = lastUpdated (OLAPCube.metadata cube)) ∧
  (∀ d sourceLevel cube',
     drillUp now cube d sourceLevel = Some cube' →
     (length (OLAPCube.data cube') ≤ length (OLAPCube.data cube))%nat) ∧
  (∀ a cube',
     pivotCube now cube a = Some cube' →
     (length (OLAPCube.data cube') ≤ length (OLAPCube.data cube))%nat).
Proof.
  split_and!.
  - intros d v. simpl. split_and!; [apply filter_sublist|done..].
  - intros conditions. simpl. split_and!; [apply filter_sublist|done..].
  - intros d targetLevel drilled [->|(kept & Hkept & ->)]%drillDown_cases; done.
  - intros d sourceLevel cube' [->|(_ & ? & _)]%drillUp_outcome; done.
  - intros a cube' [->|(_ & ? & _)]%pivotCube_outcome; done.
Qed.

(** ** Hierarchies *)

Section child_map.
Implicit Types (cm : gmap string (list (option value))) (k q : string)
  (v : option value).

Lemma lookup_ensure_ne k cm q : k ≠ q → ensure k cm !! q = cm !! q.
Proof.
  intros Hne. unfold ensure. destruct (cm !! k); [done|].
  by apply lookup_insert_ne.
Qed.

Lemma kids_ensure k cm q : kids (ensure k cm) q = kids cm q.
Proof.
  unfold kids, ensure. destruct (cm !! k) as [l|] eqn:Hk; [done|].
  destruct (decide (k = q)) as [<-|Hne].
  - by rewrite lookup_insert_eq, Hk.
  - by rewrite lookup_insert_ne.
Qed.

Lemma ensure_is_Some k cm q : k = q ∨ is_Some (cm !! q) → is_Some (ensure k cm !! q).
Proof.
  unfold ensure. destruct (cm !! k) as [l|] eqn:Hk.
  - intros [<-|?]; [by eexists|done].
  - intros [<-|?]; [rewrite lookup_insert_eq; by eexists|].
    destruct (decide (k = q)) as [<-|Hne]; [rewrite lookup_insert_eq; by eexists|].
    by rewrite lookup_insert_ne.
Qed.

Lemma push_is_Some k v cm q : is_Some (cm !! q) → is_Some (push k v cm !! q).
Proof.
  intros [l Hl]. unfold push. rewrite lookup_alter.
  destruct (decide (k = q)) as [->|]; rewrite ?Hl; by eexists.
Qed.

Lemma lookup_push_ne k v cm q : k ≠ q → push k v cm !! q = cm !! q.
Proof. intros Hne. unfold push. by rewrite lookup_alter, decide_False. Qed.

Lemma lookup_push_eq k v cm l : cm !! k = Some l → push k v cm !! k = Some (l ++ [v]).
Proof. intros Hl. unfold push. by rewrite lookup_alter, decide_True, Hl. Qed.

Lemma kids_push k v cm q :
  is_Some (cm !! k) →
  kids (push k v cm) q = kids cm q ++ (if decide (k = q) then [v] else []).
Proof.
  intros [l Hl]. unfold kids. destruct (decide (k = q)) as [<-|Hne].
  - by rewrite (lookup_push_eq _ _ _ _ Hl), Hl.
  - by rewrite lookup_push_ne, app_nil_r.
Qed.

(** The children after the four updates of one round on dates. *)
Lemma kids_date_round cm (y mk : string) (a b : option value) q :
  kids (push mk b (push y a (ensure mk (ensure y cm)))) q
  = kids cm q ++ (if decide (y = q) then [a] else [])
              ++ (if decide (mk = q) then [b] else []).
Proof.
  rewrite kids_push, kids_push, !kids_ensure, <- app_assoc; [done| |].
  - apply ensure_is_Some. right. apply ensure_is_Some. by left.
  - apply push_is_Some, ensure_is_Some. by left.
Qed.

Lemma lookup_date_round_ne cm (y mk : string) (a b : option value) q :
  y ≠ q → mk ≠ q →
  push mk b (push y a (ensure mk (ensure y cm))) !! q = cm !! q.
Proof.
  intros Hy Hmk. by rewrite !lookup_push_ne, !lookup_ensure_ne.
Qed.

Lemma kids_product_round cm (p : string) (a : option value) q :
  kids (push p a (ensure p cm)) q
  = kids cm q ++ (if decide (p = q) then [a] else []).
Proof.
  rewrite kids_push, kids_ensure; [done|]. apply ensure_is_Some. by left.
Qed.

Lemma kids_nonempty cm q l : cm !! q = Some l → kids cm q = l.
Proof. intros Hl. unfold kids. by rewrite Hl. Qed.

End child_map.

Section hierarchy_facts.
Context `{JsHost}.

Lemma date_step_well_listed h date : well_listed h → well_listed (date_step h date).
Proof.
  intros [Hlisted Hnonempty].
  unfold date_step. cbv zeta.
  set (y := default "" (Str.split "-" date !! 0)).
  set (mk := y +:+ "-" +:+ default "undefined" (Str.split "-" date !! 1)).
  split.
  - intros k p. cbn [parentMap childMap]. rewrite kids_date_round.
    destruct (decide (mk = k)) as [<-|Hmk].
    { rewrite lookup_insert_eq. intros [= <-]. exists (Some (Str mk)).
      split; [|done]. rewrite decide_True by done. set_solver. }
    rewrite lookup_insert_ne by done.
    destruct (decide (date = k)) as [<-|Hdate].
    { rewrite lookup_insert_eq. intros [= <-]. exists (Some (Str date)).
      split; [|done]. rewrite (decide_True (P := mk = mk)) by done. set_solver. }
    rewrite lookup_insert_ne by done.
    intros (child & Hchild & Hk)%Hlisted. exists child. split; [|done]. set_solver.
  - intros p l. cbn [childMap]. intros Hl.
    pose proof (kids_nonempty _ _ _ Hl) as Hkids. rewrite kids_date_round in Hkids.
    destruct (decide (y = p)) as [Hy|Hy]; [by destruct (kids (childMap h) p); subst l|].
    destruct (decide (mk = p)) as [Hmk|Hmk]; [by destruct (kids (childMap h) p); subst l|].
    rewrite lookup_date_round_ne in Hl by done. by eapply Hnonempty.
Qed.

Lemma product_step_well_listed data h product :
  well_listed h → well_listed (product_step data h product).
Proof.
  intros [Hlisted Hnonempty]. unfold product_step. cbv zeta.
  destruct (truthy _); [|done].
  set (category := match List.find _ data with
                   | Some row => row_get row "Category" | None => None end).
  split.
  - intros k p. cbn [parentMap childMap]. rewrite kids_product_round.
    assert (parentMap h !! k = Some p →
            ∃ child, child ∈ kids (childMap h) p
                               ++ (if decide (ToString category = p) then [product] else [])
                     ∧ ToString child = k) as Hold.
    { intros (child & Hchild & Hchildk)%Hlisted. exists child. split; [|done].
      apply elem_of_app. by left. }
    unfold assign. destruct (decide (ToString product = "__proto__")); [done|].
    destruct (decide (ToString product = k)) as [<-|Hk]; [|by rewrite lookup_insert_ne].
    rewrite lookup_insert_eq. intros [= <-]. exists product.
    split; [|done]. rewrite decide_True by done. apply elem_of_app. right. by left.
  - intros p l. cbn [childMap]. intros Hl.
    pose proof (kids_nonempty _ _ _ Hl) as Hkids. rewrite kids_product_round in Hkids.
    destruct (decide (ToString category = p)) as [Hp|Hp];
      [by destruct (kids (childMap h) p); subst l|].
    rewrite lookup_push_ne, lookup_ensure_ne in Hl by done. by eapply Hnonempty.
Qed.

Lemma foldl_invariant {A B} (P : A → Prop) (f : A → B → A) (l : list B) (a : A) :
  P a → (∀ a b, P a → P (f a b)) → P (foldl f a l).
Proof.
  intros Ha Hstep. revert a Ha. induction l as [|b l IH]; intros a Ha; simpl; [done|].
  apply IH. by apply Hstep.
Qed.

Lemma hierarchies_well_listed data key h :
  Dimension.hierarchy (dimension_of data key) = Some h → well_listed h.
Proof.
  simpl. destruct (decide (key = "Date")); [|destruct (decide (key = "Product"))];
    [| |done]; intros [= <-].
  - unfold date_hierarchy. cbv zeta.
    apply (foldl_invariant well_listed); [|intros; by apply date_step_well_listed].
    split; [intros k p; cbn [parentMap]; by rewrite lookup_empty
           |intros p l; cbn [childMap]; by rewrite lookup_empty].
  - unfold product_hierarchy.
    apply (foldl_invariant well_listed); [|intros; by apply product_step_well_listed].
    split; [intros k p; cbn [parentMap]; by rewrite lookup_empty
           |intros p l; cbn [childMap]; by rewrite lookup_empty].
Qed.

End hierarchy_facts.

(** X15.  In every hierarchy that [detectDimensions] builds, each entry of
    [parentMap] is backed by [childMap]: the parent of a key lists a child
    whose string form is the key; and no array of [childMap] is empty. *)
Theorem parents_are_listed_X15 `{JsHost} (data : list DataPoint) (d : Dimension.t)
    (h : Hierarchy) :
  d ∈ detectDimensions data → Dimension.hierarchy d = Some h →
  parents_listed h ∧ ∀ p l, childMap h !! p = Some l → l ≠ [].
Proof.
  intros (key & -> & _)%detectDimensions_elem Hh.
  by apply hierarchies_well_listed in Hh.
Qed.

Lemma parents_are_listed_X15_witness :
  ∃ d h,
    d ∈ detectDimensions (H := UtcHost.host) month_records ∧
    Dimension.hierarchy d = Some h ∧
    parents_listed (H := UtcHost.host) h.
Proof.
  exists (dimension_of (H := UtcHost.host) month_records "Date"),
         (date_hierarchy (H := UtcHost.host) [Some (Str "2024-01")]).
  assert (dimension_of (H := UtcHost.host) month_records "Date"
          ∈ detectDimensions (H := UtcHost.host) month_records) as Hin
    by (vm_compute; left).
  split_and!; [exact Hin|reflexivity|].
  eapply (parents_are_listed_X15 (H := UtcHost.host) month_records _ _ Hin).
  reflexivity.
Defined.

Section product_facts.
Context `{JsHost}.

Lemma ToString_inj_strings (l : list (option value)) :
  Forall (λ v, ∃ s, v = Some (Str s)) l →
  ∀ p1 p2, p1 ∈ l → p2 ∈ l → ToString p1 = ToString p2 → p1 = p2.
Proof.
  intros Hall p1 p2 H1 H2. rewrite Forall_forall in Hall.
  destruct (Hall _ H1) as [s1 ->]. destruct (Hall _ H2) as [s2 ->]. simpl.
  by intros ->.
Qed.

(** After the products [ps], each listed child is one of them and has the
    listing category as its parent, and no child is listed twice. *)
Local Abbreviation consistent_after ps h :=
  ((∀ q child, child ∈ kids (childMap h) q →
               child ∈ ps ∧ parentMap h !! ToString child = Some q) ∧
   (∀ q, NoDup (kids (childMap h) q))).

Lemma product_step_consistent data (ps : list (option value)) h product :
  consistent_after ps h →
  product ∉ ps → (∀ p, p ∈ ps → ToString p ≠ ToString product) →
  ToString product ≠ "__proto__" →
  consistent_after (ps ++ [product]) (product_step data h product).
Proof.
  intros [Hkids Hnodup] Hnew Hfresh Hproto. unfold product_step, assign. cbv zeta.
  rewrite (decide_False (P := ToString product = "__proto__")) by done.
  destruct (truthy _).
  - set (category := match List.find _ data with
                     | Some row => row_get row "Category" | None => None end).
    cbn [parentMap childMap]. split.
    + intros q child. rewrite kids_product_round.
      intros [Hold|Hpushed]%elem_of_app.
      * apply Hkids in Hold as [Hin Hparent]. split; [set_solver|].
        rewrite lookup_insert_ne; [done|]. intros Heq. by apply (Hfresh child).
      * destruct (decide (ToString category = q)) as [<-|]; [|by apply elem_of_nil in Hpushed].
        apply list_elem_of_singleton in Hpushed as ->.
        split; [set_solver|]. by rewrite lookup_insert_eq.
    + intros q. rewrite kids_product_round. apply NoDup_app. split_and!; [done| |].
      * intros child [Hin _]%Hkids Hpushed.
        destruct (decide (ToString category = q)); [|by apply elem_of_nil in Hpushed].
        apply list_elem_of_singleton in Hpushed as ->. done.
      * destruct (decide _); [apply NoDup_singleton|apply NoDup_nil_2].
  - split; [|done]. intros q child [Hin Hparent]%Hkids. split; [set_solver|done].
Qed.

Lemma product_fold_consistent data (l ps : list (option value)) h :
  consistent_after ps h → NoDup (ps ++ l) →
  (∀ p1 p2, p1 ∈ ps ++ l → p2 ∈ ps ++ l → ToString p1 = ToString p2 → p1 = p2) →
  (∀ p, p ∈ l → ToString p ≠ "__proto__") →
  consistent_after (ps ++ l) (foldl (product_step data) h l).
Proof.
  revert ps h. induction l as [|product l IH]; intros ps h Hh Hnodup Hinj Hproto; simpl.
  - by rewrite app_nil_r.
  - rewrite (assoc_L (++) ps [product] l : ps ++ product :: l = (ps ++ [product]) ++ l)
      in Hnodup, Hinj |- *.
    apply IH; [|done|done|intros p Hp; apply Hproto; by right].
    apply NoDup_app in Hnodup as [Hnodup _].
    apply NoDup_app in Hnodup as (_ & Hdisjoint & _).
    apply product_step_consistent; [done| | |apply Hproto; by left].
    + intros Hin. apply (Hdisjoint _ Hin). by left.
    + intros p Hp Heq.
      assert (p = product) as -> by (apply Hinj; [set_solver..|done]).
      apply (Hdisjoint _ Hp). by left.
Qed.

End product_facts.

(** X16.  When distinct values of the [Product] column have distinct
    string forms, as they do when all of them are strings, and none of
    them reads [__proto__], a key under which [parentMap] stores nothing,
    the product hierarchy is consistent from the children's side: every
    listed child is a value of the column and has the listing category as
    its [parentMap] entry, and no child is listed twice. *)
Theorem product_hierarchy_dual_X16 `{JsHost} (data : list DataPoint) (d : Dimension.t)
    (h : Hierarchy) :
  d ∈ detectDimensions data → Dimension.name d = "Product" →
  Dimension.hierarchy d = Some h →
  (∀ p1 p2, p1 ∈ Dimension.uniqueValues d → p2 ∈ Dimension.uniqueValues d →
            ToString p1 = ToString p2 → p1 = p2) →
  (∀ p, p ∈ Dimension.uniqueValues d → ToString p ≠ "__proto__") →
  children_have_parent h ∧
  (∀ p, NoDup (kids (childMap h) p)) ∧
  (∀ p child, child ∈ kids (childMap h) p → child ∈ Dimension.uniqueValues d).
Proof.
  intros (key & -> & _)%detectDimensions_elem Hname. simpl in Hname. subst key.
  simpl. intros [= <-] Hinj Hproto.
  destruct (product_fold_consistent data
              (new_Set (map (λ row, row_get row "Product") data)) []
              {| levels := ["Category"; "Product"]; parentMap := ∅; childMap := ∅ |})
    as [Hkids Hnodup].
  - split; [|intros q; apply NoDup_nil_2].
    intros q child. unfold kids. cbn [childMap]. rewrite lookup_empty.
    by intros ?%elem_of_nil.
  - apply NoDup_new_Set.
  - exact Hinj.
  - exact Hproto.
  - split_and!; [|done|].
    + intros p child Hchild. by apply Hkids in Hchild as [_ ?].
    + intros p child Hchild. by apply Hkids in Hchild as [? _].
Qed.

Lemma product_hierarchy_dual_X16_witness :
  ∃ d h,
    d ∈ detectDimensions (H := UtcHost.host) catalog_records ∧
    Dimension.hierarchy d = Some h ∧
    kids (childMap h) "Tools" = [Some (Str "Saw"); Some (Str "Axe")] ∧
    children_have_parent (H := UtcHost.host) h.
Proof.
  exists (dimension_of (H := UtcHost.host) catalog_records "Product").
  eexists. 
  assert (dimension_of (H := UtcHost.host) catalog_records "Product"
          ∈ detectDimensions (H := UtcHost.host) catalog_records) as Hin
    by (vm_compute; left).
  split_and!; [exact Hin|reflexivity|by vm_compute|].
  eapply (product_hierarchy_dual_X16 (H := UtcHost.host) catalog_records _ _ Hin);
    [reflexivity|reflexivity| |].
  - apply ToString_inj_strings. vm_compute. repeat constructor; by eexists.
  - apply Forall_forall. vm_compute. repeat constructor; discriminate.
Defined.

(** ** Splitting dates *)

Lemma split_nonempty (s : string) : Str.split "-"%char s ≠ [].
Proof.
  destruct s as [|a s]; simpl; [done|].
  destruct (bool_decide (a = "-"%char)); [done|].
  by destruct (Str.split "-" s).
Qed.

Lemma split_parts_dash_free (s p : string) :
  p ∈ Str.split "-"%char s → dash_free p.
Proof.
  revert p. induction s as [|a s IH]; intros p; simpl.
  - intros ->%list_elem_of_singleton. apply not_elem_of_nil.
  - destruct (bool_decide (a = "-"%char)) eqn:Ha.
    + intros [->|Hp]%elem_of_cons; [apply not_elem_of_nil|by apply IH].
    + apply bool_decide_eq_false in Ha.
      destruct (Str.split "-" s) as [|w ws] eqn:Hs; [by destruct (split_nonempty s)|].
      intros [->|Hp]%elem_of_cons.
      * unfold dash_free. simpl. rewrite not_elem_of_cons. split; [done|].
        apply IH. by left.
      * apply IH. by right.
Qed.

Lemma split_dash_free (s : string) : dash_free s → Str.split "-"%char s = [s].
Proof.
  unfold dash_free. induction s as [|a s IH]; simpl; [done|].
  rewrite not_elem_of_cons. intros [Ha Hs].
  rewrite bool_decide_eq_false_2 by done. by rewrite IH.
Qed.

Lemma split_append_dash (y t : string) :
  dash_free y → Str.split "-"%char (y +:+ "-" +:+ t) = y :: Str.split "-"%char t.
Proof.
  unfold dash_free. induction y as [|a y IH]; simpl; [done|].
  rewrite not_elem_of_cons. intros [Ha Hy].
  rewrite bool_decide_eq_false_2 by done. by rewrite IH.
Qed.

Lemma join_split (s : string) : Str.join "-" (Str.split "-"%char s) = s.
Proof.
  induction s as [|a s IH]; simpl; [done|].
  destruct (bool_decide (a = "-"%char)) eqn:Ha.
  - apply bool_decide_eq_true in Ha as ->.
    destruct (Str.split "-" s) as [|w ws] eqn:Hs; [by destruct (split_nonempty s)|].
    rewrite <- IH. done.
  - destruct (Str.split "-" s) as [|w ws] eqn:Hs; [by destruct (split_nonempty s)|].
    rewrite <- IH. by destruct ws.
Qed.

Lemma first_part_dash_free (date : string) : dash_free (first_part date).
Proof.
  unfold first_part.
  destruct (Str.split "-" date) as [|y parts] eqn:Hs; [by destruct (split_nonempty date)|].
  simpl. apply (split_parts_dash_free date). rewrite Hs. by left.
Qed.

Lemma month_part_dash_free (date : string) :
  dash_free (default "undefined" (Str.split "-"%char date !! 1%nat)).
Proof.
  destruct (Str.split "-" date !! 1%nat) as [m|] eqn:Hm; simpl.
  - apply (split_parts_dash_free date). by eapply list_elem_of_lookup_2.
  - unfold dash_free. intros Hin. vm_compute in Hin.
    repeat (apply elem_of_cons in Hin as [Hin|Hin]; [discriminate|]).
    by apply elem_of_nil in Hin.
Qed.

Lemma split_month_key (date : string) :
  Str.split "-"%char (month_key date)
  = [first_part date; default "undefined" (Str.split "-"%char date !! 1%nat)].
Proof.
  unfold month_key. rewrite split_append_dash by apply first_part_dash_free.
  by rewrite split_dash_free by apply month_part_dash_free.
Qed.

Lemma first_part_month_key (date : string) :
  first_part (month_key date) = first_part date.
Proof. unfold first_part at 1. by rewrite split_month_key. Qed.

Lemma month_key_two_parts (date a b : string) :
  Str.split "-"%char date = [a; b] → month_key date = date ∧ first_part date ≠ date.
Proof.
  intros Hs. split.
  - unfold month_key, first_part. rewrite Hs. simpl.
    rewrite <- (join_split date), Hs. done.
  - intros Heq. pose proof (first_part_dash_free date) as Hfree.
    rewrite Heq in Hfree. apply split_dash_free in Hfree. by rewrite Hs in Hfree.
Qed.

Section date_facts.
Context `{JsHost}.

Lemma date_step_unfold (h : Hierarchy) (date : string) :
  date_step h date
  = {| levels := levels h;
       parentMap :=
         <[month_key date := first_part date]>
           (<[date := month_key date]> (parentMap h));
       childMap :=
         push (month_key date) (Some (Str date))
           (push (first_part date) (Some (Str (month_key date)))
              (ensure (month_key date) (ensure (first_part date) (childMap h)))) |}.
Proof. done. Qed.

(** The parent that the rounds give to a string: its first part when it
    has two parts, as month keys do, and its month key otherwise. *)
Local Abbreviation parent_of s :=
  (if decide (length (Str.split "-"%char s) = 2) then first_part s else month_key s).

Local Abbreviation settled h :=
  ((∀ s p, parentMap h !! s = Some p → p = parent_of s) ∧
   (∀ q child, child ∈ kids (childMap h) q →
               ∃ s, child = Some (Str s) ∧ parentMap h !! s = Some q)).

Lemma parent_of_month_key (date : string) :
  parent_of (month_key date) = first_part date.
Proof.
  rewrite split_month_key. simpl. by rewrite first_part_month_key.
Qed.

Lemma date_step_settled (h : Hierarchy) (date : string) :
  length (Str.split "-"%char date) ≠ 2 → settled h → settled (date_step h date).
Proof.
  intros Hparts [Hparent Hkids]. rewrite date_step_unfold. cbn [parentMap childMap].
  assert (date ≠ month_key date) as Hne.
  { intros Heq. apply Hparts. by rewrite Heq, split_month_key. }
  assert (∀ s q, parentMap h !! s = Some q →
                 (<[month_key date := first_part date]>
                    (<[date := month_key date]> (parentMap h))) !! s = Some q) as Hkeep.
  { intros s q Hs. pose proof (Hparent _ _ Hs) as ->.
    destruct (decide (month_key date = s)) as [<-|Hmk].
    - by rewrite lookup_insert_eq, parent_of_month_key.
    - rewrite lookup_insert_ne by done.
      destruct (decide (date = s)) as [<-|Hdate].
      + rewrite lookup_insert_eq. by rewrite decide_False.
      + by rewrite lookup_insert_ne. }
  split.
  - intros s p. destruct (decide (month_key date = s)) as [<-|Hmk].
    { rewrite lookup_insert_eq, parent_of_month_key. by intros [= <-]. }
    rewrite lookup_insert_ne by done.
    destruct (decide (date = s)) as [<-|Hdate].
    { rewrite lookup_insert_eq. intros [= <-]. by rewrite decide_False. }
    rewrite lookup_insert_ne by done. apply Hparent.
  - intros q child. rewrite kids_date_round.
    intros [Hold|[Hyear|Hmonth]%elem_of_app]%elem_of_app.
    + apply Hkids in Hold as (s & -> & Hs). exists s. split; [done|by apply Hkeep].
    + destruct (decide (first_part date = q)) as [<-|]; [|by apply elem_of_nil in Hyear].
      apply list_elem_of_singleton in Hyear as ->.
      exists (month_key date). split; [done|]. by rewrite lookup_insert_eq.
    + destruct (decide (month_key date = q)) as [<-|]; [|by apply elem_of_nil in Hmonth].
      apply list_elem_of_singleton in Hmonth as ->.
      exists date. split; [done|].
      rewrite lookup_insert_ne by done. by rewrite lookup_insert_eq.
Qed.

Lemma date_fold_settled (dates : list string) (h : Hierarchy) :
  Forall (λ date, length (Str.split "-"%char date) ≠ 2) dates →
  settled h → settled (foldl date_step h dates).
Proof.
  intros Hdates. revert h. induction Hdates as [|date dates Hdate _ IH]; intros h Hh.
  - done.
  - simpl. apply IH. by apply date_step_settled.
Qed.

(** A date of two parts, once met, stays listed as its own child, with its
    first part as parent. *)
Lemma date_step_stuck (h : Hierarchy) (d0 a b date : string) :
  Str.split "-"%char d0 = [a; b] →
  date = d0 ∨ (parentMap h !! d0 = Some (first_part d0) ∧
               Some (Str d0) ∈ kids (childMap h) d0) →
  parentMap (date_step h date) !! d0 = Some (first_part d0) ∧
  Some (Str d0) ∈ kids (childMap (date_step h date)) d0.
Proof.
  intros Hs Hcase. apply month_key_two_parts in Hs as [Hmk _].
  rewrite date_step_unfold. cbn [parentMap childMap].
  destruct Hcase as [->|[Hparent Hchild]].
  - rewrite Hmk. split; [by rewrite lookup_insert_eq|].
    rewrite kids_date_round, (decide_True (P := d0 = d0)) by done.
    apply elem_of_app. right. apply elem_of_app. right. by left.
  - split; [|rewrite kids_date_round; apply elem_of_app; by left].
    destruct (decide (month_key date = d0)) as [<-|Hne].
    { by rewrite lookup_insert_eq, first_part_month_key. }
    rewrite lookup_insert_ne by done.
    destruct (decide (date = d0)) as [->|Hdate]; [by rewrite Hmk in Hne|].
    by rewrite lookup_insert_ne.
Qed.

Lemma date_fold_stuck (dates : list string) (h : Hierarchy) (d0 a b : string) :
  Str.split "-"%char d0 = [a; b] →
  d0 ∈ dates ∨ (parentMap h !! d0 = Some (first_part d0) ∧
                Some (Str d0) ∈ kids (childMap h) d0) →
  parentMap (foldl date_step h dates) !! d0 = Some (first_part d0) ∧
  Some (Str d0) ∈ kids (childMap (foldl date_step h dates)) d0.
Proof.
  intros Hs. revert h. induction dates as [|date dates IH]; intros h Hcase; simpl.
  - destruct Hcase as [Hin|?]; [by apply elem_of_nil in Hin|done].
  - apply IH.
    destruct Hcase as [[->|Hin]%elem_of_cons|Hstuck]; [|by left|].
    + right. apply (date_step_stuck _ _ a b); [done|by left].
    + right. apply (date_step_stuck _ _ a b); [done|by right].
Qed.

End date_facts.

(** X17.  The date hierarchy is consistent from the children's side, every
    listed child having the listing value as its [parentMap] entry, exactly
    when no value of the [Date] column has a string form of exactly two
    parts between dashes: day dates and bare years are fine, month dates
    are not. *)
Theorem date_hierarchy_dual_X17 `{JsHost} (data : list DataPoint) (d : Dimension.t)
    (h : Hierarchy) :
  d ∈ detectDimensions data → Dimension.name d = "Date" →
  Dimension.hierarchy d = Some h →
  (children_have_parent h ↔
   ∀ v, v ∈ Dimension.values d → length (Str.split "-"%char (ToString v)) ≠ 2).
Proof.
  intros (key & -> & _)%detectDimensions_elem Hname. simpl in Hname. subst key.
  simpl. intros [= <-]. unfold date_hierarchy. cbv zeta.
  set (values := map (λ row, row_get row "Date") data).
  set (empty := {| levels := ["Year"; "Month"; "Day"]; parentMap := ∅; childMap := ∅ |}).
  split.
  - intros Hdual v Hv Hlen.
    destruct (Str.split "-" (ToString v)) as [|a [|b [|c parts]]] eqn:Hs; try done.
    destruct (date_fold_stuck (map ToString values) empty (ToString v) a b Hs)
      as [Hparent Hchild].
    { left. apply list_elem_of_fmap. by exists v. }
    apply Hdual in Hchild. simpl in Hchild. rewrite Hparent in Hchild.
    injection Hchild as Heq.
    by apply (month_key_two_parts _ _ _ Hs).
  - intros Hparts.
    destruct (date_fold_settled (map ToString values) empty) as [_ Hkids].
    + apply Forall_fmap, Forall_forall. intros v Hv. by apply Hparts.
    + split; [intros s p; unfold empty; cbn [parentMap]; by rewrite lookup_empty|].
      intros q child. unfold kids, empty. cbn [childMap]. rewrite lookup_empty.
      by intros ?%elem_of_nil.
    + intros p child (s & -> & Hs)%Hkids. done.
Qed.

Lemma date_hierarchy_dual_X17_witness :
  ∃ d h,
    d ∈ detectDimensions (H := UtcHost.host) iso_records ∧
    Dimension.hierarchy d = Some h ∧
    kids (childMap h) "2024"
      = [Some (Str "2024-01"); Some (Str "2024-01"); Some (Str "2024-02");
         Some (Str "2024-01")] ∧
    children_have_parent (H := UtcHost.host) h.
Proof.
  exists (dimension_of (H := UtcHost.host) iso_records "Date").
  eexists.
  assert (dimension_of (H := UtcHost.host) iso_records "Date"
          ∈ detectDimensions (H := UtcHost.host) iso_records) as Hin
    by (vm_compute; left).
  split_and!; [exact Hin|reflexivity|by vm_compute|].
  eapply (date_hierarchy_dual_X17 (H := UtcHost.host) iso_records _ _ Hin);
    [reflexivity|reflexivity|].
  intros v Hv. vm_compute in Hv.
  repeat (apply elem_of_cons in Hv as [->|Hv]; [by vm_compute|]).
  by apply elem_of_nil in Hv.
Defined.

Section drill_down_facts.
Context `{JsHost}.

Lemma date_keys_short (dates : list string) (q : string) :
  is_Some (childMap (foldl date_step
                       {| levels := ["Year"; "Month"; "Day"];
                          parentMap := ∅; childMap := ∅ |} dates) !! q) →
  length (Str.split "-"%char q) = 1 ∨ length (Str.split "-"%char q) = 2.
Proof.
  apply (foldl_invariant
           (λ h, is_Some (childMap h !! q) →
                 length (Str.split "-"%char q) = 1 ∨ length (Str.split "-"%char q) = 2)).
  - cbn [childMap]. rewrite lookup_empty. by intros [? ?].
  - intros h date IH. rewrite date_step_unfold. cbn [childMap].
    destruct (decide (first_part date = q)) as [<-|Hy].
    { intros _. left. by rewrite split_dash_free by apply first_part_dash_free. }
    destruct (decide (month_key date = q)) as [<-|Hmk].
    { intros _. right. by rewrite split_month_key. }
    by rewrite lookup_date_round_ne.
Qed.

Lemma prototype_names_one_part (k : string) :
  k ∈ Object_prototype_names → length (Str.split "-"%char k) = 1.
Proof.
  revert k. apply Forall_forall. unfold Object_prototype_names.
  repeat (constructor; [reflexivity|]). constructor.
Qed.

Lemma drillDown_without_children (cube : OLAPCube.t) (dimension targetLevel : string)
    (dim : Dimension.t) (h : Hierarchy) :
  find_dimension cube dimension = Some dim → Dimension.hierarchy dim = Some h →
  (∀ c, c ∈ OLAPCube.data cube →
        children_of (childMap h) (ToString (coordinates c !! dimension)) = Some []) →
  drillDown cube dimension targetLevel = Some cube.
Proof.
  intros Hdim Hh Hchildren. unfold drillDown.
  destruct (decide _); [done|]. rewrite Hdim, Hh.
  destruct (first_measure_name cube); [|done].
  rewrite fold_no_children; [done|].
  apply Forall_forall. intros value Hvalue.
  apply (proj1 (elem_of_new_Set _ _)) in Hvalue.
  apply list_elem_of_fmap in Hvalue as (c & -> & Hc). by apply Hchildren.
Qed.

End drill_down_facts.

(** X18.  On a cube fresh from [createOLAPCube] in which the string form
    of every record's [Date] has three parts or more between dashes, as a
    day date has, [drillDown] on [Date] returns the cube unchanged: the keys
    of [childMap] are years and month keys, never a date of the cube, and
    no name that objects inherit has a dash. *)
Theorem drillDown_fresh_dates_X18 `{JsHost} (now : Z) (data : list DataPoint)
    (targetLevel : string) :
  (∀ row, row ∈ data →
          (3 ≤ length (Str.split "-"%char (ToString (row_get row "Date"))))%nat) →
  drillDown (createOLAPCube now data) "Date" targetLevel
  = Some (createOLAPCube now data).
Proof.
  intros Hdates. set (cube := createOLAPCube now data).
  destruct (find_dimension cube "Date") as [dim|] eqn:Hfind.
  - pose proof (find_dimension_name _ _ _ Hfind) as [Hname Hin].
    assert ("Date" ∈ map Dimension.name (OLAPCube.dimensions cube)) as Hdim
      by (apply list_elem_of_fmap; exists dim; by rewrite Hname).
    apply detectDimensions_elem in Hin as (key & -> & _). simpl in Hname. subst key.
    eapply drillDown_without_children; [exact Hfind|by simpl|].
    intros c (row & -> & Hrow)%list_elem_of_fmap. cbn [coordinates].
    rewrite lookup_cell_coordinates, decide_True by exact Hdim.
    specialize (Hdates _ Hrow). unfold children_of.
    match goal with
    | |- context [childMap ?h !! ?k] => destruct (childMap h !! k) eqn:Hkey
    end.
    + assert (is_Some (childMap (date_hierarchy (map (λ row, row_get row "Date") data))
                         !! ToString (row_get row "Date"))) as Hsome by by eexists.
      apply date_keys_short in Hsome. lia.
    + rewrite decide_False; [done|].
      intros Hname%prototype_names_one_part. lia.
  - unfold drillDown. destruct (decide _); [done|]. by rewrite Hfind.
Qed.

Lemma drillDown_fresh_dates_X18_witness :
  drillDown (H := UtcHost.host) daily_cube "Date" "detailed" = Some daily_cube.
Proof.
  apply (drillDown_fresh_dates_X18 (H := UtcHost.host) 0 daily_records "detailed").
  intros row Hrow. vm_compute in Hrow.
  repeat (apply elem_of_cons in Hrow as [->|Hrow]; [vm_compute; lia|]).
  by apply elem_of_nil in Hrow.
Defined.

(** ** The colour scale *)






(** ** The order of enumeration *)

Lemma chars_inj (s1 s2 : string) : Str.chars s1 = Str.chars s2 → s1 = s2.
Proof.
  revert s2. induction s1 as [|a s1 IH]; intros [|b s2]; simpl; try done.
  intros [= -> Hs]. f_equal. by apply IH.
Qed.

Lemma digit_val_inj (a b : ascii) :
  Str.is_digit a = true → Str.is_digit b = true →
  Str.digit_val a = Str.digit_val b → a = b.
Proof.
  unfold Str.is_digit, Str.digit_val. cbv zeta.
  intros Ha%bool_decide_eq_true Hb%bool_decide_eq_true Heq.
  apply Nat2N.inj in Heq.
  rewrite <- (ascii_nat_embedding a), <- (ascii_nat_embedding b). f_equal. lia.
Qed.

Lemma digit_val_bound (a : ascii) : Str.is_digit a = true → (Str.digit_val a < 10)%N.
Proof.
  unfold Str.is_digit, Str.digit_val. cbv zeta. intros Ha%bool_decide_eq_true. lia.
Qed.

Lemma digit_val_positive (a : ascii) :
  Str.is_digit a = true → a ≠ "0"%char → (1 ≤ Str.digit_val a)%N.
Proof.
  unfold Str.is_digit, Str.digit_val. cbv zeta. intros Ha%bool_decide_eq_true Hne.
  destruct (decide (nat_of_ascii a = 48)) as [Heq|]; [|lia].
  destruct Hne. rewrite <- (ascii_nat_embedding a), Heq. done.
Qed.

Local Abbreviation index_value cs :=
  (foldl (λ acc c, (10 * acc + Str.digit_val c)%N) 0%N cs).

Lemma index_value_grows (cs : list ascii) (a : N) :
  (a ≤ foldl (λ acc c, (10 * acc + Str.digit_val c)%N) a cs)%N.
Proof.
  revert a. induction cs as [|c cs IH]; intros a; simpl; [lia|].
  etrans; [|apply IH]. lia.
Qed.

(** Digits without a leading zero are determined by their value. *)
Lemma canonical_digits_inj (cs1 cs2 : list ascii) :
  forallb Str.is_digit cs1 = true → forallb Str.is_digit cs2 = true →
  (∀ c cs, cs1 = c :: cs → c ≠ "0"%char ∨ cs = []) →
  (∀ c cs, cs2 = c :: cs → c ≠ "0"%char ∨ cs = []) →
  cs1 ≠ [] → cs2 ≠ [] →
  index_value cs1 = index_value cs2 → cs1 = cs2.
Proof.
  revert cs2. induction cs1 as [|c1 p1 IH] using rev_ind; [done|].
  intros cs2 Hd1 Hd2 Hc1 Hc2 _ Hne2.
  destruct cs2 as [|c2 p2 _] using rev_ind; [done|]. clear Hne2.
  rewrite !foldl_snoc. rewrite !forallb_app in Hd1, Hd2. simpl in Hd1, Hd2.
  apply andb_true_iff in Hd1 as [Hp1 [Hdc1 _]%andb_true_iff].
  apply andb_true_iff in Hd2 as [Hp2 [Hdc2 _]%andb_true_iff].
  pose proof (digit_val_bound _ Hdc1). pose proof (digit_val_bound _ Hdc2).
  intros Hval.
  assert (Str.digit_val c1 = Str.digit_val c2 ∧ index_value p1 = index_value p2)
    as [Hc Hp] by lia.
  apply digit_val_inj in Hc as ->; [|done..]. f_equal.
  assert (∀ p (c : ascii), forallb Str.is_digit p = true →
            (∀ c' cs, p ++ [c] = c' :: cs → c' ≠ "0"%char ∨ cs = []) →
            p ≠ [] → (1 ≤ index_value p)%N ∧
                     ∀ c' cs, p = c' :: cs → c' ≠ "0"%char ∨ cs = []) as Hprefix.
  { intros [|a p] c Hdig Hcanon Hne; [done|]. clear Hne.
    destruct (Hcanon a (p ++ [c]) eq_refl) as [Ha|Hnil];
      [|by destruct p]. split; [|intros ? ? [= <- <-]; by left].
    simpl in Hdig. apply andb_true_iff in Hdig as [Hda _].
    simpl. etrans; [|apply index_value_grows].
    pose proof (digit_val_positive _ Hda Ha). lia. }
  destruct p1 as [|a1 p1'], p2 as [|a2 p2']; [done| | |].
  - destruct (Hprefix (a2 :: p2') c2 Hp2 Hc2) as [Hpos _]; [done|].
    rewrite <- Hp in Hpos. simpl in Hpos. lia.
  - destruct (Hprefix (a1 :: p1') c2 Hp1 Hc1) as [Hpos _]; [done|].
    rewrite Hp in Hpos. simpl in Hpos. lia.
  - destruct (Hprefix (a1 :: p1') c2 Hp1 Hc1) as [_ Hcan1]; [done|].
    destruct (Hprefix (a2 :: p2') c2 Hp2 Hc2) as [_ Hcan2]; [done|].
    by apply IH.
Qed.

Lemma array_index_inj (k1 k2 : string) (n : N) :
  Obj.array_index k1 = Some n → Obj.array_index k2 = Some n → k1 = k2.
Proof.
  unfold Obj.array_index. cbv zeta.
  destruct (Str.chars k1) as [|c1 cs1] eqn:H1; [done|].
  destruct (Str.chars k2) as [|c2 cs2] eqn:H2; [done|].
  destruct (forallb _ (c1 :: _) && _ && _) eqn:Hok1; [|done]. intros [= Hn1].
  destruct (forallb _ (c2 :: _) && _ && _) eqn:Hok2; [|done]. intros [= Hn2].
  apply andb_true_iff in Hok1 as [[Hd1 Hz1]%andb_true_iff _].
  apply andb_true_iff in Hok2 as [[Hd2 Hz2]%andb_true_iff _].
  apply chars_inj. rewrite H1, H2.
  apply canonical_digits_inj; [done|done| | |done|done|by simpl; rewrite Hn1, Hn2].
  - intros c cs [= <- <-]. apply orb_true_iff in Hz1 as [Hz|Hz].
    + left. apply negb_true_iff, bool_decide_eq_false in Hz. done.
    + right. by apply bool_decide_eq_true in Hz.
  - intros c cs [= <- <-]. apply orb_true_iff in Hz2 as [Hz|Hz].
    + left. apply negb_true_iff, bool_decide_eq_false in Hz. done.
    + right. by apply bool_decide_eq_true in Hz.
Qed.


Section enumeration.
Context {V : Type}.
Implicit Types (o : list (string * V)) (k : string) (v : V).

Lemma insert_index_sorted o n k v :
  StronglySorted before (map fst o) → Obj.array_index k = Some n → k ∉ map fst o →
  StronglySorted before (map fst (Obj.insert_index o n k v)).
Proof.
  intros Hs Hk. induction o as [|[k1 v1] o IH]; intros Hnew.
  { simpl. repeat constructor. }
  cbn [map fst] in Hs, Hnew. apply StronglySorted_cons in Hs as [Hall Hs].
  apply not_elem_of_cons in Hnew as [Hne Hnew].
  assert (before k k1 → StronglySorted before (k :: k1 :: map fst o)) as Hfront.
  { intros Hkk1. apply StronglySorted_cons. split; [|by apply StronglySorted_cons].
    constructor; [done|]. eapply Forall_impl; [exact Hall|].
    intros k2. unfold before in *. rewrite Hk in *.
    destruct (Obj.array_index k1), (Obj.array_index k2); try done. lia. }
  simpl. destruct (Obj.array_index k1) as [n1|] eqn:Hk1.
  - destruct (decide (n1 < n)%N) as [Hlt|Hge].
    + cbn [map fst]. apply StronglySorted_cons. split; [|by apply IH].
      apply Forall_forall. intros k2 Hk2.
      rewrite keys_insert_index in Hk2. apply elem_of_cons in Hk2 as [->|Hk2].
      * unfold before. by rewrite Hk1, Hk.
      * by eapply Forall_forall in Hall.
    + apply Hfront. unfold before. rewrite Hk, Hk1.
      destruct (decide (n = n1)) as [->|]; [|lia].
      destruct Hne. by eapply array_index_inj.
  - apply Hfront. unfold before. by rewrite Hk, Hk1.
Qed.

(** Assignments keep the properties of an object in enumeration order. *)
Lemma set_sorted o k v :
  StronglySorted before (map fst o) → StronglySorted before (map fst (Obj.set o k v)).
Proof.
  intros Hs. unfold Obj.set. destruct (Obj.get o k) eqn:Hget.
  - by rewrite keys_replace.
  - apply get_None in Hget.
    destruct (Obj.array_index k) as [n|] eqn:Hk; [by apply insert_index_sorted|].
    rewrite map_app. apply StronglySorted_app_2; [|done|repeat constructor].
    intros k1 k2 _ Hk2. cbn [map fst] in Hk2. apply list_elem_of_singleton in Hk2.
    rewrite Hk2. unfold before. rewrite Hk.
    by destruct (Obj.array_index k1).
Qed.

(** A new key that comes after all the others is put at the end. *)
Lemma set_at_end o k v :
  Forall (λ k', before k' k) (map fst o) → k ∉ map fst o →
  Obj.set o k v = o ++ [(k, v)].
Proof.
  intros Hall Hnew. unfold Obj.set.
  rewrite (proj2 (get_None o k) Hnew).
  destruct (Obj.array_index k) as [n|] eqn:Hk; [|done]. clear Hnew.
  induction o as [|[k1 v1] o IH]; [done|].
  cbn [map fst] in Hall. apply Forall_cons in Hall as [Hk1 Hall].
  unfold before in Hk1. rewrite Hk in Hk1. simpl.
  destruct (Obj.array_index k1) as [n1|]; [|done].
  rewrite decide_True by done. by rewrite IH.
Qed.

End enumeration.

Section groupBy_order.
Context {A : Type} (iteratee : A → string).
Implicit Types (l : list A).

Lemma groupBy_sorted l : StronglySorted before (map fst (lodash.groupBy l iteratee)).
Proof.
  induction l as [|a l IH] using rev_ind; [constructor|].
  rewrite groupBy_snoc. cbv zeta. destruct (Obj.get _ _); by apply set_sorted.
Qed.

(** Elements with distinct keys, already in the order of enumeration, are
    grouped one by one and keep their order. *)
Lemma groupBy_distinct l :
  NoDup (map iteratee l) → StronglySorted before (map iteratee l) →
  lodash.groupBy l iteratee = map (λ a, (iteratee a, [a])) l.
Proof.
  induction l as [|a l IH] using rev_ind; [done|].
  rewrite !map_app. cbn [map].
  intros (Hnd & Hnew & _)%NoDup_app (Hbefore & Hs & _)%StronglySorted_app.
  rewrite groupBy_snoc, IH by done. cbv zeta.
  assert (map fst (map (λ a0, (iteratee a0, [a0])) l) = map iteratee l) as Hkeys
    by (rewrite map_map; done).
  assert (iteratee a ∉ map iteratee l) as Hnot.
  { intros Hin. eapply Hnew; [exact Hin|by left]. }
  rewrite (proj2 (get_None _ _)) by (by rewrite Hkeys).
  apply set_at_end; rewrite Hkeys; [|done].
  apply Forall_forall. intros k Hk. apply Hbefore; [done|by left].
Qed.

End groupBy_order.


Lemma mapM_singletons {A B} (f : list A → option B) (g : A → B) (l : list A) :
  (∀ a, a ∈ l → f [a] = Some (g a)) → mapM f (map (λ a, [a]) l) = Some (map g l).
Proof.
  induction l as [|a l IH]; intros Hf; [done|].
  cbn [map mapM]. rewrite Hf by (by left). cbn [mbind option_bind].
  rewrite IH by (intros a' Ha'; apply Hf; by right). done.
Qed.

Lemma find_in_map {A} (F : string → A) (name : A → string) (axes : list string)
    (axis : string) :
  (∀ x, x ∈ axes → name (F x) = x) → axis ∈ axes →
  List.find (λ d, bool_decide (name d = axis)) (map F axes) = Some (F axis).
Proof.
  induction axes as [|x axes IH]; intros Hname Hin; [by apply elem_of_nil in Hin|].
  simpl. rewrite Hname by (by left).
  destruct (decide (x = axis)) as [->|Hne].
  - by rewrite bool_decide_eq_true_2.
  - rewrite bool_decide_eq_false_2 by done.
    apply elem_of_cons in Hin as [->|Hin]; [done|].
    apply IH; [|done]. intros x' Hx'. apply Hname. by right.
Qed.

Section again.
Context `{JsHost}.
Implicit Types (dims : list string) (m : string) (data out : list CubeCell).

(** The shape of the cells that [aggregateData] returns. *)
Local Abbreviation reduced dims m o :=
  ((∀ d, d ∉ dims → coordinates o !! d = None) ∧
   (∃ v, measures o = {[ m := v ]}) ∧ color o = None).

Lemma aggregateData_reduced data dims m kind out :
  aggregateData data dims m kind = Some out → Forall (λ o, reduced dims m o) out.
Proof.
  destruct (aggregateData_groups data dims m kind) as (out' & -> & HF).
  intros [= <-]. apply Forall_forall. intros o Ho.
  apply list_elem_of_lookup in Ho as [i Hi].
  destruct (Forall2_lookup_r _ _ _ i o HF Hi)
    as (g & _ & c0 & rest & v & _ & Hcoords & Hm & Hcolor & _).
  split_and!; [|by exists v|done].
  intros d Hd. by rewrite Hcoords, decide_False.
Qed.

Lemma coordinates_again dims (o : CubeCell) :
  (∀ d, d ∉ dims → coordinates o !! d = None) →
  foldl (λ coords dim, put dim (coordinates o !! dim) coords) ∅ dims = coordinates o.
Proof.
  intros Hout. apply map_eq. intros d. rewrite lookup_put_fold, lookup_empty.
  destruct (decide (d ∈ dims)); [done|]. symmetry. by apply Hout.
Qed.

(** A reduced cell, alone in its group, is its own aggregate, except that
    a count gives one. *)
Lemma aggregate_group_alone dims m kind (o : CubeCell) :
  reduced dims m o →
  aggregate_group dims m kind [o] =
    Some (if decide (kind = count)
          then {| coordinates := coordinates o; measures := {[ m := 1%Qc ]};
                  color := None |}
          else o).
Proof.
  intros (Hcoords & [v Hm] & Hcolor).
  unfold aggregate_group. rewrite coords_fold, coordinates_again by done.
  cbn [mbind option_bind map]. rewrite Hm, lookup_singleton_eq, or_zero_default.
  cbn [default].
  assert (Qc_of_Z (Z.of_nat 1) = 1%Qc) as Hone by exact Z2Qc_inj_1.
  destruct o as [co me cl]. simpl in Hm, Hcolor. subst me cl. cbn [coordinates].
  destruct kind.
  - done.
  - unfold lodash.meanBy, lodash.sumBy. cbn [foldl length]. rewrite Hone.
    rewrite decide_False by done. cbn [mbind option_bind].
    unfold id. assert (v / 1 = v)%Qc as -> by (by field). done.
  - cbn [length]. by rewrite Hone.
  - unfold lodash.minBy, lodash.baseExtremum. cbn [foldl].
    by rewrite or_zero_default.
  - unfold lodash.maxBy, lodash.baseExtremum. cbn [foldl].
    by rewrite or_zero_default.
Qed.

(** Aggregating the output of [aggregateData] once more, by the same
    dimensions and the same measure. *)
Lemma aggregateData_again data dims m kind kind' out :
  aggregateData data dims m kind = Some out →
  aggregateData out dims m kind' =
    Some (if decide (kind' = count)
          then map (λ o, {| coordinates := coordinates o; measures := {[ m := 1%Qc ]};
                            color := None |}) out
          else out).
Proof.
  intros Hout. unfold aggregateData.
  pose proof (aggregateData_keys _ _ _ _ _ Hout) as Hkeys.
  rewrite groupBy_distinct.
  2: { rewrite Hkeys. apply groupBy_NoDup. }
  2: { rewrite Hkeys. apply groupBy_sorted. }
  unfold Obj.values. rewrite map_map. cbn [snd].
  pose proof (aggregateData_reduced _ _ _ _ _ Hout) as Hred.
  destruct (decide (kind' = count)) as [->|Hkind].
  - apply mapM_singletons. intros o Ho.
    rewrite aggregate_group_alone by (by eapply Forall_forall in Hred).
    by rewrite decide_True.
  - rewrite <- (map_id out) at 2. apply mapM_singletons. intros o Ho.
    rewrite aggregate_group_alone by (by eapply Forall_forall in Hred).
    by rewrite decide_False.
Qed.

End again.



(** ** Pivoting again *)

Section pivot_again.
Context `{JsHost}.

Lemma pivot_measure_nonempty (cube : OLAPCube.t) (a : AxisAssignment) (m : string) :
  pivot_measure cube a = Some m → m ≠ "".
Proof.
  assert (first_measure_name cube = Some m → m ≠ "") as Hfirst.
  { unfold first_measure_name. destruct (head _) as [m0|]; [|done].
    destruct (decide _); [done|]. by intros [= <-]. }
  unfold pivot_measure. destruct (measure a) as [m0|]; [|done].
  destruct (decide (m0 = "")); [done|]. by intros [= <-].
Qed.

Lemma first_measure_single (cube : OLAPCube.t) (m : string) (kind : AggregationType)
    (v : Qc) :
  m ≠ "" →
  OLAPCube.measures cube = [{| Measure.name := m; Measure.type := kind;
                               Measure.value := v |}] →
  first_measure_name cube = Some m.
Proof.
  intros Hm Hms. unfold first_measure_name. rewrite Hms. simpl.
  by rewrite decide_False.
Qed.

Lemma pivot_measure_again (cube cube' : OLAPCube.t) (a : AxisAssignment) (m : string) :
  pivot_measure cube a = Some m → first_measure_name cube' = Some m →
  pivot_measure cube' a = Some m.
Proof.
  unfold pivot_measure. intros Hm Hfirst. destruct (measure a) as [m0|]; [|done].
  by destruct (decide (m0 = "")).
Qed.

(** Pivoting the result of a pivot by the same axes and the same measure
    changes the time stamp only. *)
Lemma pivotCube_again (now : Z) (cube : OLAPCube.t) (a : AxisAssignment) (m : string) :
  axes_of a ≠ [] → pivot_measure cube a = Some m →
  ∃ cube',
    pivotCube now cube a = Some cube' ∧
    first_measure_name cube' = Some m ∧
    map Dimension.name (OLAPCube.dimensions cube') = axes_of a ∧
    lastUpdated (OLAPCube.metadata cube') = now ∧
    ∀ now' a',
      axes_of a' = axes_of a → pivot_measure cube' a' = Some m →
      pivotCube now' cube' a' = Some (stamped now' cube').
Proof.
  intros Haxes Hm. pose proof (pivot_measure_nonempty _ _ _ Hm) as Hne.
  unfold pivotCube at 1. fold (axes_of a).
  rewrite decide_False by (by destruct (axes_of a)). rewrite Hm.
  destruct (aggregateData_groups (OLAPCube.data cube) (axes_of a) m sum)
    as (aggregated & Hagg & _).
  rewrite Hagg. cbn [mbind option_bind]. eexists. split; [done|].
  assert (∀ axis dim,
            find_dimension cube axis = Some dim → Dimension.name dim = axis)
    as Hfound by (intros ? ? [? _]%find_dimension_name; done).
  split_and!.
  - by eapply first_measure_single.
  - cbn [OLAPCube.dimensions]. rewrite map_map.
    rewrite <- (map_id (axes_of a)) at 2. apply map_ext. intros axis.
    destruct (find_dimension cube axis) as [e|] eqn:Hfind; simpl; [|done].
    by apply Hfound.
  - done.
  - intros now' a' Ha' Hm'. unfold pivotCube. fold (axes_of a'). rewrite Ha'.
    rewrite decide_False by (by destruct (axes_of a)). rewrite Hm'.
    cbn [OLAPCube.data].
    rewrite (aggregateData_again _ _ _ _ sum _ Hagg), decide_False by done.
    cbn [mbind option_bind]. unfold stamped.
    cbn [OLAPCube.dimensions OLAPCube.measures OLAPCube.data OLAPCube.metadata
         totalRecords].
    do 2 f_equal. apply map_ext_in. intros axis Hin%list_elem_of_In.
    unfold find_dimension at 1. cbn [OLAPCube.dimensions].
    rewrite find_in_map; [|clear axis Hin; intros axis _|done].
    + by destruct (find_dimension cube axis).
    + destruct (find_dimension cube axis) as [e|] eqn:Hfind; simpl; [|done].
      by apply Hfound.
Qed.

Lemma stamped_same (cube : OLAPCube.t) :
  stamped (lastUpdated (OLAPCube.metadata cube)) cube = cube.
Proof. by destruct cube as [? ? ? []]. Qed.

End pivot_again.

(** X21.  Pivoting twice is pivoting once: the cube that [pivotCube]
    returns, pivoted again by the same assignment, comes back with the same
    dimensions, measures, cells and record count, whatever the clock says;
    at the same time it is the same cube. *)
Theorem pivot_idempotent_X21 `{JsHost} (now : Z) (cube : OLAPCube.t)
    (a : AxisAssignment) :
  ∃ cube',
    pivotCube now cube a = Some cube' ∧
    pivotCube now cube' a = Some cube' ∧
    ∀ now', ∃ cube'',
      pivotCube now' cube' a = Some cube'' ∧
      OLAPCube.dimensions cube'' = OLAPCube.dimensions cube' ∧
      OLAPCube.measures cube'' = OLAPCube.measures cube' ∧
      OLAPCube.data cube'' = OLAPCube.data cube' ∧
      totalRecords (OLAPCube.metadata cube'') = totalRecords (OLAPCube.metadata cube').
Proof.
  destruct (decide (axes_of a = [])) as [Hnil|Haxes].
  { assert (∀ t, pivotCube t cube a = Some cube) as Hsame.
    { intros t. unfold pivotCube. fold (axes_of a). by rewrite Hnil. }
    exists cube. split_and!; [done..|]. intros now'. by exists cube. }
  destruct (pivot_measure cube a) as [m|] eqn:Hm.
  2: { assert (∀ t, pivotCube t cube a = Some cube) as Hsame.
       { intros t. unfold pivotCube. fold (axes_of a).
         rewrite decide_False by (by destruct (axes_of a)). by rewrite Hm. }
       exists cube. split_and!; [done..|]. intros now'. by exists cube. }
  destruct (pivotCube_again now cube a m Haxes Hm)
    as (cube' & Hpivot & Hfirst & _ & Hstamp & Hnext).
  exists cube'. split; [done|].
  assert (∀ now', pivotCube now' cube' a = Some (stamped now' cube')) as Hagain.
  { intros now'. apply Hnext; [done|]. by eapply pivot_measure_again. }
  split.
  - rewrite Hagain, <- Hstamp. by rewrite stamped_same.
  - intros now'. exists (stamped now' cube'). by rewrite Hagain.
Qed.


(** ** The Pivot button *)

Lemma filter_idem {A} (f : A → bool) (l : list A) :
  List.filter f (List.filter f l) = List.filter f l.
Proof.
  rewrite filter_filter_bool. apply List.filter_ext. intros a. by destruct (f a).
Qed.

(** The axes of the default assignment are the names of the first three
    dimensions that are not empty. *)
Lemma default_axes (cube : OLAPCube.t) :
  axes_of (default_assignment cube)
  = List.filter (λ s, bool_decide (s ≠ ""))
      (take 3 (map Dimension.name (OLAPCube.dimensions cube))).
Proof.
  unfold axes_of, default_assignment, dimension_name_at. cbn [x y z].
  destruct (OLAPCube.dimensions cube) as [|d0 [|d1 [|d2 rest]]]; simpl;
    repeat (destruct (decide (_ = "")) as [?|?];
            [rewrite bool_decide_eq_false_2 by (intros Hne; by apply Hne)
            |rewrite bool_decide_eq_true_2 by done]; simpl);
    done.
Qed.

(** X22.  Pressing the Pivot button of the operations panel twice is
    pressing it once: [handlePivot] regroups the cube by its first three
    dimensions with a name and its first measure, the cube it hands on has
    exactly those dimensions unless it is the input itself, and
    [handlePivot] of that cube is that cube. *)
Theorem pivot_button_X22 `{JsHost} (now : Z) (cube : OLAPCube.t) :
  ∃ cube',
    handlePivot now cube = Some cube' ∧
    handlePivot now cube' = Some cube' ∧
    (cube' = cube ∨
     map Dimension.name (OLAPCube.dimensions cube')
     = List.filter (λ s, bool_decide (s ≠ ""))
         (take 3 (map Dimension.name (OLAPCube.dimensions cube)))).
Proof.
  unfold handlePivot. set (a := default_assignment cube).
  destruct (decide (axes_of a = [])) as [Hnil|Haxes].
  { assert (pivotCube now cube a = Some cube) as Hsame.
    { unfold pivotCube. fold (axes_of a). by rewrite Hnil. }
    exists cube. split_and!; [done|done|by left]. }
  destruct (pivot_measure cube a) as [m|] eqn:Hm.
  2: { assert (pivotCube now cube a = Some cube) as Hsame.
       { unfold pivotCube. fold (axes_of a).
         rewrite decide_False by (by destruct (axes_of a)). by rewrite Hm. }
       exists cube. split_and!; [done|done|by left]. }
  destruct (pivotCube_again now cube a m Haxes Hm)
    as (cube' & Hpivot & Hfirst & Hnames & Hstamp & Hnext).
  pose proof (default_axes cube) as Hdefault. fold a in Hdefault.
  exists cube'. split_and!; [done| |right; congruence].
  rewrite Hnext, <- Hstamp; [by rewrite stamped_same| |].
  - rewrite default_axes, Hnames, Hdefault, firstn_all2, filter_idem; [done|].
    etrans; [apply filter_length_le|]. rewrite length_take. lia.
  - unfold pivot_measure, default_assignment. cbn [measure]. rewrite Hfirst.
    rewrite decide_False; [done|]. by eapply pivot_measure_nonempty.
Qed.


(** ** Grouping a mapped collection *)

Section obj_map.
Context {V W : Type} (F : V → W).
Implicit Types (o : list (string * V)) (k : string) (v : V).

Lemma get_map_values o k :
  Obj.get (map (prod_map id F) o) k = F <$> Obj.get o k.
Proof.
  induction o as [|[k1 v1] o IH]; simpl; [done|].
  by destruct (decide (k1 = k)).
Qed.

Lemma replace_map_values o k v :
  Obj.replace (map (prod_map id F) o) k (F v) = map (prod_map id F) (Obj.replace o k v).
Proof.
  induction o as [|[k1 v1] o IH]; simpl; [done|].
  destruct (decide (k1 = k)); simpl; [done|]. by rewrite IH.
Qed.

Lemma insert_index_map_values o n k v :
  Obj.insert_index (map (prod_map id F) o) n k (F v)
  = map (prod_map id F) (Obj.insert_index o n k v).
Proof.
  induction o as [|[k1 v1] o IH]; simpl; [done|].
  destruct (Obj.array_index k1) as [n1|]; [|done].
  destruct (decide (n1 < n)%N); simpl; [|done]. by rewrite IH.
Qed.

Lemma set_map_values o k v :
  Obj.set (map (prod_map id F) o) k (F v) = map (prod_map id F) (Obj.set o k v).
Proof.
  unfold Obj.set. rewrite get_map_values.
  destruct (Obj.get o k); simpl; [apply replace_map_values|].
  destruct (Obj.array_index k); [apply insert_index_map_values|].
  by rewrite map_app.
Qed.

End obj_map.

Section groupBy_map.
Context {A B : Type} (f : A → B) (iteratee : B → string).

(** Grouping the images is grouping by the key of the image. *)
Lemma groupBy_map (l : list A) :
  lodash.groupBy (map f l) iteratee
  = map (prod_map id (map f)) (lodash.groupBy l (λ a, iteratee (f a))).
Proof.
  induction l as [|a l IH] using rev_ind; [done|].
  rewrite map_app. cbn [map]. rewrite !groupBy_snoc. cbv zeta.
  rewrite IH, get_map_values.
  destruct (Obj.get _ _) as [g|]; simpl.
  - by rewrite <- set_map_values, map_app.
  - by rewrite <- set_map_values.
Qed.

Lemma groupBy_ext (key key' : A → string) (l : list A) :
  (∀ a, a ∈ l → key a = key' a) → lodash.groupBy l key = lodash.groupBy l key'.
Proof.
  induction l as [|a l IH] using rev_ind; [done|]. intros Hkey.
  rewrite !groupBy_snoc. cbv zeta.
  rewrite IH by (intros a' Ha'; apply Hkey, elem_of_app; by left).
  rewrite Hkey by (apply elem_of_app; right; by left). done.
Qed.

End groupBy_map.

Lemma mapM_map_ext {A B B' C} (f : B → option C) (g : B' → option C)
    (h : A → B) (h' : A → B') (l : list A) :
  (∀ a, f (h a) = g (h' a)) → mapM f (map h l) = mapM g (map h' l).
Proof.
  intros Hfg. induction l as [|a l IH]; [done|].
  cbn [map mapM]. by rewrite Hfg, IH.
Qed.

Section unseen.
Context `{JsHost}.
Implicit Types (dims : list string) (m : string) (data : list CubeCell).

(** A change of the cells that the grouping dimensions and the measure do
    not see does not change the aggregate. *)
Lemma aggregateData_unseen (f : CubeCell → CubeCell) data dims m kind :
  (∀ c d, d ∈ dims → coordinates (f c) !! d = coordinates c !! d) →
  (∀ c, measures (f c) !! m = measures c !! m) →
  aggregateData (map f data) dims m kind = aggregateData data dims m kind.
Proof.
  intros Hcoords Hm. unfold aggregateData.
  rewrite groupBy_map.
  rewrite (groupBy_ext (λ a, group_key dims (f a)) (group_key dims)).
  2: { intros c _. apply group_key_ext. intros d Hd. by apply Hcoords. }
  unfold Obj.values. rewrite map_map. cbn [prod_map snd].
  apply mapM_map_ext. intros [k g]. cbn [prod_map snd].
  unfold aggregate_group. destruct g as [|c0 rest].
  { cbn [map head]. done. }
  cbn [map]. rewrite !coords_fold.
  assert (foldl (λ coords dim, put dim (coordinates (f c0) !! dim) coords) ∅ dims
          = foldl (λ coords dim, put dim (coordinates c0 !! dim) coords) ∅ dims) as ->.
  { apply map_eq. intros d. rewrite !lookup_put_fold.
    destruct (decide (d ∈ dims)); [by apply Hcoords|done]. }
  rewrite Hm, map_map.
  rewrite (map_ext (λ x, or_zero (measures (f x) !! m))
                   (λ cell, or_zero (measures cell !! m)))
    by (intros c; by rewrite Hm).
  done.
Qed.

End unseen.

(** X23.  Rolling up along a name that is not a dimension of the cube
    leaves the dimension list alone and aggregates the cells as they are:
    on a cube with cells and a first measure, the result holds the sums of
    the cells grouped by all the dimensions, whatever the cells carry under
    that name, and the cached total of the measure is its total over those
    sums. *)
Theorem drillUp_unknown_dimension_X23 `{JsHost} (now : Z) (cube : OLAPCube.t)
    (dimension sourceLevel m : string) :
  OLAPCube.data cube ≠ [] → first_measure_name cube = Some m →
  find_dimension cube dimension = None →
  ∃ aggregated,
    aggregateData (OLAPCube.data cube)
      (map Dimension.name (OLAPCube.dimensions cube)) m sum = Some aggregated ∧
    drillUp now cube dimension sourceLevel
    = Some {| OLAPCube.dimensions := OLAPCube.dimensions cube;
              OLAPCube.measures :=
                [{| Measure.name := m; Measure.type := sum;
                    Measure.value := total (map (cell_value m) aggregated) |}];
              OLAPCube.data := aggregated;
              OLAPCube.metadata :=
                {| totalRecords := length aggregated; lastUpdated := now |} |}.
Proof.
  intros Hdata Hm Hfind.
  destruct (aggregateData_groups (OLAPCube.data cube)
              (map Dimension.name (OLAPCube.dimensions cube)) m sum)
    as (aggregated & Hagg & _).
  exists aggregated. split; [done|].
  pose proof (find_dimension_None _ _ Hfind) as Hnone.
  unfold drillUp. rewrite decide_False by (by destruct (OLAPCube.data cube)).
  rewrite Hm. cbv zeta.
  rewrite aggregateData_unseen, Hagg; [|intros c d Hd; cbn [coarsen coordinates]|done].
  - cbn [mbind option_bind].
    rewrite total_of_total. do 2 f_equal.
    rewrite <- (map_id (OLAPCube.dimensions cube)) at 2.
    apply map_ext_in. intros dim Hdim%list_elem_of_In.
    rewrite decide_False; [done|]. by apply Hnone.
  - unfold coarsen. cbn [coordinates]. rewrite lookup_put, decide_False; [done|].
    intros <-. apply list_elem_of_fmap in Hd as (dim & Hname & Hdim).
    by eapply Hnone.
Qed.

Lemma drillUp_unknown_dimension_X23_witness :
  ∃ aggregated,
    aggregateData (H := UtcHost.host) (OLAPCube.data daily_cube)
      (map Dimension.name (OLAPCube.dimensions daily_cube)) "Sales" sum
      = Some aggregated ∧
    OLAPCube.data <$> drillUp (H := UtcHost.host) 1 daily_cube "Week" "summary"
      = Some aggregated.
Proof.
  destruct (drillUp_unknown_dimension_X23 (H := UtcHost.host) 1 daily_cube
              "Week" "summary" "Sales") as (aggregated & Hagg & Hup).
  - by vm_compute.
  - by vm_compute.
  - by vm_compute.
  - exists aggregated. split; [exact Hagg|]. by rewrite Hup.
Defined.


(** ** The scene *)

Lemma indexOf_from_found (i : Z) (l : list (option value)) (v : option value) :
  v ∈ l → v ≠ Some NaN →
  ∃ n, indexOf_from i l v = (i + Z.of_nat n)%Z ∧ l !! n = Some v.
Proof.
  intros Hin Hnan. revert i.
  induction l as [|w l IH]; intros i; [by apply elem_of_nil in Hin|].
  simpl. destruct (strict_eq w v) eqn:Heq.
  - apply strict_eq_true in Heq as [-> _]. exists 0%nat. split; [lia|done].
  - apply elem_of_cons in Hin as [->|Hin].
    { assert (strict_eq w w = true) as Htrue; [|congruence]. by apply strict_eq_true. }
    destruct (IH Hin (i + 1)%Z) as (n & Hn & Hl). exists (S n). split; [lia|done].
Qed.

Lemma indexOf_from_range (i : Z) (l : list (option value)) (v : option value) :
  indexOf_from i l v = (-1)%Z ∨
  ∃ n, indexOf_from i l v = (i + Z.of_nat n)%Z ∧ l !! n = Some v ∧ v ≠ Some NaN.
Proof.
  revert i. induction l as [|w l IH]; intros i; [by left|].
  simpl. destruct (strict_eq w v) eqn:Heq.
  - apply strict_eq_true in Heq as [-> Hnan]. right. exists 0%nat.
    split_and!; [lia|done|done].
  - destruct (IH (i + 1)%Z) as [?|(n & Hn & Hl & Hnan)]; [by left|].
    right. exists (S n). split_and!; [lia|done|done].
Qed.

(** Among the elements of the array, [indexOf] tells the values apart:
    it finds each of them but [NaN], for which it answers -1. *)
Lemma indexOf_inj (l : list (option value)) (v w : option value) :
  v ∈ l → w ∈ l → indexOf l v = indexOf l w → v = w.
Proof.
  unfold indexOf. intros Hv Hw Heq.
  destruct (decide (v = Some NaN)) as [->|Hnan].
  - destruct (decide (w = Some NaN)) as [->|Hnan']; [done|].
    destruct (indexOf_from_found 0 l w Hw Hnan') as (n & Hn & _).
    destruct (indexOf_from_range 0 l (Some NaN)) as [Hminus|(? & _ & _ & ?)];
      [lia|done].
  - destruct (indexOf_from_found 0 l v Hv Hnan) as (n & Hn & Hl).
    destruct (indexOf_from_range 0 l w) as [Hminus|(n' & Hn' & Hl' & _)]; [lia|].
    assert (n = n') as -> by lia. congruence.
Qed.

Lemma centred_inj (i j : Z) (values : list (option value)) :
  centred i values = centred j values → i = j.
Proof.
  unfold centred. intros Heq. apply Z2Qc_inj.
  match type of Heq with
  | (?a - ?h = ?b - ?h)%Qc =>
      replace a with (a - h + h)%Qc by ring; rewrite Heq; ring
  end.
Qed.

Lemma imap_lookup {A B} (l : list A) (d : list B) :
  length l = length d → imap (λ i _, l !! i) d = map Some l.
Proof.
  revert l. induction d as [|b d IH]; intros [|a l] Hlen; try done.
  simpl. f_equal. rewrite <- IH by (simpl in Hlen; lia). by apply imap_ext.
Qed.

Lemma imap_ignore {A B} (f : A → B) (l : list A) : imap (λ _ x, f x) l = map f l.
Proof. apply (imap_const f). Qed.

Lemma length_generateColorScale `{JsHost} (values : list Qc) :
  length (generateColorScale values) = length values.
Proof. destruct values; [done|]. unfold generateColorScale. by rewrite length_map. Qed.

Section scene.
Context `{JsHost}.

(** The box drawn for a cell of the cube. *)
Local Abbreviation box cube xDim yDim zDim measureName :=
  (λ (index : nat) cell,
     let data := OLAPCube.data cube in
     let xValues := new_Set (map (λ cell, coordinates cell !! xDim) data) in
     let yValues := new_Set (map (λ cell, coordinates cell !! yDim) data) in
     let zValues := new_Set (map (λ cell, coordinates cell !! zDim) data) in
     {| Cell3D.cell := cell;
        Cell3D.position :=
          (centred (indexOf xValues (coordinates cell !! xDim)) xValues,
           centred (indexOf yValues (coordinates cell !! yDim)) yValues,
           centred (indexOf zValues (coordinates cell !! zDim)) zValues);
        Cell3D.size := (Q2Qc (8 # 10), Q2Qc (8 # 10), Q2Qc (8 # 10));
        Cell3D.color :=
          generateColorScale
            (map (λ cell, or_zero (measures cell !! measureName)) data) !! index;
        Cell3D.value := or_zero (measures cell !! measureName) |}).

Lemma cells3D_cases (cube : OLAPCube.t) (a : AxisAssignment) :
  cells3D cube a = [] ∨
  ∃ xDim yDim zDim measureName,
    axes_of a = [xDim; yDim; zDim] ∧ measure a = Some measureName ∧
    measureName ≠ "" ∧
    cells3D cube a = imap (box cube xDim yDim zDim measureName) (OLAPCube.data cube).
Proof.
  unfold cells3D, axes_of. cbv zeta. destruct (decide _); [by left|].
  destruct (x a) as [xDim|], (y a) as [yDim|], (z a) as [zDim|],
    (measure a) as [m|]; try by left.
  destruct (decide _) as [|Hno]; [by left|]. right.
  exists xDim, yDim, zDim, m. split_and!; [done|done| |done].
  intros ->. apply Hno. by do 3 right.
Qed.

Lemma same_box_position (cube : OLAPCube.t) (xDim yDim zDim m : string)
    (i j : nat) (c1 c2 : CubeCell) :
  c1 ∈ OLAPCube.data cube → c2 ∈ OLAPCube.data cube →
  Cell3D.position (box cube xDim yDim zDim m i c1)
  = Cell3D.position (box cube xDim yDim zDim m j c2) ↔
  ∀ d, d ∈ [xDim; yDim; zDim] → coordinates c1 !! d = coordinates c2 !! d.
Proof.
  intros Hc1 Hc2. cbn [Cell3D.position].
  assert (∀ c d, c ∈ OLAPCube.data cube →
            coordinates c !! d
            ∈ new_Set (map (λ cell, coordinates cell !! d) (OLAPCube.data cube)))
    as Hin.
  { intros c d Hc. apply elem_of_new_Set, list_elem_of_fmap. by exists c. }
  split.
  - intros [[Hx Hy]%pair_equal_spec Hz]%pair_equal_spec.
    apply centred_inj, indexOf_inj in Hx; [|by apply Hin..].
    apply centred_inj, indexOf_inj in Hy; [|by apply Hin..].
    apply centred_inj, indexOf_inj in Hz; [|by apply Hin..].
    intros d Hd. repeat (apply elem_of_cons in Hd as [->|Hd]; [done|]).
    by apply elem_of_nil in Hd.
  - intros Hsame.
    rewrite (Hsame xDim), (Hsame yDim), (Hsame zDim); [done|set_solver..].
Qed.

(** Cells with distinct group keys on the three axes get distinct boxes. *)
Lemma boxes_apart (cube : OLAPCube.t) (xDim yDim zDim m : string) :
  NoDup (map (group_key [xDim; yDim; zDim]) (OLAPCube.data cube)) →
  NoDup (map Cell3D.position
           (imap (box cube xDim yDim zDim m) (OLAPCube.data cube))).
Proof.
  intros Hkeys. apply NoDup_alt. intros i j p Hi Hj.
  rewrite list_lookup_fmap, list_lookup_imap in Hi, Hj.
  destruct (OLAPCube.data cube !! i) as [c1|] eqn:Hc1; [|done].
  destruct (OLAPCube.data cube !! j) as [c2|] eqn:Hc2; [|done].
  simpl in Hi, Hj. injection Hi as Hi. injection Hj as Hj.
  assert (group_key [xDim; yDim; zDim] c1 = group_key [xDim; yDim; zDim] c2) as Hsame.
  { apply group_key_ext.
    apply (same_box_position cube xDim yDim zDim m i j);
      [by eapply list_elem_of_lookup_2..|]. cbn [Cell3D.position]. congruence. }
  eapply (proj1 (NoDup_alt _) Hkeys i j).
  - by rewrite list_lookup_fmap, Hc1.
  - rewrite list_lookup_fmap, Hc2. simpl. by rewrite Hsame.
Qed.

End scene.

(** X24.  The scene of [CubeVisualization] is empty or has one box for
    each cell of the cube, in order; the colours of the boxes are the
    colour scale of their values; and two boxes are drawn at the same
    position exactly when their cells have the same coordinates on the
    three axes. *)
Theorem scene_X24 `{JsHost} (cube : OLAPCube.t) (a : AxisAssignment) :
  (cells3D cube a = [] ∨ map Cell3D.cell (cells3D cube a) = OLAPCube.data cube) ∧
  map Cell3D.color (cells3D cube a)
    = map Some (generateColorScale (map Cell3D.value (cells3D cube a))) ∧
  (∀ b1 b2, b1 ∈ cells3D cube a → b2 ∈ cells3D cube a →
     Cell3D.position b1 = Cell3D.position b2 ↔
     ∀ d, d ∈ axes_of a →
       coordinates (Cell3D.cell b1) !! d = coordinates (Cell3D.cell b2) !! d).
Proof.
  destruct (cells3D_cases cube a) as [->|(xDim & yDim & zDim & m & Haxes & _ & _ & ->)].
  { split_and!; [by left|done|]. intros b1 b2 Hb1. by apply elem_of_nil in Hb1. }
  split_and!.
  - right. rewrite fmap_imap. unfold compose. cbn [Cell3D.cell].
    by rewrite (imap_ignore id), map_id.
  - rewrite !fmap_imap. unfold compose. cbn [Cell3D.color Cell3D.value].
    rewrite imap_ignore. apply imap_lookup.
    by rewrite length_generateColorScale, length_map.
  - intros b1 b2 (i & c1 & -> & Hi)%elem_of_lookup_imap
                 (j & c2 & -> & Hj)%elem_of_lookup_imap.
    rewrite Haxes. cbn [Cell3D.cell].
    apply same_box_position; by eapply list_elem_of_lookup_2.
Qed.


(** X25.  After a pivot the boxes do not overlap: in the scene drawn for
    the cube that [pivotCube] returns, under the assignment that was
    pivoted to, no two boxes have the same position. *)
Theorem pivoted_boxes_apart_X25 `{JsHost} (now : Z) (cube : OLAPCube.t)
    (a : AxisAssignment) :
  ∃ cube',
    pivotCube now cube a = Some cube' ∧
    NoDup (map Cell3D.position (cells3D cube' a)).
Proof.
  destruct (decide (axes_of a = [])) as [Hnil|Haxes].
  { exists cube. split.
    - unfold pivotCube. fold (axes_of a). by rewrite Hnil.
    - destruct (cells3D_cases cube a) as [->|(? & ? & ? & ? & Ha & _)];
        [constructor|congruence]. }
  destruct (pivot_measure cube a) as [m|] eqn:Hm.
  2: { exists cube. split.
       - unfold pivotCube. fold (axes_of a).
         rewrite decide_False by (by destruct (axes_of a)). by rewrite Hm.
       - destruct (cells3D_cases cube a) as [->|(? & ? & ? & m & _ & Hma & Hne & _)];
           [constructor|].
         unfold pivot_measure in Hm. rewrite Hma, decide_False in Hm; done. }
  unfold pivotCube. fold (axes_of a).
  rewrite decide_False by (by destruct (axes_of a)). rewrite Hm.
  destruct (aggregateData_groups (OLAPCube.data cube) (axes_of a) m sum)
    as (aggregated & Hagg & _).
  rewrite Hagg. cbn [mbind option_bind]. eexists. split; [done|].
  match goal with |- NoDup (map _ (cells3D ?c a)) => set (cube' := c) end.
  destruct (cells3D_cases cube' a) as [->|(xDim & yDim & zDim & m' & Ha & _ & _ & ->)];
    [constructor|].
  apply boxes_apart. subst cube'. cbn [OLAPCube.data]. rewrite <- Ha.
  rewrite (aggregateData_keys _ _ _ _ _ Hagg). apply groupBy_NoDup.
Qed.
